(** * Match state engine of the capture-the-flag server (src/main.js)

    A shallow embedding of the request handlers of [src/main.js] as
    functions on an explicit match state, and the proofs of the
    properties the specification states about them.

    Modelling conventions.
    - The module-level variables [players], [teams], [nextPlayerNumber],
      [flagHolder] and [events] are the fields of one [state] record that
      every handler receives and returns.
    - A JS number is [jsnum]: a rational, [+Infinity], [-Infinity] or
      [NaN].  Arithmetic on finite values is exact; binary64 rounding and
      the sign of zero (which no handler can observe) are not modelled.
      What is stated about a sum or a difference is therefore limited to
      what rounding to nearest preserves: comparisons with the operands
      and with 0 and 100, and equalities between integers up to 2^53.
    - A request field is a [value]: absent ([undefined]), [null], a
      boolean, a number or a string.  Arrays and objects as field values
      are outside the model.
    - [players] is a JS [Map], which iterates in insertion order: an
      association list with unique keys, [Map.set] replacing in place or
      appending.  Player objects are only reachable through the map, so a
      field assignment on a player is a replacement of its entry.
    - The clock ([Date.now()], [new Date()]) and the client address
      ([getClientIP(req)]) are inputs of a request, its [env].  One clock
      reading serves a whole handler run.
    - The text of a log line is kept as a structured [message] carrying
      the values interpolated into the template string.
    - [teams] is an object literal: [teams[key]] finds the own properties
      [blue] and [red] and, for any other key, what [Object.prototype]
      provides under that name. *)

From Stdlib Require Import List String Ascii Bool ZArith NArith QArith Lia Lqa.
From Stdlib Require Import DecimalString.
Import ListNotations.

Local Open Scope string_scope.
Local Open Scope Z_scope.

(** ** JS numbers *)

Inductive jsnum : Type :=
| Finite (q : Q)
| PosInf
| NegInf
| NaN.

Definition num_of_Z (z : Z) : jsnum := Finite (inject_Z z).

(** [a + b] *)
Definition js_add (a b : jsnum) : jsnum :=
  match a, b with
  | NaN, _ | _, NaN => NaN
  | PosInf, NegInf | NegInf, PosInf => NaN
  | PosInf, _ | _, PosInf => PosInf
  | NegInf, _ | _, NegInf => NegInf
  | Finite x, Finite y => Finite (x + y)
  end.

(** [a - b] *)
Definition js_sub (a b : jsnum) : jsnum :=
  match a, b with
  | NaN, _ | _, NaN => NaN
  | PosInf, PosInf | NegInf, NegInf => NaN
  | PosInf, _ | _, NegInf => PosInf
  | NegInf, _ | _, PosInf => NegInf
  | Finite x, Finite y => Finite (x - y)
  end.

(** [a < b] *)
Definition js_lt (a b : jsnum) : bool :=
  match a, b with
  | NaN, _ | _, NaN => false
  | _, NegInf => false
  | NegInf, _ => true
  | PosInf, _ => false
  | Finite _, PosInf => true
  | Finite x, Finite y => negb (Qle_bool y x)
  end.

(** [a <= b] *)
Definition js_le (a b : jsnum) : bool :=
  match a, b with
  | NaN, _ | _, NaN => false
  | NegInf, _ => true
  | _, PosInf => true
  | _, NegInf => false
  | PosInf, _ => false
  | Finite x, Finite y => Qle_bool x y
  end.

(** [a === b] on numbers *)
Definition js_eq (a b : jsnum) : bool :=
  match a, b with
  | Finite x, Finite y => Qeq_bool x y
  | PosInf, PosInf | NegInf, NegInf => true
  | _, _ => false
  end.

(** [Math.max(a, b)] *)
Definition Math_max (a b : jsnum) : jsnum :=
  match a, b with
  | NaN, _ | _, NaN => NaN
  | _, _ => if js_lt a b then b else a
  end.

(** [Math.min(a, b)] *)
Definition Math_min (a b : jsnum) : jsnum :=
  match a, b with
  | NaN, _ | _, NaN => NaN
  | _, _ => if js_lt b a then b else a
  end.

Definition Q_is_integer (q : Q) : bool :=
  (Qnum q mod Zpos (Qden q) =? 0)%Z.

(** [Number.isInteger(a)] *)
Definition Number_isInteger (a : jsnum) : bool :=
  match a with
  | Finite q => Q_is_integer q
  | _ => false
  end.

(** Truthiness of a number: everything but zero and [NaN]. *)
Definition num_truthy (a : jsnum) : bool :=
  match a with
  | Finite q => negb (Qeq_bool q 0)
  | NaN => false
  | _ => true
  end.

(** The integer an integral number denotes, for template strings. *)
Definition num_floor (a : jsnum) : Z :=
  match a with
  | Finite q => (Qnum q / Zpos (Qden q))%Z
  | _ => 0
  end.

(** ** Request field values *)

Inductive value : Type :=
| VUndefined
| VNull
| VBool (b : bool)
| VNum (n : jsnum)
| VStr (s : string).

(** [!v] is [negb (truthy v)]. *)
Definition truthy (v : value) : bool :=
  match v with
  | VUndefined | VNull => false
  | VBool b => b
  | VNum n => num_truthy n
  | VStr s => negb (s =? "")%string
  end.

(** ** The [Map] of players *)

Section JsMap.
Context {A : Type}.

Definition jsmap := list (string * A).

Fixpoint map_get (k : string) (m : jsmap) : option A :=
  match m with
  | [] => None
  | (k', a) :: m' => if (k' =? k)%string then Some a else map_get k m'
  end.

Definition map_has (k : string) (m : jsmap) : bool :=
  match map_get k m with Some _ => true | None => false end.

Fixpoint map_set (k : string) (a : A) (m : jsmap) : jsmap :=
  match m with
  | [] => [(k, a)]
  | (k', a') :: m' =>
      if (k' =? k)%string then (k, a) :: m' else (k', a') :: map_set k a m'
  end.

Fixpoint map_delete (k : string) (m : jsmap) : jsmap :=
  match m with
  | [] => []
  | (k', a') :: m' =>
      if (k' =? k)%string then m' else (k', a') :: map_delete k m'
  end.

Definition map_values (m : jsmap) : list A := List.map snd m.

Definition map_keys (m : jsmap) : list string := List.map fst m.
End JsMap.

Arguments jsmap : clear implicits.

(** A map key taken from a request field: only a string can equal a key
    of [players], whose keys are all strings. *)
Definition has_key {A} (v : value) (m : jsmap A) : bool :=
  match v with
  | VStr k => map_has k m
  | _ => false
  end.

(** ** Players, teams, events *)

Module Player.
Record t : Type := mk {
  id : string;
  number : Z;
  code : jsnum;
  name : string;
  ip : string;
  team : string;
  kills : jsnum;
  health : jsnum;
  joinedAt : N
}.

Definition with_kills (k : jsnum) (p : t) : t :=
  mk (id p) (number p) (code p) (name p) (ip p) (team p) k (health p)
     (joinedAt p).

Definition with_health (h : jsnum) (p : t) : t :=
  mk (id p) (number p) (code p) (name p) (ip p) (team p) (kills p) h
     (joinedAt p).

Definition with_team (tm : string) (p : t) : t :=
  mk (id p) (number p) (code p) (name p) (ip p) tm (kills p) (health p)
     (joinedAt p).
End Player.

Module Team.
Record t : Type := mk {
  name : string;
  flagsCaptured : Z;
  color : string
}.

Definition with_flagsCaptured (n : Z) (tm : t) : t :=
  mk (name tm) n (color tm).
End Team.

(** The object [teams]: its two own properties. *)
Record teams_obj : Type := mkTeams {
  blue : Team.t;
  red : Team.t
}.

(** What [teams[key]] evaluates to.  [teams] is an object literal, so a
    key that is not an own property is looked up on [Object.prototype]. *)
Inductive teams_member : Type :=
| OwnBlue
| OwnRed
| Inherited (key : string).

Definition Object_prototype_keys : list string :=
  [ "constructor"; "__proto__"; "hasOwnProperty"; "isPrototypeOf";
    "propertyIsEnumerable"; "toLocaleString"; "toString"; "valueOf";
    "__defineGetter__"; "__defineSetter__"; "__lookupGetter__";
    "__lookupSetter__" ].

(** [teams[key]] for a string key; [None] is [undefined].  Every member
    found is an object or a function, hence truthy. *)
Definition teams_lookup (key : string) : option teams_member :=
  if (key =? "blue")%string then Some OwnBlue
  else if (key =? "red")%string then Some OwnRed
  else if existsb (String.eqb key) Object_prototype_keys
       then Some (Inherited key)
  else None.

(** [teams[v]] for a request field.  The string a boolean or a number is
    converted to names no property of [teams] or of [Object.prototype]. *)
Definition teams_lookup_value (v : value) : option teams_member :=
  match v with
  | VStr key => teams_lookup key
  | _ => None
  end.

(** [teams[key].name], as a template string prints it. *)
Definition member_name (t : teams_obj) (m : teams_member) : string :=
  match m with
  | OwnBlue => Team.name (blue t)
  | OwnRed => Team.name (red t)
  | Inherited key =>
      if (key =? "constructor")%string then "Object"
      else if (key =? "__proto__")%string then "undefined"
      else key
  end.

(** [teams[key].flagsCaptured++] followed by reading
    [teams[key].flagsCaptured] back.  On an inherited member the write
    lands on a builtin object, where incrementing the missing property
    stores [NaN], and [teams] stays as it was. *)
Definition increment_flagsCaptured (t : teams_obj) (m : teams_member)
  : teams_obj * jsnum :=
  match m with
  | OwnBlue =>
      let n := Team.flagsCaptured (blue t) + 1 in
      (mkTeams (Team.with_flagsCaptured n (blue t)) (red t), num_of_Z n)
  | OwnRed =>
      let n := Team.flagsCaptured (red t) + 1 in
      (mkTeams (blue t) (Team.with_flagsCaptured n (red t)), num_of_Z n)
  | Inherited _ => (t, NaN)
  end.

(** The lines written by [logEvent], one constructor per template. *)
Inductive message : Type :=
| MsgJoin (name : string) (code : jsnum) (team ip : string)
| MsgLeave (name : string) (code : jsnum)
| MsgCapture (name : string) (code : jsnum) (teamName : string)
| MsgObtain (name : string) (code : jsnum) (previous : option string)
| MsgRespawn (name : string) (code : jsnum)
| MsgAttack (attacker : string) (attackerCode : jsnum)
            (target : string) (targetCode : jsnum)
            (dmg : jsnum) (killed : bool)
| MsgKill (attacker : string) (attackerCode : jsnum)
          (target : string) (targetCode : jsnum)
| MsgHeal (healer : string) (target : string) (targetCode : jsnum)
          (amt : jsnum)
| MsgTeamChange (name : string) (code : jsnum) (teamName : string)
| MsgRestart.

(** An entry of [events]; [displayTs] is [ts] in local time. *)
Record event : Type := mkEvent {
  ts : N;
  msg : message
}.

(** ** The match state *)

Record state : Type := mkState {
  players : jsmap Player.t;
  teams : teams_obj;
  nextPlayerNumber : Z;
  flagHolder : option string;
  events : list event
}.

Definition with_players (m : jsmap Player.t) (s : state) : state :=
  mkState m (teams s) (nextPlayerNumber s) (flagHolder s) (events s).

Definition with_teams (t : teams_obj) (s : state) : state :=
  mkState (players s) t (nextPlayerNumber s) (flagHolder s) (events s).

Definition with_nextPlayerNumber (n : Z) (s : state) : state :=
  mkState (players s) (teams s) n (flagHolder s) (events s).

Definition with_flagHolder (h : option string) (s : state) : state :=
  mkState (players s) (teams s) (nextPlayerNumber s) h (events s).

Definition with_events (l : list event) (s : state) : state :=
  mkState (players s) (teams s) (nextPlayerNumber s) (flagHolder s) l.

(** The module-level initialisers. *)
Definition init : state :=
  mkState []
          (mkTeams (Team.mk "Blue" 0 "#0066ff") (Team.mk "Red" 0 "#ff3333"))
          4 None [].

(** What a request brings besides its body: the clock and the address
    [getClientIP(req)] resolves to. *)
Record env : Type := mkEnv {
  now : N;
  clientIP : string
}.

(** ** Responses *)

Inductive body : Type :=
| BError (error : string)
| BJoin (playerId : string) (player : Player.t)
| BPlayer (player : Player.t)
| BMessage (message : string)
| BCapture (team : string) (flagsCaptured : jsnum) (holder : option string)
| BObtain (obtainedBy : string) (previousHolder holder : option string)
| BAttack (attacker target : Player.t) (killed : bool)
          (holder : option string)
| BTarget (target : Player.t)
| BRestart (message : string) (playerList : list Player.t)
           (teamsNow : teams_obj) (holder : option string)
| BEvents (log : list event)
| BPlayers (playerList : list Player.t) (teamsNow : teams_obj)
           (holder : option string) (myPlayerId : option string).

Record response : Type := mkResponse {
  status : Z;
  content : body
}.

Definition ok (b : body) : response := mkResponse 200 b.
Definition fail (code : Z) (error : string) : response :=
  mkResponse code (BError error).

(** ** Helpers of the handlers *)

(** [logEvent(message)] *)
Definition logEvent (e : env) (m : message) (s : state) : state :=
  let pushed := (events s ++ [mkEvent (now e) m])%list in
  with_events
    (if (2000 <? Z.of_nat (List.length pushed)) then tl pushed else pushed) s.

(** [assignTeam()] *)
Definition assignTeam (s : state) : string :=
  let bluePlayers :=
    List.length (filter (fun p => (Player.team p =? "blue")%string)
                   (map_values (players s))) in
  let redPlayers :=
    List.length (filter (fun p => (Player.team p =? "red")%string)
                   (map_values (players s))) in
  if (bluePlayers <=? redPlayers)%nat then "blue" else "red".

(** Decimal rendering of the integers that reach a template string. *)
Definition show_N (n : N) : string :=
  NilEmpty.string_of_uint (N.to_uint n).

Definition show_Z (z : Z) : string :=
  NilEmpty.string_of_int (Z.to_int z).

(** [`${ip}-${Date.now()}`] *)
Definition make_id (ip : string) (t : N) : string :=
  ip ++ "-" ++ show_N t.

(** The guard [!v || !players.has(v)] followed by [players.get(v)]:
    [None] when the guard rejects. *)
Definition find_player (v : value) (m : jsmap Player.t)
  : option (string * Player.t) :=
  if negb (truthy v) || negb (has_key v m) then None
  else match v with
       | VStr k =>
           match map_get k m with
           | Some p => Some (k, p)
           | None => None
           end
       | _ => None
       end.

(** [flagHolder === id] *)
Definition holds (h : option string) (k : string) : bool :=
  match h with
  | Some k' => (k' =? k)%string
  | None => false
  end.

(** ** The handlers *)

Definition num0 : jsnum := num_of_Z 0.
Definition num1 : jsnum := num_of_Z 1.
Definition num100 : jsnum := num_of_Z 100.

(** GET /api/players *)
Definition getPlayers (e : env) (s : state) : state * response :=
  let playerList := map_values (players s) in
  let myPlayer :=
    find (fun p => (Player.ip p =? clientIP e)%string) playerList in
  (s, ok (BPlayers playerList (teams s) (flagHolder s)
                   (option_map Player.id myPlayer))).

(** GET /api/events *)
Definition getEvents (s : state) : state * response :=
  (s, ok (BEvents (events s))).

(** POST /api/player/join *)
Definition join (e : env) (code : value) (s : state) : state * response :=
  let ip := clientIP e in
  match code with
  | VNum c =>
      if js_lt c num0 || js_lt (num_of_Z 99) c || negb (Number_isInteger c)
      then (s, fail 400 "You must join with an integer `code` between 0 and 99")
      else if existsb (fun p => js_eq (Player.code p) c) (map_values (players s))
      then (s, fail 409 "This code is already in use. Pick another code.")
      else if existsb (fun p => (Player.ip p =? ip)%string)
                      (map_values (players s))
      then (s, fail 409 "A player from this IP is already in the game. Leave first to rejoin.")
      else
        let team := assignTeam s in
        let playerId := make_id ip (now e) in
        let player :=
          Player.mk playerId (nextPlayerNumber s) c
                    ("Player " ++ show_Z (num_floor c)) ip team
                    num0 num100 (now e) in
        let s1 := with_nextPlayerNumber (nextPlayerNumber s + 1) s in
        let s2 := with_players (map_set playerId player (players s1)) s1 in
        let s3 :=
          logEvent e (MsgJoin (Player.name player) (Player.code player)
                              (Player.team player) (Player.ip player)) s2 in
        (s3, ok (BJoin playerId player))
  | _ => (s, fail 400 "You must join with an integer `code` between 0 and 99")
  end.

(** POST /api/player/update *)
Definition update (playerId kills health : value) (s : state)
  : state * response :=
  match find_player playerId (players s) with
  | None => (s, fail 404 "Player not found")
  | Some (k, player) =>
      let player1 :=
        match kills with
        | VNum n => Player.with_kills (Math_max num0 n) player
        | _ => player
        end in
      let player2 :=
        match health with
        | VNum n =>
            Player.with_health (Math_max num0 (Math_min num100 n)) player1
        | _ => player1
        end in
      (with_players (map_set k player2 (players s)) s, ok (BPlayer player2))
  end.

(** DELETE /api/player/:id; [id] is a path segment, hence a string. *)
Definition remove (e : env) (id : string) (s : state) : state * response :=
  match map_get id (players s) with
  | None => (s, fail 404 "Player not found")
  | Some p =>
      let s1 := if holds (flagHolder s) id then with_flagHolder None s else s in
      let s2 := with_players (map_delete id (players s1)) s1 in
      let s3 := logEvent e (MsgLeave (Player.name p) (Player.code p)) s2 in
      (s3, ok (BMessage "Player removed"))
  end.

(** POST /api/flag/capture *)
Definition capture (e : env) (playerId : value) (s : state)
  : state * response :=
  match find_player playerId (players s) with
  | None => (s, fail 404 "Player not found")
  | Some (k, player) =>
      let teamKey := Player.team player in
      match teams_lookup teamKey with
      | None => (s, fail 400 "Player has invalid team")
      | Some m =>
          if negb (holds (flagHolder s) k)
          then (s, fail 400 "Player does not currently hold the flag")
          else
            let (teams1, captured) := increment_flagsCaptured (teams s) m in
            let s1 := with_teams teams1 s in
            let s2 := with_flagHolder None s1 in
            let s3 :=
              logEvent e (MsgCapture (Player.name player) (Player.code player)
                                     (member_name (teams s2) m)) s2 in
            (s3, ok (BCapture teamKey captured (flagHolder s3)))
      end
  end.

(** POST /api/flag/obtain *)
Definition obtain (e : env) (playerId : value) (s : state)
  : state * response :=
  match find_player playerId (players s) with
  | None => (s, fail 404 "Player not found")
  | Some (k, p) =>
      let previousHolder := flagHolder s in
      let s1 := with_flagHolder (Some k) s in
      let s2 :=
        logEvent e (MsgObtain (Player.name p) (Player.code p) previousHolder)
                 s1 in
      (s2, ok (BObtain k previousHolder (flagHolder s2)))
  end.

(** [attacker.kills || 0] *)
Definition or_zero (n : jsnum) : jsnum :=
  if num_truthy n then n else num0.

(** [typeof x === 'number' ? Math.max(0, x) : dflt], the first line of
    the attack and heal handlers. *)
Definition amount_or (dflt : Z) (x : value) : jsnum :=
  match x with
  | VNum n => Math_max num0 n
  | _ => num_of_Z dflt
  end.

(** POST /api/player/attack *)
Definition attack (e : env) (attackerId targetId damage : value) (s : state)
  : state * response :=
  let dmg := amount_or 10 damage in
  match find_player attackerId (players s) with
  | None => (s, fail 404 "Attacker not found")
  | Some (aid, attacker) =>
      match find_player targetId (players s) with
      | None => (s, fail 404 "Target not found")
      | Some (tid, target) =>
          if (aid =? tid)%string then (s, fail 400 "Cannot attack yourself")
          else
            let target1 :=
              Player.with_health
                (Math_max num0 (js_sub (Player.health target) dmg)) target in
            if js_eq (Player.health target1) num0 then
              let attacker1 :=
                Player.with_kills
                  (js_add (or_zero (Player.kills attacker)) num1) attacker in
              let holder1 :=
                if holds (flagHolder s) tid then None else flagHolder s in
              let target2 := Player.with_health num100 target1 in
              let s1 :=
                with_flagHolder holder1
                  (with_players
                     (map_set aid attacker1 (map_set tid target2 (players s)))
                     s) in
              let s2 :=
                logEvent e (MsgRespawn (Player.name target2)
                                       (Player.code target2)) s1 in
              let s3 :=
                logEvent e (MsgAttack (Player.name attacker1)
                                      (Player.code attacker1)
                                      (Player.name target2)
                                      (Player.code target2) dmg true) s2 in
              let s4 :=
                logEvent e (MsgKill (Player.name attacker1)
                                    (Player.code attacker1)
                                    (Player.name target2)
                                    (Player.code target2)) s3 in
              (s4, ok (BAttack attacker1 target2 true (flagHolder s4)))
            else
              let s1 := with_players (map_set tid target1 (players s)) s in
              let s2 :=
                logEvent e (MsgAttack (Player.name attacker)
                                      (Player.code attacker)
                                      (Player.name target1)
                                      (Player.code target1) dmg false) s1 in
              (s2, ok (BAttack attacker target1 false (flagHolder s2)))
      end
  end.

(** POST /api/player/heal.  A truthy [healerId] that passed the guard is
    a key of [players], so the lookup of the healer's name succeeds. *)
Definition heal (e : env) (healerId targetId amount : value) (s : state)
  : state * response :=
  let amt := amount_or 20 amount in
  match find_player targetId (players s) with
  | None => (s, fail 404 "Target not found")
  | Some (tid, target) =>
      if truthy healerId && negb (has_key healerId (players s))
      then (s, fail 404 "Healer not found")
      else
        let target1 :=
          Player.with_health
            (Math_max num0
               (Math_min num100 (js_add (Player.health target) amt)))
            target in
        let s1 := with_players (map_set tid target1 (players s)) s in
        let healer :=
          if truthy healerId then
            match find_player healerId (players s1) with
            | Some (_, h) => Player.name h
            | None => ""
            end
          else "System" in
        let s2 :=
          logEvent e (MsgHeal healer (Player.name target1)
                              (Player.code target1) amt) s1 in
        (s2, ok (BTarget target1))
  end.

(** POST /api/player/changeTeam.  What passes the guard
    [!team || !teams[team]] is a string naming a member of [teams], own
    or inherited. *)
Definition changeTeam (e : env) (playerId team : value) (s : state)
  : state * response :=
  match find_player playerId (players s) with
  | None => (s, fail 404 "Player not found")
  | Some (k, p) =>
      match (if truthy team then teams_lookup_value team else None), team with
      | Some m, VStr key =>
          let p1 := Player.with_team key p in
          let s1 := with_players (map_set k p1 (players s)) s in
          let s2 :=
            logEvent e (MsgTeamChange (Player.name p1) (Player.code p1)
                                      (member_name (teams s1) m)) s1 in
          (s2, ok (BPlayer p1))
      | _, _ => (s, fail 400 "Invalid team")
      end
  end.

(** POST /api/player/leave *)
Definition leave (playerId : value) (s : state) : state * response :=
  match find_player playerId (players s) with
  | None => (s, fail 404 "Player not found")
  | Some (k, _) =>
      (with_players (map_delete k (players s)) s, ok (BMessage "Player removed"))
  end.

(** POST /api/restart *)
Definition restart (e : env) (s : state) : state * response :=
  let s1 := with_players [] s in
  let s2 :=
    with_teams
      (mkTeams (Team.with_flagsCaptured 0 (blue (teams s1)))
               (Team.with_flagsCaptured 0 (red (teams s1)))) s1 in
  let s3 := with_flagHolder None s2 in
  let s4 := with_events [] s3 in
  let s5 := with_nextPlayerNumber 4 s4 in
  let s6 := logEvent e MsgRestart s5 in
  (s6, ok (BRestart "Match restarted successfully" [] (teams s6) None)).

(** ** Requests and runs *)

Inductive request : Type :=
| GetPlayers
| GetEvents
| Join (code : value)
| UpdateStats (playerId kills health : value)
| Remove (id : string)
| CaptureFlag (playerId : value)
| ObtainFlag (playerId : value)
| Attack (attackerId targetId damage : value)
| Heal (healerId targetId amount : value)
| ChangeTeam (playerId team : value)
| Leave (playerId : value)
| Restart.

Definition handle (e : env) (r : request) (s : state) : state * response :=
  match r with
  | GetPlayers => getPlayers e s
  | GetEvents => getEvents s
  | Join code => join e code s
  | UpdateStats playerId kills health => update playerId kills health s
  | Remove id => remove e id s
  | CaptureFlag playerId => capture e playerId s
  | ObtainFlag playerId => obtain e playerId s
  | Attack attackerId targetId damage => attack e attackerId targetId damage s
  | Heal healerId targetId amount => heal e healerId targetId amount s
  | ChangeTeam playerId team => changeTeam e playerId team s
  | Leave playerId => leave playerId s
  | Restart => restart e s
  end.

(** Requests are served one at a time, each to completion. *)
Fixpoint run (rs : list (env * request)) (s : state) : state :=
  match rs with
  | [] => s
  | (e, r) :: rs' => run rs' (fst (handle e r s))
  end.

Definition reachable (s : state) : Prop :=
  exists rs, run rs init = s.

(** * Predicates of the specification *)

(** A number within [0,100]; this excludes [NaN] and the infinities. *)
Definition in_range (h : jsnum) : Prop :=
  js_le num0 h = true /\ js_le h num100 = true.

(** A request field that, when it is a number, is an integer. *)
Definition integral_field (v : value) : Prop :=
  forall n, v = VNum n -> Number_isInteger n = true.

Fixpoint has_char (c : ascii) (s : string) : bool :=
  match s with
  | EmptyString => false
  | String c' s' => Ascii.eqb c' c || has_char c s'
  end.

(** Every key of [players] is the id built at join time from the
    address its player still carries. *)
Definition id_of_ip (kp : string * Player.t) : Prop :=
  exists t, fst kp = make_id (Player.ip (snd kp)) t.

Definition ids_wf (s : state) : Prop := Forall id_of_ip (players s).

(** The request field [code] is an integer between 0 and 99. *)
Definition is_code (v : value) : Prop :=
  exists q z, v = VNum (Finite q) /\ (q == inject_Z z)%Q /\ (0 <= z <= 99)%Z.

(** Some active player already has this code. *)
Definition code_in_use (v : value) (s : state) : Prop :=
  exists p n, In p (map_values (players s)) /\ v = VNum n /\
              js_eq (Player.code p) n = true.

(** Some active player already joined from this address. *)
Definition ip_in_use (ip : string) (s : state) : Prop :=
  exists p, In p (map_values (players s)) /\ Player.ip p = ip.

(** The four outcomes of a join. *)
Inductive join_outcome (e : env) (code : value) (s : state)
  : state * response -> Prop :=
| join_invalid r :
    ~ is_code code -> status r = 400 -> join_outcome e code s (s, r)
| join_code_conflict r :
    is_code code -> code_in_use code s -> status r = 409 ->
    join_outcome e code s (s, r)
| join_ip_conflict r :
    is_code code -> ~ code_in_use code s -> ip_in_use (clientIP e) s ->
    status r = 409 -> join_outcome e code s (s, r)
| join_success c p s' :
    code = VNum c ->
    is_code code -> ~ code_in_use code s -> ~ ip_in_use (clientIP e) s ->
    p = Player.mk (make_id (clientIP e) (now e)) (nextPlayerNumber s) c
                  ("Player " ++ show_Z (num_floor c)) (clientIP e)
                  (assignTeam s) num0 num100 (now e) ->
    players s' = map_set (Player.id p) p (players s) ->
    nextPlayerNumber s' = nextPlayerNumber s + 1 ->
    teams s' = teams s -> flagHolder s' = flagHolder s ->
    events s' = events (logEvent e (MsgJoin (Player.name p) c (Player.team p)
                                            (Player.ip p)) s) ->
    join_outcome e code s (s', ok (BJoin (Player.id p) p)).

(** The number of active players of a team. *)
Definition team_count (t : string) (s : state) : nat :=
  List.length (filter (fun p => (Player.team p =? t)%string)
                      (map_values (players s))).

Definition is_join (er : env * request) : Prop :=
  exists code, snd er = Join code.

Definition log_bounded (s : state) : Prop :=
  Z.of_nat (List.length (events s)) <= 2000.

Definition not_restart (er : env * request) : Prop := snd er <> Restart.

Definition same_labels (t t' : teams_obj) : Prop :=
  Team.name (blue t') = Team.name (blue t) /\
  Team.color (blue t') = Team.color (blue t) /\
  Team.name (red t') = Team.name (red t) /\
  Team.color (red t') = Team.color (red t).

Definition is_capture (r : request) : Prop :=
  exists playerId, r = CaptureFlag playerId.

(** [flagHolder] is [null] or the id of an active player. *)
Definition holder_active (s : state) : Prop :=
  match flagHolder s with
  | None => True
  | Some k => map_has k (players s) = true
  end.

Definition is_leave (r : request) : Prop :=
  exists playerId, r = Leave playerId.

(** The numeric arguments that reach a health computation. *)
Definition health_argument (r : request) : option value :=
  match r with
  | UpdateStats _ _ health => Some health
  | Attack _ _ damage => Some damage
  | Heal _ _ amount => Some amount
  | _ => None
  end.

Definition no_NaN_argument (r : request) : Prop :=
  health_argument r <> Some (VNum NaN).

Definition integral_argument (r : request) : Prop :=
  forall v, health_argument r = Some v -> integral_field v.

Definition all_health (P : jsnum -> Prop) (s : state) : Prop :=
  Forall (fun kp => P (Player.health (snd kp))) (players s).

(** * Further predicates *)

(** The fields of a player that are fixed when it joins. *)
Definition same_identity (p p' : Player.t) : Prop :=
  Player.id p' = Player.id p /\
  Player.number p' = Player.number p /\
  Player.code p' = Player.code p /\
  Player.name p' = Player.name p /\
  Player.ip p' = Player.ip p /\
  Player.joinedAt p' = Player.joinedAt p.

(** A team key the two guards [!teams[key]] let through. *)
Definition team_recognised (key : string) : Prop :=
  key = "blue" \/ key = "red" \/ In key Object_prototype_keys.

(** The ways one request can change [players] and [nextPlayerNumber]:
    not at all, by assigning fields of one player or of two distinct
    players, by adding the player a join built, by deleting one entry,
    or by clearing the map. *)
Inductive players_change (e : env) (s s' : state) : Prop :=
| change_none :
    players s' = players s -> nextPlayerNumber s' = nextPlayerNumber s ->
    players_change e s s'
| change_one k p p' :
    map_get k (players s) = Some p -> same_identity p p' ->
    Player.team p' = Player.team p \/ team_recognised (Player.team p') ->
    players s' = map_set k p' (players s) ->
    nextPlayerNumber s' = nextPlayerNumber s ->
    players_change e s s'
| change_two k1 p1 p1' k2 p2 p2' :
    k1 <> k2 ->
    map_get k1 (players s) = Some p1 -> same_identity p1 p1' ->
    Player.team p1' = Player.team p1 ->
    map_get k2 (players s) = Some p2 -> same_identity p2 p2' ->
    Player.team p2' = Player.team p2 ->
    players s' = map_set k1 p1' (map_set k2 p2' (players s)) ->
    nextPlayerNumber s' = nextPlayerNumber s ->
    players_change e s s'
| change_add c p :
    is_code (VNum c) -> ~ code_in_use (VNum c) s ->
    ~ ip_in_use (clientIP e) s ->
    p = Player.mk (make_id (clientIP e) (now e)) (nextPlayerNumber s) c
                  ("Player " ++ show_Z (num_floor c)) (clientIP e)
                  (assignTeam s) num0 num100 (now e) ->
    players s' = map_set (Player.id p) p (players s) ->
    nextPlayerNumber s' = nextPlayerNumber s + 1 ->
    players_change e s s'
| change_delete k p :
    map_get k (players s) = Some p ->
    players s' = map_delete k (players s) ->
    nextPlayerNumber s' = nextPlayerNumber s ->
    players_change e s s'
| change_clear :
    players s' = [] -> nextPlayerNumber s' = 4 ->
    players_change e s s'.

(** The integer a player's code denotes. *)
Definition code_number (p : Player.t) : Z := num_floor (Player.code p).

(** What every entry of [players] satisfies, given the value [n] of
    [nextPlayerNumber]. *)
Definition entry_ok (n : Z) (kp : string * Player.t) : Prop :=
  fst kp = Player.id (snd kp) /\
  id_of_ip kp /\
  is_code (VNum (Player.code (snd kp))) /\
  4 <= Player.number (snd kp) < n /\
  team_recognised (Player.team (snd kp)).

(** Consistency of the map of players with the counter: distinct keys,
    well-formed entries, and no two players with the same address, the
    same code or the same display number. *)
Definition roster (m : jsmap Player.t) (n : Z) : Prop :=
  NoDup (map_keys m) /\
  Forall (entry_ok n) m /\
  NoDup (List.map Player.ip (map_values m)) /\
  NoDup (List.map code_number (map_values m)) /\
  NoDup (List.map Player.number (map_values m)) /\
  4 <= n.

Definition roster_ok (s : state) : Prop :=
  roster (players s) (nextPlayerNumber s).

(** A request field that is not a number. *)
Definition not_a_number (v : value) : Prop := forall n, v <> VNum n.

(** The two conditional assignments of the update handler. *)
Definition updated (kills health : value) (p : Player.t) : Player.t :=
  let p1 :=
    match kills with
    | VNum n => Player.with_kills (Math_max num0 n) p
    | _ => p
    end in
  match health with
  | VNum n => Player.with_health (Math_max num0 (Math_min num100 n)) p1
  | _ => p1
  end.

(** The [kills] argument of a request, if it has one. *)
Definition kills_argument (r : request) : option value :=
  match r with
  | UpdateStats _ kills _ => Some kills
  | _ => None
  end.

Definition all_kills (P : jsnum -> Prop) (s : state) : Prop :=
  Forall (fun kp => P (Player.kills (snd kp))) (players s).

(** The log [l'] is the log [l] followed by [n] new entries written at
    the clock of [e]. *)
Definition appended (e : env) (l l' : list event) (n : nat) : Prop :=
  exists new, l' = (l ++ new)%list /\ List.length new = n /\
              Forall (fun ev => ts ev = now e) new.

(** ** The client address and the local addresses *)

(** What [getClientIP] reads of a request: the [x-forwarded-for] header
    and the remote address of the socket, [None] standing for
    [undefined].  A header value reaches the handler as a string of
    Latin-1 characters, one per byte. *)
Record origin : Type := mkOrigin {
  forwardedFor : option string;
  remoteAddress : option string
}.

(** The characters [String.prototype.trim] strips, among the first 256:
    tab, line feed, vertical tab, form feed, carriage return, space and
    no-break space. *)
Definition is_space (c : ascii) : bool :=
  match N_of_ascii c with
  | 9 | 10 | 11 | 12 | 13 | 32 | 160 => true
  | _ => false
  end%N.

(** [s.split(',')[0]] *)
Fixpoint first_field (s : string) : string :=
  match s with
  | EmptyString => EmptyString
  | String c s' =>
      if Ascii.eqb c "," then EmptyString else String c (first_field s')
  end.

Fixpoint trim_start (s : string) : string :=
  match s with
  | EmptyString => EmptyString
  | String c s' => if is_space c then trim_start s' else s
  end.

Fixpoint trim_end (s : string) : string :=
  match s with
  | EmptyString => EmptyString
  | String c s' =>
      match trim_end s' with
      | EmptyString => if is_space c then EmptyString else String c EmptyString
      | t => String c t
      end
  end.

(** [s.trim()] *)
Definition trim (s : string) : string := trim_end (trim_start s).

(** [a || b] for a string or [undefined] on the left. *)
Definition or_else (a : option string) (b : string) : string :=
  match a with
  | Some s => if (s =? "")%string then b else s
  | None => b
  end.

(** [getClientIP(req)] *)
Definition getClientIP (o : origin) : string :=
  or_else (option_map (fun h => trim (first_field h)) (forwardedFor o))
          (or_else (remoteAddress o) "unknown").

Definition starts_with_space (s : string) : bool :=
  match s with
  | EmptyString => false
  | String c _ => is_space c
  end.

Fixpoint ends_with_space (s : string) : bool :=
  match s with
  | EmptyString => false
  | String c EmptyString => is_space c
  | String _ s' => ends_with_space s'
  end.

(** An entry of [os.networkInterfaces()]. *)
Record net_info : Type := mkNet {
  address : string;
  family : string;
  internal : bool
}.

(** The inner loop of [getLocalIPs]: one interface name. *)
Definition push_addresses (results : list string) (infos : list net_info)
  : list string :=
  fold_left
    (fun acc net =>
       if (family net =? "IPv4")%string && negb (internal net)
       then (acc ++ [address net])%list else acc)
    infos results.

(** [getLocalIPs()], given what [os.networkInterfaces()] returned: the
    interface names in the order of [Object.keys], each with its
    entries. *)
Definition getLocalIPs (nets : list (string * list net_info)) : list string :=
  fold_left (fun acc entry => push_addresses acc (snd entry)) nets [].

(** The entries [getLocalIPs] is after. *)
Definition is_lan_ipv4 (net : net_info) : bool :=
  (family net =? "IPv4")%string && negb (internal net).

(** * Properties *)

(** ** Numbers *)

Lemma Qle_bool_false (x y : Q) : Qle_bool x y = false -> (y < x)%Q.
Proof.
  intros H. apply Qnot_le_lt. intros Hle.
  apply Qle_bool_iff in Hle. congruence.
Qed.

Ltac qbool :=
  repeat match goal with
    | H : Qle_bool _ _ = true |- _ => apply Qle_bool_iff in H
    | H : Qle_bool _ _ = false |- _ => apply Qle_bool_false in H
    | H : Qeq_bool _ _ = true |- _ => apply Qeq_bool_iff in H
    | H : Qeq_bool _ _ = false |- _ => apply Qeq_bool_neq in H
    | |- Qle_bool _ _ = true => apply Qle_bool_iff
    | |- Qeq_bool _ _ = true => apply Qeq_bool_iff
    end.

Lemma in_range_finite h :
  in_range h -> exists q, h = Finite q /\ (0 <= q)%Q /\ (q <= 100)%Q.
Proof.
  intros [H0 H1]. destruct h as [q| | |]; simpl in *; try discriminate.
  exists q. qbool. auto.
Qed.

Lemma finite_in_range q : (0 <= q)%Q -> (q <= 100)%Q -> in_range (Finite q).
Proof. intros H0 H1. split; simpl; qbool; assumption. Qed.

Lemma in_range_100 : in_range num100.
Proof. split; reflexivity. Qed.

(** The clamped damage or amount is never negative, and is [NaN] only
    when the argument is. *)
Lemma amount_or_nonneg dflt x :
  (0 <= dflt)%Z -> x <> VNum NaN ->
  amount_or dflt x = PosInf \/
  exists q, amount_or dflt x = Finite q /\ (0 <= q)%Q.
Proof.
  intros Hd Hx.
  assert (Hdflt : exists q, num_of_Z dflt = Finite q /\ (0 <= q)%Q).
  { exists (inject_Z dflt). split; [reflexivity|].
    change 0%Q with (inject_Z 0). rewrite <- Zle_Qle. assumption. }
  destruct x as [| |b|n|str]; simpl; auto.
  destruct n as [q| | |]; simpl; auto.
  - right. destruct (Qle_bool q (inject_Z 0)) eqn:E; simpl.
    + exists (inject_Z 0). split; [reflexivity|]. apply Qle_refl.
    + exists q. split; [reflexivity|]. qbool. apply Qlt_le_weak. exact E.
  - right. exists (inject_Z 0). split; [reflexivity|]. apply Qle_refl.
  - congruence.
Qed.

(** [Math.max(0, Math.min(100, n))] lands in [0,100] unless [n] is [NaN]. *)
Lemma clamp_in_range n :
  n <> NaN -> in_range (Math_max num0 (Math_min num100 n)).
Proof.
  intros Hn. destruct n as [q| | |]; try congruence; try (split; reflexivity).
  unfold Math_min, num100, num_of_Z, js_lt.
  destruct (Qle_bool (inject_Z 100) q) eqn:E1; simpl.
  - split; reflexivity.
  - destruct (Qle_bool q (inject_Z 0)) eqn:E2; simpl.
    + split; reflexivity.
    + qbool. apply finite_in_range; apply Qlt_le_weak; assumption.
Qed.

(** Subtracting a non-negative damage and flooring at 0 stays in range. *)
Lemma attack_in_range h d :
  in_range h ->
  (d = PosInf \/ exists q, d = Finite q /\ (0 <= q)%Q) ->
  in_range (Math_max num0 (js_sub h d)).
Proof.
  intros Hh Hd. apply in_range_finite in Hh as (x & -> & Hx0 & Hx1).
  destruct Hd as [-> | (y & -> & Hy)]; [split; reflexivity|].
  unfold Math_max, js_sub, num0, num_of_Z, js_lt.
  destruct (Qle_bool (x - y) (inject_Z 0)) eqn:E; simpl.
  - split; reflexivity.
  - qbool. change (inject_Z 0) with 0%Q in E.
    apply finite_in_range; lra.
Qed.

(** Adding a non-negative amount and clamping stays in range. *)
Lemma heal_in_range h d :
  in_range h ->
  (d = PosInf \/ exists q, d = Finite q /\ (0 <= q)%Q) ->
  in_range (Math_max num0 (Math_min num100 (js_add h d))).
Proof.
  intros Hh Hd. apply clamp_in_range.
  apply in_range_finite in Hh as (x & -> & _).
  destruct Hd as [-> | (y & -> & _)]; simpl; discriminate.
Qed.

(** Integral numbers. *)
Lemma Q_is_integer_iff q :
  Q_is_integer q = true <-> exists z, q = (z * Zpos (Qden q)) # Qden q.
Proof.
  unfold Q_is_integer. destruct q as [n d]; simpl. rewrite Z.eqb_eq. split.
  - intros H. exists (n / Zpos d)%Z. f_equal.
    rewrite Z.mul_comm. apply Z.div_exact; [lia | exact H].
  - intros [z Hz]. injection Hz as ->. apply Z.mod_mul. lia.
Qed.

Lemma Q_is_integer_inject z : Q_is_integer (inject_Z z) = true.
Proof. unfold Q_is_integer; simpl. rewrite Z.mod_1_r. reflexivity. Qed.

Lemma Q_is_integer_plus x y :
  Q_is_integer x = true -> Q_is_integer y = true ->
  Q_is_integer (x + y) = true.
Proof.
  unfold Q_is_integer. destruct x as [a b], y as [c d]; simpl.
  rewrite !Z.eqb_eq. intros Hx Hy.
  apply Z.mod_divide in Hx; [|lia]. apply Z.mod_divide in Hy; [|lia].
  apply Z.mod_divide; [lia|].
  destruct Hx as [u ->], Hy as [v ->].
  exists (u + v)%Z. rewrite Pos2Z.inj_mul. ring.
Qed.

Lemma Q_is_integer_opp x :
  Q_is_integer x = true -> Q_is_integer (- x) = true.
Proof.
  unfold Q_is_integer. destruct x as [a b]; simpl.
  rewrite !Z.eqb_eq. intros Hx.
  apply Z.mod_divide in Hx; [|lia]. apply Z.mod_divide; [lia|].
  destruct Hx as [u ->]. exists (- u)%Z. ring.
Qed.

Lemma Q_is_integer_minus x y :
  Q_is_integer x = true -> Q_is_integer y = true ->
  Q_is_integer (x - y) = true.
Proof.
  intros Hx Hy. unfold Qminus.
  apply Q_is_integer_plus; [assumption | apply Q_is_integer_opp; assumption].
Qed.

(** [Math.max] and [Math.min] of integers are integers. *)
Lemma Math_max_integer a b :
  Number_isInteger a = true -> Number_isInteger b = true ->
  Number_isInteger (Math_max a b) = true.
Proof.
  destruct a, b; simpl; try discriminate.
  intros Ha Hb. destruct (Qle_bool q0 q); simpl; assumption.
Qed.

Lemma Math_min_integer a b :
  Number_isInteger a = true -> Number_isInteger b = true ->
  Number_isInteger (Math_min a b) = true.
Proof.
  destruct a, b; simpl; try discriminate.
  intros Ha Hb. destruct (Qle_bool q q0); simpl; assumption.
Qed.

Lemma num_of_Z_integer z : Number_isInteger (num_of_Z z) = true.
Proof. apply Q_is_integer_inject. Qed.

Lemma amount_or_integer dflt x :
  integral_field x -> Number_isInteger (amount_or dflt x) = true.
Proof.
  intros Hx. destruct x; unfold amount_or; try apply num_of_Z_integer.
  apply Math_max_integer; [apply num_of_Z_integer | apply Hx; reflexivity].
Qed.

Lemma js_sub_integer a b :
  Number_isInteger a = true -> Number_isInteger b = true ->
  Number_isInteger (js_sub a b) = true.
Proof.
  destruct a, b; simpl; try discriminate. apply Q_is_integer_minus.
Qed.

Lemma js_add_integer a b :
  Number_isInteger a = true -> Number_isInteger b = true ->
  Number_isInteger (js_add a b) = true.
Proof.
  destruct a, b; simpl; try discriminate. apply Q_is_integer_plus.
Qed.

(** ** The map of players *)

Section JsMapFacts.
Context {A : Type}.
Implicit Types (m : jsmap A) (k : string) (a : A).

Lemma map_get_set_same k a m : map_get k (map_set k a m) = Some a.
Proof.
  induction m as [|[k' a'] m IH]; simpl.
  - rewrite String.eqb_refl. reflexivity.
  - destruct (String.eqb_spec k' k) as [->|Hne]; simpl.
    + rewrite String.eqb_refl. reflexivity.
    + apply String.eqb_neq in Hne. rewrite Hne. exact IH.
Qed.

Lemma map_get_set_other k k' a m :
  k <> k' -> map_get k' (map_set k a m) = map_get k' m.
Proof.
  intros Hne. induction m as [|[k0 a0] m IH]; simpl.
  - apply String.eqb_neq in Hne. rewrite Hne. reflexivity.
  - destruct (String.eqb_spec k0 k) as [->|Hk]; simpl.
    + apply String.eqb_neq in Hne. rewrite Hne. reflexivity.
    + destruct (k0 =? k')%string; [reflexivity | exact IH].
Qed.

Lemma map_set_fresh k a m :
  map_get k m = None -> map_set k a m = (m ++ [(k, a)])%list.
Proof.
  induction m as [|[k' a'] m IH]; simpl; [reflexivity|].
  destruct (k' =? k)%string; [discriminate|].
  intros H. rewrite IH by exact H. reflexivity.
Qed.

Lemma map_get_delete_other k k' m :
  k <> k' -> map_get k' (map_delete k m) = map_get k' m.
Proof.
  intros Hne. induction m as [|[k0 a0] m IH]; simpl; [reflexivity|].
  destruct (String.eqb_spec k0 k) as [->|Hk]; simpl.
  - apply String.eqb_neq in Hne. rewrite Hne. reflexivity.
  - destruct (k0 =? k')%string; [reflexivity | exact IH].
Qed.

Lemma map_get_In k a m : map_get k m = Some a -> In (k, a) m.
Proof.
  induction m as [|[k' a'] m IH]; simpl; [discriminate|].
  destruct (String.eqb_spec k' k) as [->|Hk].
  - intros [= ->]. left. reflexivity.
  - intros H. right. apply IH. exact H.
Qed.

Lemma map_get_None_keys k m : map_get k m = None <-> ~ In k (map_keys m).
Proof.
  induction m as [|[k' a'] m IH]; simpl.
  - tauto.
  - destruct (String.eqb_spec k' k) as [->|Hk].
    + split; [discriminate | intros H; exfalso; apply H; left; reflexivity].
    + rewrite IH. tauto.
Qed.

Lemma Forall_map_set (P : string * A -> Prop) k a m :
  Forall P m -> P (k, a) -> Forall P (map_set k a m).
Proof.
  intros Hm Hka. induction Hm as [|[k' a'] m Hx Hm IH]; simpl.
  - constructor; [exact Hka | constructor].
  - destruct (k' =? k)%string; constructor; assumption.
Qed.

Lemma Forall_map_delete (P : string * A -> Prop) k m :
  Forall P m -> Forall P (map_delete k m).
Proof.
  intros Hm. induction Hm as [|[k' a'] m Hx Hm IH]; simpl.
  - constructor.
  - destruct (k' =? k)%string; [assumption | constructor; assumption].
Qed.

Lemma map_has_true k m : map_has k m = true <-> exists a, map_get k m = Some a.
Proof.
  unfold map_has. destruct (map_get k m) as [a|].
  - split; [intros _; exists a; reflexivity | reflexivity].
  - split; [discriminate | intros [a Ha]; discriminate].
Qed.

Lemma map_has_set k k' a m :
  map_has k' m = true -> map_has k' (map_set k a m) = true.
Proof.
  intros H. apply map_has_true.
  destruct (String.eqb_spec k k') as [->|Hne].
  - exists a. apply map_get_set_same.
  - rewrite map_get_set_other by exact Hne. apply map_has_true. exact H.
Qed.

Lemma map_has_delete_other k k' m :
  k <> k' -> map_has k' (map_delete k m) = map_has k' m.
Proof.
  intros Hne. unfold map_has. rewrite map_get_delete_other by exact Hne.
  reflexivity.
Qed.
End JsMapFacts.

(** What passing the guard [!v || !players.has(v)] gives. *)
Lemma find_player_Some v m k p :
  find_player v m = Some (k, p) ->
  v = VStr k /\ k <> "" /\ map_get k m = Some p.
Proof.
  unfold find_player. destruct v as [| |b|n|str]; simpl.
  - discriminate.
  - discriminate.
  - destruct b; discriminate.
  - rewrite orb_true_r. discriminate.
  - destruct (String.eqb_spec str "") as [->|Hne]; simpl; [discriminate|].
    unfold map_has. destruct (map_get str m) as [p'|] eqn:E; simpl.
    + intros [= -> ->]. auto.
    + discriminate.
Qed.

Lemma find_player_VStr k m p :
  k <> "" -> map_get k m = Some p -> find_player (VStr k) m = Some (k, p).
Proof.
  intros Hk Hg. unfold find_player; simpl.
  apply String.eqb_neq in Hk. rewrite Hk. unfold map_has. rewrite Hg.
  reflexivity.
Qed.

(** [logEvent] touches nothing but the log. *)
Lemma logEvent_players e m s : players (logEvent e m s) = players s.
Proof. reflexivity. Qed.

Lemma logEvent_teams e m s : teams (logEvent e m s) = teams s.
Proof. reflexivity. Qed.

Lemma logEvent_flagHolder e m s : flagHolder (logEvent e m s) = flagHolder s.
Proof. reflexivity. Qed.

Lemma logEvent_nextPlayerNumber e m s :
  nextPlayerNumber (logEvent e m s) = nextPlayerNumber s.
Proof. reflexivity. Qed.

Lemma run_app rs1 rs2 s : run (rs1 ++ rs2)%list s = run rs2 (run rs1 s).
Proof.
  revert s. induction rs1 as [|[e r] rs1 IH]; intros s; simpl; auto.
Qed.

(** An invariant of [handle] holds in every reachable state. *)
Lemma run_invariant (P : state -> Prop) :
  (forall e r s, P s -> P (fst (handle e r s))) ->
  forall rs s, P s -> P (run rs s).
Proof.
  intros Hstep rs. induction rs as [|[e r] rs IH]; intros s Hs; simpl.
  - exact Hs.
  - apply IH. apply Hstep. exact Hs.
Qed.

(** ** Player ids *)

Lemma show_uint_no_hyphen d :
  has_char "-" (NilEmpty.string_of_uint d) = false.
Proof. induction d; simpl; auto. Qed.

Lemma show_N_no_hyphen n : has_char "-" (show_N n) = false.
Proof. apply show_uint_no_hyphen. Qed.

Lemma has_char_app c a b :
  has_char c (a ++ b) = has_char c a || has_char c b.
Proof.
  induction a as [|x a IH]; simpl; [reflexivity|].
  rewrite IH. apply orb_assoc.
Qed.

(** The text before the last hyphen is determined by the whole string. *)
Lemma before_last_hyphen a a' d d' :
  has_char "-" d = false -> has_char "-" d' = false ->
  a ++ "-" ++ d = a' ++ "-" ++ d' -> a = a'.
Proof.
  intros Hd Hd'. revert a'.
  induction a as [|x a IH]; intros [|x' a'] H; simpl in H.
  - reflexivity.
  - injection H as Hx Hrest. subst d.
    rewrite has_char_app in Hd. simpl in Hd.
    rewrite orb_true_r in Hd. discriminate.
  - injection H as Hx Hrest. subst d'.
    rewrite has_char_app in Hd'. simpl in Hd'.
    rewrite orb_true_r in Hd'. discriminate.
  - injection H as -> Hrest. f_equal. apply IH. exact Hrest.
Qed.

Lemma make_id_ip ip ip' t t' : make_id ip t = make_id ip' t' -> ip = ip'.
Proof.
  unfold make_id. apply before_last_hyphen; apply show_N_no_hyphen.
Qed.

(** Splits the run of a handler into its branches. *)
Ltac handler_cases :=
  repeat match goal with
    | |- context [match find_player ?v ?m with _ => _ end] =>
        let E := fresh "Efind" in
        destruct (find_player v m) as [[? ?]|] eqn:E
    | |- context [match map_get ?k ?m with _ => _ end] =>
        let E := fresh "Eget" in
        destruct (map_get k m) as [?|] eqn:E
    | |- context [match teams_lookup ?k with _ => _ end] =>
        let E := fresh "Eteam" in
        destruct (teams_lookup k) as [?|] eqn:E
    | |- context [match teams_lookup_value ?v with _ => _ end] =>
        let E := fresh "Eteam" in
        destruct (teams_lookup_value v) as [?|] eqn:E
    | |- context [if ?b then _ else _] =>
        let E := fresh "Eif" in
        destruct b eqn:E
    end.

Lemma ids_wf_step e r s : ids_wf s -> ids_wf (fst (handle e r s)).
Proof.
  unfold ids_wf. intros Hs.
  assert (Hkeep : forall k p p',
             map_get k (players s) = Some p ->
             Player.ip p' = Player.ip p -> id_of_ip (k, p')).
  { intros k p p' Hg Hip. apply map_get_In in Hg.
    rewrite Forall_forall in Hs. destruct (Hs _ Hg) as [t Ht].
    exists t. simpl in *. rewrite Hip. exact Ht. }
  assert (Hnew : forall ip t p, Player.ip p = ip -> id_of_ip (make_id ip t, p)).
  { intros ip t p <-. exists t. reflexivity. }
  destruct r; simpl;
    [ unfold getPlayers | unfold getEvents | unfold join; destruct code
    | unfold update | unfold remove | unfold capture | unfold obtain
    | unfold attack | unfold heal | unfold changeTeam; destruct team
    | unfold leave | unfold restart ];
    handler_cases;
    try match goal with
      | |- context [increment_flagsCaptured ?t ?m] =>
          destruct (increment_flagsCaptured t m)
      end;
    simpl; try exact Hs;
    handler_cases; simpl; try exact Hs;
    repeat match goal with
      | H : find_player _ _ = Some _ |- _ =>
          apply find_player_Some in H as (_ & _ & H)
      end;
    repeat first [ exact Hs | apply Forall_map_delete | apply Forall_map_set ];
    try (eapply Hkeep; [eassumption |]; try reflexivity);
    try (apply Hnew; reflexivity);
    try constructor.
  destruct kills, health; reflexivity.
Qed.

Lemma ids_wf_init : ids_wf init.
Proof. constructor. Qed.

Lemma ids_wf_reachable s : reachable s -> ids_wf s.
Proof.
  intros [rs <-]. apply run_invariant; [|exact ids_wf_init].
  intros e r s0. apply ids_wf_step.
Qed.

(** A join that passed the address check builds a key not yet in the
    map. *)
Lemma join_id_fresh s ip t :
  ids_wf s ->
  existsb (fun p => (Player.ip p =? ip)%string) (map_values (players s)) = false ->
  map_get (make_id ip t) (players s) = None.
Proof.
  unfold ids_wf. intros Hwf Hip.
  apply map_get_None_keys. intros Hin.
  unfold map_keys in Hin. apply in_map_iff in Hin as ([k p] & Hk & Hin).
  simpl in Hk. subst k.
  rewrite Forall_forall in Hwf. destruct (Hwf _ Hin) as [t' Ht']. simpl in Ht'.
  apply make_id_ip in Ht'.
  assert (Hex : existsb (fun p => (Player.ip p =? ip)%string)
                        (map_values (players s)) = true).
  { apply existsb_exists. exists p. split.
    - unfold map_values. apply in_map_iff. exists (make_id ip t, p). auto.
    - apply String.eqb_eq. symmetry. exact Ht'. }
  congruence.
Qed.

(** ** Join *)

Lemma Q_is_integer_Qeq q :
  Q_is_integer q = true <-> exists z, (q == inject_Z z)%Q.
Proof.
  unfold Q_is_integer, Qeq. destruct q as [n d]; simpl.
  rewrite Z.eqb_eq. split.
  - intros H. apply Z.mod_divide in H; [|lia]. destruct H as [z ->].
    exists z. ring.
  - intros [z Hz]. rewrite Z.mul_1_r in Hz. subst n. apply Z.mod_mul. lia.
Qed.

(** The guard of the join handler rejects exactly the values that are
    not a code. *)
Lemma join_guard_iff c :
  js_lt c num0 || js_lt (num_of_Z 99) c || negb (Number_isInteger c) = false
  <-> is_code (VNum c).
Proof.
  unfold is_code. split.
  - intros H. apply orb_false_elim in H as [H Hint].
    apply orb_false_elim in H as [Hlo Hhi].
    apply negb_false_iff in Hint.
    destruct c as [q| | |]; simpl in *; try discriminate.
    apply negb_false_iff in Hlo, Hhi. qbool.
    apply Q_is_integer_Qeq in Hint as [z Hz].
    exists q, z. split; [reflexivity|]. split; [exact Hz|].
    rewrite Hz in Hlo, Hhi. rewrite <- Zle_Qle in Hlo, Hhi. lia.
  - intros (q & z & [= ->] & Hz & Hlo & Hhi). simpl.
    assert (Hint : Q_is_integer q = true).
    { apply Q_is_integer_Qeq. exists z. exact Hz. }
    rewrite Hint. simpl.
    assert (H0 : Qle_bool (inject_Z 0) q = true).
    { qbool. rewrite Hz. rewrite <- Zle_Qle. exact Hlo. }
    assert (H1 : Qle_bool q (inject_Z 99) = true).
    { qbool. rewrite Hz. rewrite <- Zle_Qle. exact Hhi. }
    rewrite H0, H1. reflexivity.
Qed.

Lemma code_in_use_iff c s :
  existsb (fun p => js_eq (Player.code p) c) (map_values (players s)) = true
  <-> code_in_use (VNum c) s.
Proof.
  rewrite existsb_exists. unfold code_in_use. split.
  - intros (p & Hin & Heq). exists p, c. auto.
  - intros (p & n & Hin & [= <-] & Heq). exists p. auto.
Qed.

Lemma ip_in_use_iff ip s :
  existsb (fun p => (Player.ip p =? ip)%string) (map_values (players s)) = true
  <-> ip_in_use ip s.
Proof.
  rewrite existsb_exists. unfold ip_in_use. split.
  - intros (p & Hin & Heq). exists p. apply String.eqb_eq in Heq. auto.
  - intros (p & Hin & Heq). exists p. split; [exact Hin|].
    apply String.eqb_eq. exact Heq.
Qed.

Lemma join_cases e code s : join_outcome e code s (join e code s).
Proof.
  unfold join.
  destruct code as [| |b|c|str];
    try (apply join_invalid; [intros (q & z & H & _); discriminate | reflexivity]).
  destruct (js_lt c num0 || js_lt (num_of_Z 99) c || negb (Number_isInteger c))
    eqn:Eguard.
  { apply join_invalid; [|reflexivity].
    intros H. apply join_guard_iff in H. congruence. }
  apply join_guard_iff in Eguard.
  destruct (existsb (fun p => js_eq (Player.code p) c) (map_values (players s)))
    eqn:Ecode.
  { apply join_code_conflict; [exact Eguard | | reflexivity].
    apply code_in_use_iff. exact Ecode. }
  assert (Hcode : ~ code_in_use (VNum c) s).
  { intros H. apply code_in_use_iff in H. congruence. }
  destruct (existsb (fun p => (Player.ip p =? clientIP e)%string)
                    (map_values (players s))) eqn:Eip.
  { apply join_ip_conflict; [exact Eguard | exact Hcode | | reflexivity].
    apply ip_in_use_iff. exact Eip. }
  assert (Hip : ~ ip_in_use (clientIP e) s).
  { intros H. apply ip_in_use_iff in H. congruence. }
  apply (join_success e (VNum c) s c
           (Player.mk (make_id (clientIP e) (now e)) (nextPlayerNumber s) c
                      ("Player " ++ show_Z (num_floor c)) (clientIP e)
                      (assignTeam s) num0 num100 (now e)));
    try reflexivity; assumption.
Qed.

(** C5.  [Join(code, identitySource)] answers 400 whenever [code] is not
    an integer in [0,99]; for a well-formed code it answers 409 whenever
    the code or the address is already used by an active player; every
    join that does not answer 200 leaves the match state as it was; and a
    join that answers 200 appends exactly one player, under a key that
    was not in use, with [kills = 0] and [health = 100], and moves the
    next-number counter by one. *)
Theorem C5_join_validation e code s s' r :
  reachable s ->
  join e code s = (s', r) ->
  (~ is_code code -> status r = 400 /\ s' = s) /\
  (is_code code -> code_in_use code s \/ ip_in_use (clientIP e) s ->
   status r = 409 /\ s' = s) /\
  (status r <> 200 -> s' = s) /\
  (status r = 200 ->
   exists p,
     content r = BJoin (Player.id p) p /\
     map_get (Player.id p) (players s) = None /\
     players s' = (players s ++ [(Player.id p, p)])%list /\
     Player.kills p = num0 /\ Player.health p = num100 /\
     nextPlayerNumber s' = nextPlayerNumber s + 1).
Proof.
  intros Hreach Hjoin.
  pose proof (join_cases e code s) as Hcases. rewrite Hjoin in Hcases.
  inversion Hcases as
    [r0 Hbad Hst | r0 Hok Huse Hst | r0 Hok Hfree Huse Hst
    | c p s0 Hc Hok Hfree Hipfree Hp Hpl Hnext Hteams Hholder Hev];
    subst.
  - repeat split; auto; try tauto; intros H; rewrite Hst in H; discriminate.
  - repeat split; auto; try tauto; intros H; rewrite Hst in H; discriminate.
  - repeat split; auto; try tauto; intros H; rewrite Hst in H; discriminate.
  - assert (Hfresh : map_get (make_id (clientIP e) (now e)) (players s) = None).
    { apply join_id_fresh; [apply ids_wf_reachable; exact Hreach|].
      destruct (existsb _ _) eqn:E; [|reflexivity].
      apply ip_in_use_iff in E. contradiction. }
    split; [tauto|]. split; [tauto|]. split.
    + simpl. intros H. exfalso. apply H. reflexivity.
    + intros _. eexists. split; [reflexivity|]. simpl.
      split; [exact Hfresh|]. split.
      * rewrite Hpl. simpl. apply map_set_fresh. exact Hfresh.
      * auto.
Qed.

(** A first join succeeds, and a second join with the same code from
    another address is refused with 409. *)
Lemma C5_join_validation_witness :
  let e1 := mkEnv 1000 "10.0.0.1" in
  let e2 := mkEnv 2000 "10.0.0.2" in
  let seven := VNum (num_of_Z 7) in
  let s1 := fst (join e1 seven init) in
  (exists p, content (snd (join e1 seven init)) = BJoin (Player.id p) p /\
             players s1 = [(Player.id p, p)] /\
             Player.kills p = num0 /\ Player.health p = num100) /\
  status (snd (join e2 seven s1)) = 409 /\ fst (join e2 seven s1) = s1.
Proof.
  intros e1 e2 seven s1.
  assert (Hcode : is_code seven).
  { exists (inject_Z 7), 7. repeat split; try reflexivity; lia. }
  split.
  - destruct (C5_join_validation e1 seven init s1 (snd (join e1 seven init)))
      as (_ & _ & _ & Hok).
    + exists []. reflexivity.
    + reflexivity.
    + destruct (Hok eq_refl) as (p & Hr & _ & Hpl & Hk & Hh & _).
      exists p. auto.
  - destruct (C5_join_validation e2 seven s1 (fst (join e2 seven s1))
                (snd (join e2 seven s1)))
      as (_ & Hconflict & _ & _).
    + exists [(e1, Join seven)]. reflexivity.
    + reflexivity.
    + destruct Hconflict as [Hst Hs]; [exact Hcode | | auto].
      left. eexists. exists (num_of_Z 7).
      split; [left; reflexivity|]. split; reflexivity.
Defined.

(** ** Team balancing *)

Lemma assignTeam_counts s :
  assignTeam s =
  if (team_count "blue" s <=? team_count "red" s)%nat then "blue" else "red".
Proof. reflexivity. Qed.

Lemma team_count_append t s s' k p :
  players s' = (players s ++ [(k, p)])%list ->
  team_count t s' =
  (team_count t s + if (Player.team p =? t)%string then 1 else 0)%nat.
Proof.
  unfold team_count, map_values. intros ->.
  rewrite map_app, filter_app, length_app. simpl.
  destruct (Player.team p =? t)%string; reflexivity.
Qed.

(** What a join does to the two head counts. *)
Lemma join_counts e code s :
  ids_wf s ->
  let s' := fst (join e code s) in
  (s' = s) \/
  (team_count "blue" s <= team_count "red" s /\
   team_count "blue" s' = S (team_count "blue" s) /\
   team_count "red" s' = team_count "red" s)%nat \/
  (team_count "red" s < team_count "blue" s /\
   team_count "blue" s' = team_count "blue" s /\
   team_count "red" s' = S (team_count "red" s))%nat.
Proof.
  intros Hwf s'. subst s'.
  destruct (join_cases e code s)
    as [r | r | r
       | c p s0 Hc Hok Hfree Hipfree Hp Hpl Hnext Hteams Hholder Hev];
    simpl; auto.
  right.
  assert (Hfresh : map_get (Player.id p) (players s) = None).
  { subst p. simpl. apply join_id_fresh; [exact Hwf|].
    destruct (existsb _ _) eqn:E; [|reflexivity].
    apply ip_in_use_iff in E. contradiction. }
  rewrite (map_set_fresh _ _ _ Hfresh) in Hpl.
  rewrite (team_count_append "blue" s s0 _ _ Hpl).
  rewrite (team_count_append "red" s s0 _ _ Hpl).
  assert (Hteam : Player.team p = assignTeam s) by (subst p; reflexivity).
  rewrite Hteam, assignTeam_counts.
  destruct (team_count "blue" s <=? team_count "red" s)%nat eqn:E.
  - left. apply Nat.leb_le in E. simpl. lia.
  - right. apply Nat.leb_gt in E. simpl. lia.
Qed.

Lemma join_run_balanced rs s :
  Forall is_join rs -> ids_wf s ->
  (team_count "red" s <= team_count "blue" s <= S (team_count "red" s))%nat ->
  let s' := run rs s in
  (team_count "red" s' <= team_count "blue" s' <= S (team_count "red" s'))%nat.
Proof.
  intros Hrs. revert s.
  induction Hrs as [|[e r] rs [code Hr] Hrs IH]; intros s Hwf Hbal; simpl.
  - exact Hbal.
  - simpl in Hr. subst r. simpl. apply IH.
    + apply (ids_wf_step e (Join code)). exact Hwf.
    + destruct (join_counts e code s Hwf) as [-> | [H | H]]; lia.
Qed.

(** C6.  A successful join puts the new player on blue when blue has at
    most as many active players as red (so also on a tie) and on red
    when red has strictly fewer; and after any sequence of joins from
    the initial empty match the two head counts differ by at most 1. *)
Theorem C6_team_balance :
  (forall e code s s' id p,
      join e code s = (s', ok (BJoin id p)) ->
      ((team_count "blue" s <= team_count "red" s)%nat ->
       Player.team p = "blue") /\
      ((team_count "red" s < team_count "blue" s)%nat ->
       Player.team p = "red")) /\
  (forall rs,
      Forall is_join rs ->
      Z.abs (Z.of_nat (team_count "blue" (run rs init))
             - Z.of_nat (team_count "red" (run rs init))) <= 1).
Proof.
  split.
  - intros e code s s' id p Hjoin.
    pose proof (join_cases e code s) as Hcases. rewrite Hjoin in Hcases.
    inversion Hcases as
      [r0 Hbad Hst | r0 Hok Huse Hst | r0 Hok Hfree Huse Hst
      | c p0 s0 Hc Hok Hfree Hipfree Hp Hpl Hnext Hteams Hholder Hev];
      try discriminate.
    subst p. simpl. rewrite assignTeam_counts.
    split; intros Hcmp.
    + apply Nat.leb_le in Hcmp. rewrite Hcmp. reflexivity.
    + apply Nat.leb_gt in Hcmp. rewrite Hcmp. reflexivity.
  - intros rs Hrs.
    assert (Hinit : (team_count "red" init <= team_count "blue" init
                     <= S (team_count "red" init))%nat).
    { unfold team_count; simpl. lia. }
    pose proof (join_run_balanced rs init Hrs ids_wf_init Hinit) as H.
    simpl in H. lia.
Qed.

(** Three joins from the empty match: blue, red, blue. *)
Lemma C6_team_balance_witness :
  let e1 := mkEnv 1000 "10.0.0.1" in
  let e2 := mkEnv 2000 "10.0.0.2" in
  let e3 := mkEnv 3000 "10.0.0.3" in
  let rs := [(e1, Join (VNum (num_of_Z 7))); (e2, Join (VNum (num_of_Z 3)));
             (e3, Join (VNum (num_of_Z 9)))] in
  team_count "blue" (run rs init) = 2%nat /\
  team_count "red" (run rs init) = 1%nat /\
  Z.abs (Z.of_nat (team_count "blue" (run rs init))
         - Z.of_nat (team_count "red" (run rs init))) <= 1.
Proof.
  intros e1 e2 e3 rs.
  split; [reflexivity|]. split; [reflexivity|].
  apply (proj2 C6_team_balance rs).
  repeat constructor; eexists; reflexivity.
Defined.

(** ** The event log *)

Lemma logEvent_events e m s :
  events (logEvent e m s) =
  let pushed := (events s ++ [mkEvent (now e) m])%list in
  if 2000 <? Z.of_nat (List.length pushed) then tl pushed else pushed.
Proof. reflexivity. Qed.

Lemma logEvent_bounded e m s : log_bounded s -> log_bounded (logEvent e m s).
Proof.
  unfold log_bounded. rewrite logEvent_events. cbv zeta.
  intros H.
  destruct (Z.ltb_spec 2000
              (Z.of_nat (List.length (events s ++ [mkEvent (now e) m])%list)))
    as [Hlt|Hge].
  - rewrite length_app in Hlt. simpl in Hlt.
    destruct (events s) as [|x l]; simpl in *; [lia|].
    rewrite length_app. simpl. lia.
  - exact Hge.
Qed.

Lemma log_bounded_step e r s : log_bounded s -> log_bounded (fst (handle e r s)).
Proof.
  intros Hs.
  destruct r; simpl;
    [ unfold getPlayers | unfold getEvents | unfold join; destruct code
    | unfold update | unfold remove | unfold capture | unfold obtain
    | unfold attack | unfold heal | unfold changeTeam; destruct team
    | unfold leave | unfold restart ];
    handler_cases;
    try match goal with
      | |- context [increment_flagsCaptured ?t ?m] =>
          destruct (increment_flagsCaptured t m)
      end;
    cbn [fst]; try exact Hs;
    handler_cases; cbn [fst]; try exact Hs;
    repeat apply logEvent_bounded; try exact Hs.
  unfold log_bounded. simpl. lia.
Qed.

Lemma log_bounded_reachable rs : log_bounded (run rs init).
Proof.
  apply run_invariant; [intros e r s; apply log_bounded_step|].
  unfold log_bounded. simpl. lia.
Qed.

(** C7.  In every state reached from the initial one the event log has at
    most 2000 entries.  Appending to a log of fewer than 2000 entries
    puts the new entry last and keeps every older one; appending to a
    full log drops exactly the oldest entry, keeps the others in their
    order and puts the new entry last.  [ListEvents] answers with the
    whole retained log, oldest first. *)
Theorem C7_event_log_bounded rs e m :
  let s := run rs init in
  let entry := mkEvent (now e) m in
  Z.of_nat (List.length (events s)) <= 2000 /\
  (Z.of_nat (List.length (events s)) < 2000 ->
   events (logEvent e m s) = (events s ++ [entry])%list) /\
  (Z.of_nat (List.length (events s)) = 2000 ->
   events (logEvent e m s) = (tl (events s) ++ [entry])%list) /\
  getEvents s = (s, ok (BEvents (events s))).
Proof.
  intros s entry.
  split; [apply log_bounded_reachable|].
  split; [|split; [|reflexivity]].
  - intros Hlt. rewrite logEvent_events. cbv zeta.
    rewrite length_app. simpl.
    destruct (Z.ltb_spec 2000 (Z.of_nat (List.length (events s) + 1)));
      [lia | reflexivity].
  - intros Hfull. rewrite logEvent_events. cbv zeta.
    rewrite length_app. simpl.
    destruct (Z.ltb_spec 2000 (Z.of_nat (List.length (events s) + 1)));
      [|lia].
    destruct (events s) as [|x l]; [simpl in Hfull; lia | reflexivity].
Qed.

(** A log filled by one join and 1999 flag pick-ups; the next entry
    evicts the join line. *)
Lemma C7_event_log_bounded_witness :
  let e := mkEnv 1000 "10.0.0.1" in
  let rs := (e, Join (VNum (num_of_Z 7)))
              :: repeat (e, ObtainFlag (VStr "10.0.0.1-1000")) 1999 in
  let s := run rs init in
  Z.of_nat (List.length (events s)) = 2000 /\
  events (logEvent e MsgRestart s)
  = (tl (events s) ++ [mkEvent 1000 MsgRestart])%list /\
  Z.of_nat (List.length (events (logEvent e MsgRestart s))) = 2000.
Proof.
  intros e rs s.
  assert (Hlen : Z.of_nat (List.length (events s)) = 2000)
    by (vm_compute; reflexivity).
  destruct (C7_event_log_bounded rs e MsgRestart) as (_ & _ & Hfull & _).
  split; [exact Hlen|]. split; [exact (Hfull Hlen)|].
  vm_compute; reflexivity.
Defined.

(** ** Restart *)

(** C8.  After [Restart], from any state: no player is left, both capture
    counters are 0, nobody holds the flag, the next display number is 4,
    and the log holds exactly one entry, the restart line, written after
    the log was emptied. *)
Theorem C8_restart_resets e s :
  let s' := fst (handle e Restart s) in
  players s' = [] /\
  Team.flagsCaptured (blue (teams s')) = 0 /\
  Team.flagsCaptured (red (teams s')) = 0 /\
  flagHolder s' = None /\
  nextPlayerNumber s' = 4 /\
  events s' = [mkEvent (now e) MsgRestart].
Proof. repeat split; reflexivity. Qed.

(** ** Display numbers *)

(** Outside [Restart] the counter never goes down. *)
Lemma nextPlayerNumber_step e r s :
  r <> Restart -> nextPlayerNumber s <= nextPlayerNumber (fst (handle e r s)).
Proof.
  intros Hr.
  destruct r; simpl;
    [ unfold getPlayers | unfold getEvents | unfold join; destruct code
    | unfold update | unfold remove | unfold capture | unfold obtain
    | unfold attack | unfold heal | unfold changeTeam; destruct team
    | unfold leave | congruence ];
    handler_cases;
    try match goal with
      | |- context [increment_flagsCaptured ?t ?m] =>
          destruct (increment_flagsCaptured t m)
      end;
    cbn [fst]; try apply Z.le_refl;
    handler_cases; cbn [fst]; try apply Z.le_refl.
  simpl. lia.
Qed.

Lemma nextPlayerNumber_run rs s :
  Forall not_restart rs -> nextPlayerNumber s <= nextPlayerNumber (run rs s).
Proof.
  intros Hrs. revert s.
  induction Hrs as [|[e r] rs Hr Hrs IH]; intros s; simpl.
  - apply Z.le_refl.
  - eapply Z.le_trans; [|apply IH].
    apply nextPlayerNumber_step. exact Hr.
Qed.

(** A successful join hands out the counter and moves it by one. *)
Lemma join_number e code s s' id p :
  join e code s = (s', ok (BJoin id p)) ->
  Player.number p = nextPlayerNumber s /\
  nextPlayerNumber s' = nextPlayerNumber s + 1.
Proof.
  intros Hjoin.
  pose proof (join_cases e code s) as Hcases. rewrite Hjoin in Hcases.
  inversion Hcases as
    [r0 Hbad Hst | r0 Hok Huse Hst | r0 Hok Hfree Huse Hst
    | c p0 s0 Hc Hok Hfree Hipfree Hp Hpl Hnext Hteams Hholder Hev];
    try discriminate.
  subst p. simpl. auto.
Qed.

(** C9, as the code has it.  The counter starts at 4, and a successful
    join receives the current counter value.  Of two successful joins
    with no [Restart] between them the later one receives a strictly
    greater number. *)
Theorem C9_numbers_increase_until_restart
        e1 c1 s s1 id1 p1 rs e2 c2 s2 id2 p2 :
  join e1 c1 s = (s1, ok (BJoin id1 p1)) ->
  Forall not_restart rs ->
  join e2 c2 (run rs s1) = (s2, ok (BJoin id2 p2)) ->
  nextPlayerNumber init = 4 /\
  Player.number p1 = nextPlayerNumber s /\
  Player.number p1 < Player.number p2.
Proof.
  intros H1 Hrs H2.
  apply join_number in H1 as [Hn1 Hs1].
  apply join_number in H2 as [Hn2 _].
  pose proof (nextPlayerNumber_run rs s1 Hrs) as Hmono.
  split; [reflexivity|]. split; [exact Hn1|]. lia.
Qed.

(** Two joins around an attack: numbers 4 and 5. *)
Lemma C9_numbers_increase_until_restart_witness :
  let e1 := mkEnv 1000 "10.0.0.1" in
  let e2 := mkEnv 2000 "10.0.0.2" in
  let j1 := join e1 (VNum (num_of_Z 7)) init in
  let rs := [(e2, ObtainFlag (VStr "10.0.0.1-1000"))] in
  let j2 := join e2 (VNum (num_of_Z 3)) (run rs (fst j1)) in
  exists p1 p2,
    snd j1 = ok (BJoin (Player.id p1) p1) /\
    snd j2 = ok (BJoin (Player.id p2) p2) /\
    Player.number p1 = 4 /\ Player.number p2 = 5 /\
    Player.number p1 < Player.number p2.
Proof.
  intros e1 e2 j1 rs j2.
  exists (Player.mk "10.0.0.1-1000" 4 (num_of_Z 7) "Player 7" "10.0.0.1"
                    "blue" num0 num100 1000).
  exists (Player.mk "10.0.0.2-2000" 5 (num_of_Z 3) "Player 3" "10.0.0.2"
                    "red" num0 num100 2000).
  split; [reflexivity|]. split; [reflexivity|].
  split; [reflexivity|]. split; [reflexivity|].
  refine (proj2 (proj2 (C9_numbers_increase_until_restart
                          e1 (VNum (num_of_Z 7)) init (fst j1) _ _ rs
                          e2 (VNum (num_of_Z 3)) (fst j2) _ _ _ _ _))).
  - reflexivity.
  - repeat constructor. unfold not_restart; simpl. discriminate.
  - reflexivity.
Defined.

(** C9 as stated fails across a restart: the player who joins after the
    restart receives number 4 again, like the player who joined before. *)
Lemma C9_counterexample :
  let e1 := mkEnv 1000 "10.0.0.1" in
  let e2 := mkEnv 2000 "10.0.0.2" in
  let e3 := mkEnv 3000 "10.0.0.3" in
  let j1 := handle e1 (Join (VNum (num_of_Z 7))) init in
  let s2 := fst (handle e2 Restart (fst j1)) in
  let j2 := handle e3 (Join (VNum (num_of_Z 3))) s2 in
  exists p1 p2,
    snd j1 = ok (BJoin (Player.id p1) p1) /\
    snd j2 = ok (BJoin (Player.id p2) p2) /\
    ~ (Player.number p1 < Player.number p2).
Proof.
  intros e1 e2 e3 j1 s2 j2.
  exists (Player.mk "10.0.0.1-1000" 4 (num_of_Z 7) "Player 7" "10.0.0.1"
                    "blue" num0 num100 1000).
  exists (Player.mk "10.0.0.3-3000" 4 (num_of_Z 3) "Player 3" "10.0.0.3"
                    "blue" num0 num100 3000).
  split; [reflexivity|]. split; [reflexivity|].
  simpl. lia.
Qed.

(** ** The two teams *)

Lemma same_labels_refl t : same_labels t t.
Proof. repeat split. Qed.

Lemma increment_same_labels t m :
  same_labels t (fst (increment_flagsCaptured t m)).
Proof. destruct m; repeat split. Qed.

(** C10, as the code has it.  No request changes the name or the colour
    of a team.  A request other than [CaptureFlag] and [Restart] leaves
    the whole [teams] object, hence both capture counters, as it was; so
    does every request that is not answered with 200; [Restart] sets both
    counters to 0. *)
Theorem C10_teams_frame e r s :
  let s' := fst (handle e r s) in
  let resp := snd (handle e r s) in
  same_labels (teams s) (teams s') /\
  (~ is_capture r -> r <> Restart -> teams s' = teams s) /\
  (status resp <> 200 -> teams s' = teams s) /\
  (r = Restart ->
   Team.flagsCaptured (blue (teams s')) = 0 /\
   Team.flagsCaptured (red (teams s')) = 0).
Proof.
  intros s' resp. subst s' resp.
  destruct r; simpl;
    [ unfold getPlayers | unfold getEvents | unfold join; destruct code
    | unfold update | unfold remove | unfold capture | unfold obtain
    | unfold attack | unfold heal | unfold changeTeam; destruct team
    | unfold leave | unfold restart ];
    handler_cases;
    try match goal with
      | |- context [increment_flagsCaptured ?t ?m] =>
          pose proof (increment_same_labels t m);
          destruct (increment_flagsCaptured t m)
      end;
    cbn [fst snd]; handler_cases; cbn [fst snd];
    (split; [first [apply same_labels_refl | assumption | repeat split] |]);
    (split; [intros Hc Hr; try reflexivity;
             try (exfalso; apply Hc; eexists; reflexivity);
             try congruence |]);
    (split; [intros Hst; try reflexivity; try (exfalso; apply Hst; reflexivity)
            | intros Hr; try discriminate; split; reflexivity]).
Qed.

(** An attack leaves [teams] alone, and a capture by a player who does
    not hold the flag is refused and leaves it alone too. *)
Lemma C10_teams_frame_witness :
  let e1 := mkEnv 1000 "10.0.0.1" in
  let e2 := mkEnv 2000 "10.0.0.2" in
  let s := run [(e1, Join (VNum (num_of_Z 7))); (e2, Join (VNum (num_of_Z 3)));
                (e1, ObtainFlag (VStr "10.0.0.1-1000"));
                (e1, CaptureFlag (VStr "10.0.0.1-1000"))] init in
  let attack := Attack (VStr "10.0.0.1-1000") (VStr "10.0.0.2-2000") VUndefined in
  let capture := CaptureFlag (VStr "10.0.0.2-2000") in
  Team.flagsCaptured (blue (teams s)) = 1 /\
  teams (fst (handle e1 attack s)) = teams s /\
  teams (fst (handle e2 capture s)) = teams s.
Proof.
  intros e1 e2 s attack capture.
  split; [reflexivity|]. split.
  - destruct (C10_teams_frame e1 attack s) as (_ & Hother & _ & _).
    apply Hother.
    + intros [playerId H]. discriminate.
    + discriminate.
  - destruct (C10_teams_frame e2 capture s) as (_ & _ & Hfail & _).
    apply Hfail. vm_compute. discriminate.
Defined.

(** C10 as stated fails: [Restart], which is not a capture, takes blue's
    counter from 1 back to 0. *)
Lemma C10_counterexample :
  let e1 := mkEnv 1000 "10.0.0.1" in
  let s := run [(e1, Join (VNum (num_of_Z 7)));
                (e1, ObtainFlag (VStr "10.0.0.1-1000"));
                (e1, CaptureFlag (VStr "10.0.0.1-1000"))] init in
  Team.flagsCaptured (blue (teams s)) = 1 /\
  Team.flagsCaptured (blue (teams (fst (handle e1 Restart s)))) = 0.
Proof. split; reflexivity. Qed.

(** ** The flag holder *)

Lemma holds_false h k : holds (Some h) k = false -> k <> h.
Proof.
  simpl. intros H Heq. subst k. rewrite String.eqb_refl in H. discriminate.
Qed.

(** Every handler but the legacy leave endpoint keeps the holder among
    the active players. *)
Lemma holder_active_step e r s :
  ~ is_leave r -> holder_active s -> holder_active (fst (handle e r s)).
Proof.
  intros Hr Hs.
  destruct r; simpl;
    [ unfold getPlayers | unfold getEvents | unfold join; destruct code
    | unfold update | unfold remove | unfold capture | unfold obtain
    | unfold attack | unfold heal | unfold changeTeam; destruct team
    | exfalso; apply Hr; eexists; reflexivity | unfold restart ];
    handler_cases;
    try match goal with
      | |- context [increment_flagsCaptured ?t ?m] =>
          destruct (increment_flagsCaptured t m)
      end;
    cbn [fst]; try exact Hs;
    handler_cases; cbn [fst]; try exact Hs;
    repeat match goal with
      | H : find_player _ _ = Some _ |- _ =>
          apply find_player_Some in H as (_ & _ & H)
      end;
    unfold holder_active in *; simpl; try exact I;
    try (destruct (flagHolder s) as [h|] eqn:Eh; [|exact I]);
    repeat apply map_has_set; try exact Hs.
  - (* DELETE of a player who does not hold the flag *)
    rewrite map_has_delete_other; [exact Hs|].
    apply holds_false. exact Eif.
  - (* obtain *)
    apply map_has_true. eexists. eassumption.
Qed.

Lemma holder_active_run rs :
  Forall (fun er => ~ is_leave (snd er)) rs -> holder_active (run rs init).
Proof.
  intros Hrs.
  assert (H : forall s, holder_active s -> holder_active (run rs s)).
  { induction Hrs as [|[e r] rs Hr Hrs IH]; intros s Hs; simpl.
    - exact Hs.
    - apply IH. apply holder_active_step; assumption. }
  apply H. exact I.
Qed.

(** C1, evaluated where the code departs from it.  A player joins, picks
    up the flag and leaves through POST /api/player/leave: [flagHolder]
    still names the player, who is no longer in [players].  The same run
    ending in DELETE /api/player/:id clears the holder, and so does an
    attack that takes the holder to zero health. *)
Theorem C1_leave_keeps_flagHolder :
  let e1 := mkEnv 1000 "10.0.0.1" in
  let e2 := mkEnv 2000 "10.0.0.2" in
  let p1 := "10.0.0.1-1000" in
  let p2 := "10.0.0.2-2000" in
  let held := run [(e1, Join (VNum (num_of_Z 7)));
                   (e2, Join (VNum (num_of_Z 3)));
                   (e1, ObtainFlag (VStr p1))] init in
  let left := fst (handle e1 (Leave (VStr p1)) held) in
  flagHolder held = Some p1 /\
  status (snd (handle e1 (Leave (VStr p1)) held)) = 200 /\
  flagHolder left = Some p1 /\
  map_has p1 (players left) = false /\
  ~ holder_active left /\
  flagHolder (fst (handle e1 (Remove p1) held)) = None /\
  flagHolder (fst (handle e2 (Attack (VStr p2) (VStr p1)
                                     (VNum (num_of_Z 100))) held)) = None.
Proof.
  repeat split; try reflexivity.
  unfold holder_active. vm_compute. discriminate.
Qed.

(** ** Capturing the flag *)

(** A capture by an active player whose team is one of the two own
    properties of [teams]: it is accepted exactly when the player holds
    the flag; a refusal is a 400 that changes nothing, and an accepted
    capture adds 1 to that team's counter only and clears the holder. *)
Lemma capture_own_team e k p s :
  k <> "" -> map_get k (players s) = Some p ->
  Player.team p = "blue" \/ Player.team p = "red" ->
  let s' := fst (capture e (VStr k) s) in
  let resp := snd (capture e (VStr k) s) in
  (status resp = 200 <-> flagHolder s = Some k) /\
  (flagHolder s <> Some k -> status resp = 400 /\ s' = s) /\
  (flagHolder s = Some k ->
   flagHolder s' = None /\ players s' = players s /\
   (Player.team p = "blue" ->
    Team.flagsCaptured (blue (teams s'))
    = Team.flagsCaptured (blue (teams s)) + 1 /\
    red (teams s') = red (teams s)) /\
   (Player.team p = "red" ->
    Team.flagsCaptured (red (teams s'))
    = Team.flagsCaptured (red (teams s)) + 1 /\
    blue (teams s') = blue (teams s))).
Proof.
  intros Hk Hget Hteam s' resp. subst s' resp.
  unfold capture. rewrite (find_player_VStr k _ p Hk Hget).
  assert (Hholds : holds (flagHolder s) k = true <-> flagHolder s = Some k).
  { unfold holds. destruct (flagHolder s) as [h|].
    - rewrite String.eqb_eq. split; [intros ->; reflexivity | congruence].
    - split; discriminate. }
  assert (Hno : holds (flagHolder s) k = false -> flagHolder s <> Some k).
  { intros E H. apply Hholds in H. congruence. }
  destruct Hteam as [Ht | Ht]; rewrite Ht; simpl;
    destruct (holds (flagHolder s) k) eqn:E; simpl.
  - pose proof (proj1 Hholds eq_refl) as Hh.
    split; [tauto|]. split; [tauto|]. intros _.
    repeat split; discriminate.
  - pose proof (Hno eq_refl) as Hh.
    split; [split; [discriminate | tauto] |]. split; [auto | tauto].
  - pose proof (proj1 Hholds eq_refl) as Hh.
    split; [tauto|]. split; [tauto|]. intros _.
    repeat split; discriminate.
  - pose proof (Hno eq_refl) as Hh.
    split; [split; [discriminate | tauto] |]. split; [auto | tauto].
Qed.

(** C2, evaluated where the code departs from it.  [ChangeTeam] accepts
    the key "constructor", which [teams] inherits from
    [Object.prototype]; the player then picks up the flag and captures
    it.  The capture is answered with 200 and clears the holder, but
    neither team's counter moves: [teams] is unchanged and the response
    reports [NaN] captures. *)
Theorem C2_capture_with_inherited_team :
  let e1 := mkEnv 1000 "10.0.0.1" in
  let p1 := "10.0.0.1-1000" in
  let joined := run [(e1, Join (VNum (num_of_Z 7)))] init in
  let moved := handle e1 (ChangeTeam (VStr p1) (VStr "constructor")) joined in
  let held := fst (handle e1 (ObtainFlag (VStr p1)) (fst moved)) in
  let out := handle e1 (CaptureFlag (VStr p1)) held in
  status (snd moved) = 200 /\
  option_map Player.team (map_get p1 (players held)) = Some "constructor" /\
  flagHolder held = Some p1 /\
  snd out = ok (BCapture "constructor" NaN None) /\
  flagHolder (fst out) = None /\
  teams (fst out) = teams held /\
  Team.flagsCaptured (blue (teams (fst out))) = 0 /\
  Team.flagsCaptured (red (teams (fst out))) = 0.
Proof. repeat split; reflexivity. Qed.

(** ** Health *)

Section HealthInvariant.
Variable P : jsnum -> Prop.
Variable admissible : request -> Prop.
Hypothesis P_full : P num100.
Hypothesis P_update :
  forall playerId kills n,
    admissible (UpdateStats playerId kills (VNum n)) ->
    P (Math_max num0 (Math_min num100 n)).
Hypothesis P_attack :
  forall attackerId targetId damage h,
    admissible (Attack attackerId targetId damage) -> P h ->
    P (Math_max num0 (js_sub h (amount_or 10 damage))).
Hypothesis P_heal :
  forall healerId targetId amount h,
    admissible (Heal healerId targetId amount) -> P h ->
    P (Math_max num0 (Math_min num100 (js_add h (amount_or 20 amount)))).

Lemma all_health_step e r s :
  admissible r -> all_health P s -> all_health P (fst (handle e r s)).
Proof.
  unfold all_health. intros Hr Hs.
  assert (Hold : forall k p, map_get k (players s) = Some p ->
                             P (Player.health p)).
  { intros k p Hg. apply map_get_In in Hg.
    rewrite Forall_forall in Hs. apply (Hs _ Hg). }
  destruct r; simpl;
    [ unfold getPlayers | unfold getEvents | unfold join; destruct code
    | unfold update | unfold remove | unfold capture | unfold obtain
    | unfold attack | unfold heal | unfold changeTeam; destruct team
    | unfold leave | unfold restart ];
    handler_cases;
    try match goal with
      | |- context [increment_flagsCaptured ?t ?m] =>
          destruct (increment_flagsCaptured t m)
      end;
    cbn [fst]; try exact Hs;
    handler_cases; cbn [fst]; try exact Hs;
    repeat match goal with
      | H : find_player _ _ = Some _ |- _ =>
          apply find_player_Some in H as (_ & _ & H)
      end;
    cbn [players with_players with_flagHolder with_teams with_events
         with_nextPlayerNumber logEvent];
    repeat first [ exact Hs | apply Forall_map_delete | apply Forall_map_set ];
    cbn [fst snd Player.health Player.with_health Player.with_kills
         Player.with_team];
    try exact P_full; try (eapply Hold; eassumption);
    try (eapply P_attack; [exact Hr | eapply Hold; eassumption]);
    try (eapply P_heal; [exact Hr | eapply Hold; eassumption]);
    try constructor.
  destruct health;
    cbn [Player.health Player.with_health];
    try (eapply P_update; exact Hr);
    destruct kills; cbn [Player.health Player.with_kills];
    eapply Hold; eassumption.
Qed.

Lemma all_health_run rs s :
  Forall (fun er => admissible (snd er)) rs ->
  all_health P s -> all_health P (run rs s).
Proof.
  intros Hrs. revert s.
  induction Hrs as [|[e r] rs Hr Hrs IH]; intros s Hs; simpl.
  - exact Hs.
  - apply IH. apply all_health_step; assumption.
Qed.
End HealthInvariant.

Lemma no_NaN_amount dflt v :
  (0 <= dflt)%Z -> Some v <> Some (VNum NaN) ->
  amount_or dflt v = PosInf \/
  exists q, amount_or dflt v = Finite q /\ (0 <= q)%Q.
Proof.
  intros Hd Hv. apply amount_or_nonneg; [exact Hd | congruence].
Qed.

Lemma integral_not_NaN r : integral_argument r -> no_NaN_argument r.
Proof.
  unfold integral_argument, no_NaN_argument. intros H Heq.
  specialize (H _ Heq NaN eq_refl). discriminate.
Qed.

Lemma in_range_run rs :
  Forall (fun er => no_NaN_argument (snd er)) rs ->
  all_health in_range (run rs init).
Proof.
  intros Hrs.
  apply (all_health_run in_range no_NaN_argument); try assumption.
  - exact in_range_100.
  - intros playerId kills n Hr. apply clamp_in_range.
    intros ->. apply Hr. reflexivity.
  - intros attackerId targetId damage h Hr Hh.
    apply attack_in_range; [exact Hh|]. apply no_NaN_amount; [lia | exact Hr].
  - intros healerId targetId amount h Hr Hh.
    apply heal_in_range; [exact Hh|]. apply no_NaN_amount; [lia | exact Hr].
  - constructor.
Qed.

Lemma integer_run rs :
  Forall (fun er => integral_argument (snd er)) rs ->
  all_health (fun h => Number_isInteger h = true) (run rs init).
Proof.
  intros Hrs.
  apply (all_health_run (fun h => Number_isInteger h = true)
                        integral_argument); try assumption.
  - apply num_of_Z_integer.
  - intros playerId kills n Hr.
    apply Math_max_integer; [apply num_of_Z_integer|].
    apply Math_min_integer; [apply num_of_Z_integer|].
    apply (Hr (VNum n)); reflexivity.
  - intros attackerId targetId damage h Hr Hh.
    apply Math_max_integer; [apply num_of_Z_integer|].
    apply js_sub_integer; [exact Hh|].
    apply amount_or_integer. apply Hr. reflexivity.
  - intros healerId targetId amount h Hr Hh.
    apply Math_max_integer; [apply num_of_Z_integer|].
    apply Math_min_integer; [apply num_of_Z_integer|].
    apply js_add_integer; [exact Hh|].
    apply amount_or_integer. apply Hr. reflexivity.
  - constructor.
Qed.

(** C3, as the code has it.  Along every sequence of requests in which
    no health, damage or amount argument is [NaN], whatever else these
    arguments are (negative, fractional, infinite, not a number at
    all), the health of every active player is a number within [0,100]
    after each request.  It is moreover an integer when every such
    argument that is a number is an integer. *)
Theorem C3_health_stays_in_range rs k p :
  Forall (fun er => no_NaN_argument (snd er)) rs ->
  map_get k (players (run rs init)) = Some p ->
  in_range (Player.health p) /\
  (Forall (fun er => integral_argument (snd er)) rs ->
   Number_isInteger (Player.health p) = true).
Proof.
  intros Hrs Hget. apply map_get_In in Hget. split.
  - pose proof (in_range_run rs Hrs) as H.
    unfold all_health in H. rewrite Forall_forall in H. apply (H _ Hget).
  - intros Hint. pose proof (integer_run rs Hint) as H.
    unfold all_health in H. rewrite Forall_forall in H. apply (H _ Hget).
Qed.

(** Negative, textual and missing arguments: the health moves from 100
    to 90 and back to 100. *)
Lemma C3_health_stays_in_range_witness :
  let e1 := mkEnv 1000 "10.0.0.1" in
  let e2 := mkEnv 2000 "10.0.0.2" in
  let p1 := "10.0.0.1-1000" in
  let p2 := "10.0.0.2-2000" in
  let rs := [(e1, Join (VNum (num_of_Z 7))); (e2, Join (VNum (num_of_Z 3)));
             (e2, Attack (VStr p2) (VStr p1) (VStr "lots"));
             (e2, Attack (VStr p2) (VStr p1) (VNum (num_of_Z (-5))));
             (e1, Heal VUndefined (VStr p1) VUndefined)] in
  exists p,
    map_get p1 (players (run rs init)) = Some p /\
    Player.health p = num100 /\
    in_range (Player.health p) /\
    Number_isInteger (Player.health p) = true.
Proof.
  intros e1 e2 p1 p2 rs.
  exists (Player.mk p1 4 (num_of_Z 7) "Player 7" "10.0.0.1" "blue"
                    num0 num100 1000).
  split; [reflexivity|]. split; [reflexivity|].
  destruct (C3_health_stays_in_range rs p1
              (Player.mk p1 4 (num_of_Z 7) "Player 7" "10.0.0.1" "blue"
                         num0 num100 1000)) as [Hrange Hint].
  - repeat constructor; unfold no_NaN_argument; simpl; discriminate.
  - reflexivity.
  - split; [exact Hrange|]. apply Hint.
    repeat constructor; unfold integral_argument; simpl;
      try discriminate; intros v [= <-] n Hn; try discriminate.
    injection Hn as <-. reflexivity.
Defined.

(** C3 as stated fails on fractional and on [NaN] arguments: a health
    update to 50.5 is stored as it is, an attack with damage 0.5 leaves
    99.5, and a health update to [NaN] stores [NaN], which is not within
    [0,100]. *)
Lemma C3_counterexample :
  let e1 := mkEnv 1000 "10.0.0.1" in
  let e2 := mkEnv 2000 "10.0.0.2" in
  let p1 := "10.0.0.1-1000" in
  let p2 := "10.0.0.2-2000" in
  let s := run [(e1, Join (VNum (num_of_Z 7)));
                (e2, Join (VNum (num_of_Z 3)))] init in
  let health_after r :=
    option_map Player.health (map_get p1 (players (fst (handle e1 r s)))) in
  health_after (UpdateStats (VStr p1) VUndefined (VNum (Finite (101 # 2))))
  = Some (Finite (101 # 2)) /\
  Number_isInteger (Finite (101 # 2)) = false /\
  health_after (Attack (VStr p2) (VStr p1) (VNum (Finite (1 # 2))))
  = Some (Finite (199 # 2)) /\
  Number_isInteger (Finite (199 # 2)) = false /\
  health_after (UpdateStats (VStr p1) VUndefined (VNum NaN)) = Some NaN /\
  ~ in_range NaN.
Proof.
  repeat split; try reflexivity.
  intros [H _]. discriminate.
Qed.

(** ** Attack *)

Lemma holds_iff h k : holds h k = true <-> h = Some k.
Proof.
  unfold holds. destruct h as [k'|].
  - rewrite String.eqb_eq. split; [intros ->; reflexivity | congruence].
  - split; discriminate.
Qed.

(** [(kills || 0) + 1] is one more than a finite [kills]. *)
Lemma or_zero_succ k :
  exists k', js_add (or_zero (Finite k)) num1 = Finite k' /\ (k' == k + 1)%Q.
Proof.
  unfold or_zero, num_truthy.
  destruct (Qeq_bool k 0) eqn:E; simpl.
  - eexists. split; [reflexivity|]. qbool. rewrite E. reflexivity.
  - eexists. split; [reflexivity|]. reflexivity.
Qed.

(** The floored difference [Math.max(0, h - d)] for a health within
    [0,100] and a clamped damage. *)
Lemma attack_result h d :
  in_range h ->
  (d = PosInf \/ exists q, d = Finite q /\ (0 <= q)%Q) ->
  let f := Math_max num0 (js_sub h d) in
  (js_eq f num0 = true <-> js_le h d = true) /\
  (js_eq f num0 = false ->
   js_le f h = true /\ js_lt num0 f = true /\ js_eq f (js_sub h d) = true).
Proof.
  intros Hh Hd f. subst f.
  apply in_range_finite in Hh as (x & -> & Hx0 & Hx1).
  destruct Hd as [-> | (y & -> & Hy)].
  { split; [split; reflexivity | discriminate]. }
  unfold Math_max, js_sub, num0, num_of_Z, js_lt, js_le, js_eq.
  change (inject_Z 0) with 0%Q.
  destruct (Qle_bool (x - y) 0) eqn:E; simpl.
  - change (Qeq_bool 0 0) with true.
    split; [|discriminate]. split; [|reflexivity].
    intros _. qbool. lra.
  - destruct (Qeq_bool (x - y) 0) eqn:E0; qbool; [lra|].
    split.
    + split; [discriminate|]. intros H. qbool. lra.
    + intros _. split; [qbool; lra|]. split.
      * destruct (Qle_bool (x - y) 0) eqn:E1; [qbool; lra | reflexivity].
      * qbool. reflexivity.
Qed.

(** What the first line of the attack handler makes of [damage]. *)
Lemma amount_or_cases dflt damage :
  ((forall n, damage <> VNum n) -> amount_or dflt damage = num_of_Z dflt) /\
  (forall n, damage = VNum n -> js_lt num0 n = true ->
             amount_or dflt damage = n) /\
  (forall n, damage = VNum n -> js_le n num0 = true ->
             amount_or dflt damage = num0).
Proof.
  split; [|split].
  - intros Hn. destruct damage as [| | |n|]; try reflexivity.
    exfalso. apply (Hn n). reflexivity.
  - intros n -> Hpos. unfold amount_or, Math_max.
    destruct n; try discriminate; rewrite Hpos; reflexivity.
  - intros n -> Hle. unfold amount_or, Math_max.
    destruct n as [q| | |]; try discriminate; try reflexivity.
    simpl in *. rewrite Hle. reflexivity.
Qed.

(** One more than an integer kill counter. *)
Lemma kill_count_succ k z :
  js_eq k (num_of_Z z) = true ->
  js_eq (js_add (or_zero k) num1) (num_of_Z (z + 1)) = true.
Proof.
  destruct k as [q| | |]; simpl; try discriminate.
  intros Hq. destruct (or_zero_succ q) as (k' & -> & Hk').
  simpl. qbool. rewrite Hk', Hq. rewrite inject_Z_plus. reflexivity.
Qed.

(** C4, as the code has it.  Every attack answered with 200 has
    distinct, active attacker and target, and leaves the target with a
    health that is not 0.  The damage applied is 10 when [damage] is not
    a number, [damage] itself when it is above 0 and 0 when it is at
    most 0.  The attack kills exactly when the target's health, after
    subtracting that damage and flooring at 0, is exactly 0, which for a
    health within [0,100] and a damage other than [NaN] means that the
    damage is at least the health.  On a kill, within that same request,
    a kill counter holding an integer from 0 to below 2^53 becomes that
    integer plus 1, the target's health is 100, [flagHolder] is cleared
    if it named the target and kept otherwise, and the response says
    [killed = true].  Without a kill the kill counter and [flagHolder]
    are untouched and [killed] is [false]. *)
Theorem C4_kill_fuses_with_respawn e attackerId targetId damage s s' r :
  attack e attackerId targetId damage s = (s', r) ->
  status r = 200 ->
  exists aid tid attacker target attacker' target' killed dmg,
    attackerId = VStr aid /\ targetId = VStr tid /\ aid <> tid /\
    map_get aid (players s) = Some attacker /\
    map_get tid (players s) = Some target /\
    map_get aid (players s') = Some attacker' /\
    map_get tid (players s') = Some target' /\
    content r = BAttack attacker' target' killed (flagHolder s') /\
    js_eq (Player.health target') num0 = false /\
    ((forall n, damage <> VNum n) -> dmg = num_of_Z 10) /\
    (forall n, damage = VNum n -> js_lt num0 n = true -> dmg = n) /\
    (forall n, damage = VNum n -> js_le n num0 = true -> dmg = num0) /\
    (killed = true <->
     js_eq (Math_max num0 (js_sub (Player.health target) dmg)) num0 = true) /\
    (in_range (Player.health target) -> damage <> VNum NaN ->
     (killed = true <-> js_le (Player.health target) dmg = true)) /\
    (killed = true ->
     (forall z, 0 <= z < 2 ^ 53 ->
                js_eq (Player.kills attacker) (num_of_Z z) = true ->
                js_eq (Player.kills attacker') (num_of_Z (z + 1)) = true) /\
     Player.health target' = num100 /\
     (flagHolder s = Some tid -> flagHolder s' = None) /\
     (flagHolder s <> Some tid -> flagHolder s' = flagHolder s)) /\
    (killed = false ->
     Player.kills attacker' = Player.kills attacker /\
     flagHolder s' = flagHolder s).
Proof.
  unfold attack. intros Hrun Hst.
  destruct (find_player attackerId (players s)) as [[aid attacker]|] eqn:Ea;
    [|injection Hrun as <- <-; discriminate].
  destruct (find_player targetId (players s)) as [[tid target]|] eqn:Et;
    [|injection Hrun as <- <-; discriminate].
  destruct (String.eqb_spec aid tid) as [Heq|Hne];
    [injection Hrun as <- <-; discriminate|].
  apply find_player_Some in Ea as (-> & _ & Hga).
  apply find_player_Some in Et as (-> & _ & Hgt).
  cbn [Player.health Player.with_health] in Hrun.
  destruct (amount_or_cases 10 damage) as (Hdflt & Hpos & Hneg).
  set (dmg := amount_or 10 damage) in *.
  set (floored := Math_max num0 (js_sub (Player.health target) dmg)) in *.
  assert (Horder : in_range (Player.health target) -> damage <> VNum NaN ->
                   (js_eq floored num0 = true
                    <-> js_le (Player.health target) dmg = true)).
  { intros Hh Hd. apply attack_result; [exact Hh|].
    apply amount_or_nonneg; [lia | exact Hd]. }
  destruct (js_eq floored num0) eqn:Ekill; injection Hrun as <- <-.
  - exists aid, tid, attacker, target.
    eexists. eexists. exists true, dmg.
    repeat (split; [first [reflexivity | assumption] |]).
    split; [cbn [players logEvent with_events with_flagHolder with_players];
            apply map_get_set_same |].
    split; [cbn [players logEvent with_events with_flagHolder with_players];
            rewrite map_get_set_other by exact Hne;
            apply map_get_set_same |].
    split; [reflexivity|]. split; [reflexivity|].
    split; [exact Hdflt|]. split; [exact Hpos|]. split; [exact Hneg|].
    split; [tauto|].
    split; [intros Hh Hd; destruct (Horder Hh Hd); tauto|].
    split; [|discriminate].
    intros _. split.
    { intros z _ Hz. cbn [Player.kills Player.with_kills].
      apply kill_count_succ. exact Hz. }
    split; [reflexivity|].
    cbn [flagHolder logEvent with_events with_flagHolder with_players].
    split.
    + intros H. apply holds_iff in H. rewrite H. reflexivity.
    + intros H. destruct (holds (flagHolder s) tid) eqn:Eh; [|reflexivity].
      apply holds_iff in Eh. contradiction.
  - exists aid, tid, attacker, target.
    eexists. eexists. exists false, dmg.
    repeat (split; [first [reflexivity | assumption] |]).
    split; [cbn [players logEvent with_events with_flagHolder with_players];
            rewrite map_get_set_other by (intros H; apply Hne; symmetry; exact H);
            exact Hga |].
    split; [cbn [players logEvent with_events with_flagHolder with_players];
            apply map_get_set_same |].
    split; [reflexivity|]. split; [exact Ekill|].
    split; [exact Hdflt|]. split; [exact Hpos|]. split; [exact Hneg|].
    split; [split; [discriminate|];
            intros H; change (js_eq floored num0 = true) in H; congruence|].
    split.
    { intros Hh Hd. destruct (Horder Hh Hd) as [_ Hback].
      split; [discriminate|]. intros H. apply Hback in H. discriminate. }
    split; [discriminate|].
    intros _. split; reflexivity.
Qed.

(** The holder of the flag is taken from 100 to 0: the attacker's kill
    counter goes from 0 to 1, the target is back at 100 and the flag is
    free. *)
Lemma C4_kill_fuses_with_respawn_witness :
  let e1 := mkEnv 1000 "10.0.0.1" in
  let e2 := mkEnv 2000 "10.0.0.2" in
  let p1 := "10.0.0.1-1000" in
  let p2 := "10.0.0.2-2000" in
  let s := run [(e1, Join (VNum (num_of_Z 7))); (e2, Join (VNum (num_of_Z 3)));
                (e1, ObtainFlag (VStr p1))] init in
  let out := attack e2 (VStr p2) (VStr p1) (VNum (num_of_Z 100)) s in
  flagHolder s = Some p1 /\
  exists attacker' target',
    map_get p2 (players (fst out)) = Some attacker' /\
    map_get p1 (players (fst out)) = Some target' /\
    js_eq (Player.kills attacker') (num_of_Z 1) = true /\
    Player.health target' = num100 /\
    flagHolder (fst out) = None.
Proof.
  intros e1 e2 p1 p2 s out.
  split; [reflexivity|].
  destruct (C4_kill_fuses_with_respawn
              e2 (VStr p2) (VStr p1) (VNum (num_of_Z 100)) s
              (fst out) (snd out) eq_refl eq_refl)
    as (aid & tid & attacker & target & attacker' & target' & killed & dmg
        & Ha & Ht & Hne & Hga & Hgt & Hga' & Hgt' & Hr & Halive
        & _ & Hpos & _ & _ & Horder & Hkill & _).
  injection Ha as <-. injection Ht as <-.
  injection Hga as <-. injection Hgt as <-.
  assert (Hdmg : dmg = num_of_Z 100) by (apply Hpos; reflexivity).
  subst dmg.
  assert (Hk : killed = true).
  { apply Horder; [split; reflexivity | discriminate | reflexivity]. }
  destruct (Hkill Hk) as (Hkills & Hhealth & Hclear & _).
  exists attacker', target'.
  split; [exact Hga'|]. split; [exact Hgt'|].
  split; [apply (Hkills 0); [lia | reflexivity]|].
  split; [exact Hhealth|].
  apply Hclear. reflexivity.
Defined.

(** C4 as stated fails on a kill counter that does not hold an integer
    below 2^53: after a stats update stored [Infinity] as the attacker's
    kills, a kill is reported and the counter is still [Infinity], not
    raised by 1. *)
Lemma C4_counterexample :
  let e1 := mkEnv 1000 "10.0.0.1" in
  let e2 := mkEnv 2000 "10.0.0.2" in
  let p1 := "10.0.0.1-1000" in
  let p2 := "10.0.0.2-2000" in
  let s := run [(e1, Join (VNum (num_of_Z 7))); (e2, Join (VNum (num_of_Z 3)));
                (e2, UpdateStats (VStr p2) (VNum PosInf) VUndefined)] init in
  let out := handle e2 (Attack (VStr p2) (VStr p1) (VNum (num_of_Z 100))) s in
  option_map Player.kills (map_get p2 (players s)) = Some PosInf /\
  (exists attacker' target',
      content (snd out) = BAttack attacker' target' true None /\
      Player.kills attacker' = PosInf) /\
  option_map Player.kills (map_get p2 (players (fst out))) = Some PosInf /\
  js_lt PosInf PosInf = false.
Proof.
  split; [reflexivity|]. split.
  - eexists. eexists. split; reflexivity.
  - split; reflexivity.
Qed.

(** * Further properties of the handlers *)

(** ** How a request changes the map of players *)

Lemma same_identity_refl p : same_identity p p.
Proof. repeat split. Qed.

Lemma assignTeam_recognised s : team_recognised (assignTeam s).
Proof.
  rewrite assignTeam_counts.
  destruct (team_count "blue" s <=? team_count "red" s)%nat;
    [left | right; left]; reflexivity.
Qed.

Lemma teams_lookup_recognised key :
  teams_lookup key <> None <-> team_recognised key.
Proof.
  unfold teams_lookup, team_recognised.
  destruct (String.eqb_spec key "blue") as [->|Hb].
  { split; [auto | discriminate]. }
  destruct (String.eqb_spec key "red") as [->|Hr].
  { split; [auto | discriminate]. }
  destruct (existsb (String.eqb key) Object_prototype_keys) eqn:E.
  - split; [|discriminate]. intros _. right. right.
    apply existsb_exists in E as (x & Hin & Hx).
    apply String.eqb_eq in Hx. subst x. exact Hin.
  - split; [congruence|]. intros [H | [H | H]]; try contradiction.
    exfalso.
    assert (Hex : existsb (String.eqb key) Object_prototype_keys = true).
    { apply existsb_exists. exists key. split; [exact H|].
      apply String.eqb_refl. }
    congruence.
Qed.

Lemma handle_players_change e r s :
  players_change e s (fst (handle e r s)).
Proof.
  destruct r; simpl.
  - apply change_none; reflexivity.
  - apply change_none; reflexivity.
  - destruct (join_cases e code s)
      as [r | r | r
         | c p s0 Hc Hok Hfree Hipfree Hp Hpl Hnext Hteams Hholder Hev];
      simpl; try (apply change_none; reflexivity).
    subst code. apply (change_add e s s0 c p); assumption.
  - unfold update.
    destruct (find_player playerId (players s)) as [[k p]|] eqn:Ef; simpl;
      [|apply change_none; reflexivity].
    apply find_player_Some in Ef as (_ & _ & Hg).
    eapply (change_one e s _ k p); [exact Hg | | | reflexivity | reflexivity].
    + destruct kills, health; repeat split.
    + left. destruct kills, health; reflexivity.
  - unfold remove.
    destruct (map_get id (players s)) as [p|] eqn:Hg; simpl;
      [|apply change_none; reflexivity].
    apply (change_delete e s _ id p); [exact Hg | |].
    + destruct (holds (flagHolder s) id); reflexivity.
    + destruct (holds (flagHolder s) id); reflexivity.
  - unfold capture. handler_cases;
      try match goal with
        | |- context [increment_flagsCaptured ?t ?m] =>
            destruct (increment_flagsCaptured t m)
        end;
      apply change_none; reflexivity.
  - unfold obtain. handler_cases; apply change_none; reflexivity.
  - unfold attack.
    destruct (find_player attackerId (players s)) as [[aid attacker]|] eqn:Ea;
      [|apply change_none; reflexivity].
    destruct (find_player targetId (players s)) as [[tid target]|] eqn:Et;
      [|apply change_none; reflexivity].
    destruct (String.eqb_spec aid tid) as [Heq|Hne];
      [apply change_none; reflexivity|].
    apply find_player_Some in Ea as (_ & _ & Hga).
    apply find_player_Some in Et as (_ & _ & Hgt).
    match goal with |- context [if ?b then _ else _] => destruct b end.
    + eapply (change_two e s _ aid attacker _ tid target _);
        [exact Hne | exact Hga | | | exact Hgt | | | reflexivity | reflexivity];
        repeat split.
    + eapply (change_one e s _ tid target);
        [exact Hgt | | | reflexivity | reflexivity].
      * repeat split.
      * left; reflexivity.
  - unfold heal.
    destruct (find_player targetId (players s)) as [[tid target]|] eqn:Et;
      [|apply change_none; reflexivity].
    apply find_player_Some in Et as (_ & _ & Hgt).
    match goal with |- context [if ?b then _ else _] => destruct b end;
      [apply change_none; reflexivity|].
    eapply (change_one e s _ tid target);
      [exact Hgt | | | reflexivity | reflexivity].
    + repeat split.
    + left; reflexivity.
  - unfold changeTeam.
    destruct (find_player playerId (players s)) as [[k p]|] eqn:Ef;
      [|apply change_none; reflexivity].
    apply find_player_Some in Ef as (_ & _ & Hg).
    destruct team as [| |b|n|key]; simpl;
      try (apply change_none; reflexivity);
      try (destruct b; apply change_none; reflexivity);
      try (destruct (num_truthy n); apply change_none; reflexivity).
    destruct (negb (key =? "")%string); [|apply change_none; reflexivity].
    destruct (teams_lookup key) as [m|] eqn:Em;
      [|apply change_none; reflexivity].
    eapply (change_one e s _ k p);
      [exact Hg | | | reflexivity | reflexivity].
    + repeat split.
    + right. simpl. apply teams_lookup_recognised. congruence.
  - unfold leave.
    destruct (find_player playerId (players s)) as [[k p]|] eqn:Ef;
      [|apply change_none; reflexivity].
    apply find_player_Some in Ef as (_ & _ & Hg).
    apply (change_delete e s _ k p); [exact Hg | reflexivity | reflexivity].
  - apply change_clear; reflexivity.
Qed.

(** ** Consistency of the map of players *)

Section MapProjections.
Context {A B : Type} (f : A -> B).

Lemma map_keys_set_present k (a a' : A) m :
  map_get k m = Some a -> map_keys (map_set k a' m) = map_keys m.
Proof.
  induction m as [|[k0 a0] m IH]; simpl; [discriminate|].
  destruct (String.eqb_spec k0 k) as [->|Hne]; simpl.
  - reflexivity.
  - intros H. rewrite (IH H). reflexivity.
Qed.

Lemma map_values_set_present k (a a' : A) m :
  map_get k m = Some a -> f a' = f a ->
  List.map f (map_values (map_set k a' m)) = List.map f (map_values m).
Proof.
  intros Hg Hf. induction m as [|[k0 a0] m IH]; simpl in *; [discriminate|].
  destruct (String.eqb_spec k0 k) as [->|Hne]; simpl.
  - injection Hg as ->. rewrite Hf. reflexivity.
  - rewrite (IH Hg). reflexivity.
Qed.

(** Deleting a present key removes exactly one entry. *)
Lemma map_delete_split k (a : A) m :
  map_get k m = Some a ->
  exists m1 m2, m = (m1 ++ (k, a) :: m2)%list /\
                map_delete k m = (m1 ++ m2)%list /\
                map_get k m1 = None.
Proof.
  induction m as [|[k0 a0] m IH]; simpl; [discriminate|].
  destruct (String.eqb_spec k0 k) as [->|Hne].
  - intros [= ->]. exists [], m. auto.
  - intros Hg. destruct (IH Hg) as (m1 & m2 & -> & Hd & Hn).
    exists ((k0, a0) :: m1), m2. simpl. rewrite Hd.
    apply String.eqb_neq in Hne. rewrite Hne. auto.
Qed.

Lemma NoDup_values_delete k m :
  NoDup (List.map f (map_values m)) ->
  NoDup (List.map f (map_values (map_delete k m))).
Proof.
  destruct (map_get k m) as [a|] eqn:Hg.
  - destruct (map_delete_split k a m Hg) as (m1 & m2 & -> & -> & _).
    unfold map_values. rewrite !map_app. simpl.
    apply NoDup_remove_1.
  - intros H. replace (map_delete k m) with m; [exact H|].
    clear H. induction m as [|[k0 a0] m IH]; simpl in *; [reflexivity|].
    destruct (k0 =? k)%string; [discriminate|].
    rewrite <- (IH Hg). reflexivity.
Qed.

Lemma NoDup_snoc (l : list B) x : NoDup l -> ~ In x l -> NoDup (l ++ [x]).
Proof.
  intros Hl Hx. apply NoDup_app; [exact Hl | repeat constructor; auto |].
  intros y Hy [<- | []]. contradiction.
Qed.
End MapProjections.

Lemma NoDup_keys_delete {A} k (m : jsmap A) :
  NoDup (map_keys m) -> NoDup (map_keys (map_delete k m)).
Proof.
  destruct (map_get k m) as [a|] eqn:Hg.
  - destruct (map_delete_split k a m Hg) as (m1 & m2 & -> & -> & _).
    unfold map_keys. rewrite !map_app. simpl. apply NoDup_remove_1.
  - intros H. replace (map_delete k m) with m; [exact H|].
    clear H. induction m as [|[k0 a0] m IH]; simpl in *; [reflexivity|].
    destruct (k0 =? k)%string; [discriminate|].
    rewrite <- (IH Hg). reflexivity.
Qed.

(** The integer a well-formed code denotes. *)
Lemma num_floor_code q z : (q == inject_Z z)%Q -> num_floor (Finite q) = z.
Proof.
  unfold Qeq. destruct q as [n d]; simpl. rewrite Z.mul_1_r. intros ->.
  apply Z.div_mul. lia.
Qed.

Lemma code_number_differs c1 c2 :
  is_code (VNum c1) -> is_code (VNum c2) -> js_eq c1 c2 = false ->
  num_floor c1 <> num_floor c2.
Proof.
  intros (q1 & z1 & [= ->] & Hz1 & _) (q2 & z2 & [= ->] & Hz2 & _) Hne.
  rewrite (num_floor_code _ _ Hz1), (num_floor_code _ _ Hz2).
  intros ->. simpl in Hne. qbool. apply Hne. rewrite Hz1, Hz2. reflexivity.
Qed.

Lemma roster_edit m n k p p' :
  roster m n -> map_get k m = Some p -> same_identity p p' ->
  Player.team p' = Player.team p \/ team_recognised (Player.team p') ->
  roster (map_set k p' m) n.
Proof.
  intros (Hkeys & Hall & Hips & Hcodes & Hnums & Hn) Hg
         (Hid & Hnum & Hcode & Hname & Hip & Hjoin) Hteam.
  pose proof (map_get_In _ _ _ Hg) as Hin.
  rewrite Forall_forall in Hall.
  destruct (Hall _ Hin) as (Ek & (t & Et) & Ec & En & Etm). simpl in *.
  split; [rewrite (map_keys_set_present k p p' m Hg); exact Hkeys|].
  split.
  { apply Forall_map_set; [apply Forall_forall; exact Hall|].
    unfold entry_ok, id_of_ip; simpl.
    rewrite Hid, Hip, Hcode, Hnum.
    repeat split; try assumption; try lia.
    - exists t. exact Et.
    - destruct Hteam as [-> | H]; assumption. }
  split; [rewrite (map_values_set_present Player.ip k p p' m Hg Hip);
          exact Hips|].
  split; [rewrite (map_values_set_present code_number k p p' m Hg);
          [exact Hcodes | unfold code_number; rewrite Hcode; reflexivity]|].
  split; [rewrite (map_values_set_present Player.number k p p' m Hg Hnum);
          exact Hnums | exact Hn].
Qed.

Lemma roster_delete m n k : roster m n -> roster (map_delete k m) n.
Proof.
  intros (Hkeys & Hall & Hips & Hcodes & Hnums & Hn).
  split; [apply NoDup_keys_delete; exact Hkeys|].
  split; [apply Forall_map_delete; exact Hall|].
  split; [apply NoDup_values_delete; exact Hips|].
  split; [apply NoDup_values_delete; exact Hcodes|].
  split; [apply NoDup_values_delete; exact Hnums | exact Hn].
Qed.

Lemma roster_add e s c p :
  roster_ok s ->
  is_code (VNum c) -> ~ code_in_use (VNum c) s ->
  ~ ip_in_use (clientIP e) s ->
  p = Player.mk (make_id (clientIP e) (now e)) (nextPlayerNumber s) c
                ("Player " ++ show_Z (num_floor c)) (clientIP e)
                (assignTeam s) num0 num100 (now e) ->
  map_get (Player.id p) (players s) = None /\
  roster (map_set (Player.id p) p (players s)) (nextPlayerNumber s + 1).
Proof.
  intros (Hkeys & Hall & Hips & Hcodes & Hnums & Hn) Hc Hcode Hip Hp.
  assert (Hwf : ids_wf s).
  { unfold ids_wf. apply Forall_forall. intros kp Hin.
    rewrite Forall_forall in Hall. apply (Hall kp Hin). }
  assert (Hfresh : map_get (Player.id p) (players s) = None).
  { subst p. simpl. apply join_id_fresh; [exact Hwf|].
    destruct (existsb _ _) eqn:E; [|reflexivity].
    apply ip_in_use_iff in E. contradiction. }
  split; [exact Hfresh|].
  rewrite (map_set_fresh _ _ _ Hfresh).
  unfold roster, map_keys, map_values. rewrite !map_app. simpl.
  rewrite Forall_forall in Hall.
  split.
  { apply NoDup_snoc; [exact Hkeys|].
    apply map_get_None_keys. exact Hfresh. }
  split.
  { apply Forall_app. split.
    - apply Forall_forall. intros kp Hin.
      destruct (Hall kp Hin) as (H1 & H2 & H3 & H4 & H5).
      repeat split; try assumption; lia.
    - constructor; [|constructor]. subst p.
      unfold entry_ok, id_of_ip; simpl.
      repeat split; try lia.
      + exists (now e). reflexivity.
      + exact Hc.
      + apply assignTeam_recognised. }
  split.
  { apply NoDup_snoc; [exact Hips|].
    intros Hin. apply in_map_iff in Hin as (q & Hq & Hin).
    apply Hip. exists q. split; [exact Hin|]. subst p. exact Hq. }
  split.
  { apply NoDup_snoc; [exact Hcodes|].
    intros Hin. apply in_map_iff in Hin as (q & Hq & Hin).
    pose proof Hin as Hin'.
    apply in_map_iff in Hin' as (kq & Hkq & Hin').
    destruct (Hall kq Hin') as (_ & _ & Hqc & _). rewrite Hkq in Hqc.
    destruct (js_eq (Player.code q) c) eqn:E.
    - apply Hcode. exists q, c. auto.
    - apply (code_number_differs _ _ Hqc Hc E).
      subst p. exact Hq. }
  split; [|lia].
  apply NoDup_snoc; [exact Hnums|].
  intros Hin. apply in_map_iff in Hin as (q & Hq & Hin).
  apply in_map_iff in Hin as (kq & Hkq & Hin).
  destruct (Hall kq Hin) as (_ & _ & _ & Hqn & _). rewrite Hkq in Hqn.
  subst p. simpl in Hq. lia.
Qed.

Lemma roster_ok_step e r s : roster_ok s -> roster_ok (fst (handle e r s)).
Proof.
  intros Hs. unfold roster_ok.
  destruct (handle_players_change e r s)
    as [Hp Hn | k p p' Hg Hid Hteam Hp Hn
       | k1 p1 p1' k2 p2 p2' Hne Hg1 Hid1 Ht1 Hg2 Hid2 Ht2 Hp Hn
       | c p Hc Hcode Hip Hpl Hp Hn | k p Hg Hp Hn | Hp Hn];
    rewrite Hp, Hn.
  - exact Hs.
  - apply (roster_edit _ _ k p p'); assumption.
  - apply (roster_edit _ _ k1 p1 p1'); auto.
    + apply (roster_edit _ _ k2 p2 p2'); auto.
    + rewrite map_get_set_other; [exact Hg1 | congruence].
  - apply (roster_add e s c p); assumption.
  - apply roster_delete. exact Hs.
  - repeat split; try constructor; lia.
Qed.

Lemma roster_ok_reachable s : reachable s -> roster_ok s.
Proof.
  intros [rs <-]. apply run_invariant; [intros e r s0; apply roster_ok_step|].
  unfold roster_ok, roster; simpl. repeat split; try constructor; lia.
Qed.

Lemma NoDup_map_injective {A B} (g : A -> B) (l : list A) x y :
  NoDup (List.map g l) -> In x l -> In y l -> g x = g y -> x = y.
Proof.
  induction l as [|a l IH]; simpl; [contradiction|].
  intros Hnd Hx Hy Heq. inversion Hnd as [|b l' Hnotin Hnd']; subst.
  destruct Hx as [<- | Hx], Hy as [<- | Hy].
  - reflexivity.
  - exfalso. apply Hnotin. rewrite Heq. apply in_map. exact Hy.
  - exfalso. apply Hnotin. rewrite <- Heq. apply in_map. exact Hx.
  - apply IH; assumption.
Qed.

Lemma values_projection_injective {B} (f : Player.t -> B) m k1 p1 k2 p2 :
  NoDup (List.map f (map_values m)) ->
  map_get k1 m = Some p1 -> map_get k2 m = Some p2 ->
  f p1 = f p2 -> k1 = k2 /\ p1 = p2.
Proof.
  unfold map_values. rewrite map_map. intros Hnd H1 H2 Heq.
  apply map_get_In in H1, H2.
  pose proof (NoDup_map_injective (fun kp => f (snd kp)) m
                (k1, p1) (k2, p2) Hnd H1 H2 Heq) as H.
  injection H as -> ->. auto.
Qed.

Lemma same_code_number c1 c2 :
  is_code (VNum c1) -> is_code (VNum c2) -> js_eq c1 c2 = true ->
  num_floor c1 = num_floor c2.
Proof.
  intros (q1 & z1 & [= ->] & Hz1 & _) (q2 & z2 & [= ->] & Hz2 & _) Heq.
  rewrite (num_floor_code _ _ Hz1), (num_floor_code _ _ Hz2).
  simpl in Heq. qbool. rewrite Hz1, Hz2 in Heq.
  exact (proj1 (inject_Z_injective z1 z2) Heq).
Qed.

Lemma make_id_nonempty ip t : make_id ip t <> "".
Proof. unfold make_id. destruct ip; discriminate. Qed.

(** X1.  In every reachable state the keys of [players] are pairwise
    distinct, and an entry found under a key is the player whose [id] is
    that key; the key is the text built at join time from the player's
    address and a clock reading, hence never the empty string, so the
    guard [!playerId] rejects no active player. *)
Theorem players_keys_consistent s k p :
  reachable s -> map_get k (players s) = Some p ->
  NoDup (map_keys (players s)) /\
  Player.id p = k /\
  (exists t, k = make_id (Player.ip p) t) /\
  find_player (VStr k) (players s) = Some (k, p).
Proof.
  intros Hs Hg.
  destruct (roster_ok_reachable s Hs) as (Hkeys & Hall & _).
  rewrite Forall_forall in Hall.
  destruct (Hall _ (map_get_In _ _ _ Hg)) as (Hid & (t & Ht) & _).
  simpl in *. split; [exact Hkeys|]. split; [symmetry; exact Hid|].
  split; [exists t; exact Ht|].
  apply find_player_VStr; [|exact Hg]. rewrite Ht. apply make_id_nonempty.
Qed.

Lemma players_keys_consistent_witness :
  let e1 := mkEnv 1000 "10.0.0.1" in
  let s := run [(e1, Join (VNum (num_of_Z 7)))] init in
  exists p, map_get "10.0.0.1-1000" (players s) = Some p /\
            Player.id p = "10.0.0.1-1000".
Proof.
  intros e1 s.
  exists (Player.mk "10.0.0.1-1000" 4 (num_of_Z 7) "Player 7" "10.0.0.1"
                    "blue" num0 num100 1000).
  split; [reflexivity|].
  refine (proj1 (proj2 (players_keys_consistent s "10.0.0.1-1000" _ _ _))).
  - exists [(e1, Join (VNum (num_of_Z 7)))]. reflexivity.
  - reflexivity.
Defined.

(** X2.  In every reachable state two active players never share an
    address, a code or a display number: entries found under two keys
    that agree on any of the three are one and the same entry. *)
Theorem active_players_distinct s k1 p1 k2 p2 :
  reachable s ->
  map_get k1 (players s) = Some p1 -> map_get k2 (players s) = Some p2 ->
  Player.ip p1 = Player.ip p2 \/
  js_eq (Player.code p1) (Player.code p2) = true \/
  Player.number p1 = Player.number p2 ->
  k1 = k2 /\ p1 = p2.
Proof.
  intros Hs H1 H2 Hsame.
  destruct (roster_ok_reachable s Hs) as (_ & Hall & Hips & Hcodes & Hnums & _).
  rewrite Forall_forall in Hall.
  destruct (Hall _ (map_get_In _ _ _ H1)) as (_ & _ & Hc1 & _).
  destruct (Hall _ (map_get_In _ _ _ H2)) as (_ & _ & Hc2 & _).
  simpl in *.
  destruct Hsame as [Hip | [Hcode | Hnum]].
  - apply (values_projection_injective Player.ip (players s)); assumption.
  - apply (values_projection_injective code_number (players s));
      try assumption.
    apply same_code_number; assumption.
  - apply (values_projection_injective Player.number (players s)); assumption.
Qed.

Lemma active_players_distinct_witness :
  let e1 := mkEnv 1000 "10.0.0.1" in
  let e2 := mkEnv 2000 "10.0.0.2" in
  let s := run [(e1, Join (VNum (num_of_Z 7)));
                (e2, Join (VNum (num_of_Z 3)));
                (e2, UpdateStats (VStr "10.0.0.2-2000") (VNum (num_of_Z 2))
                                 VUndefined)] init in
  let p2 := Player.mk "10.0.0.2-2000" 5 (num_of_Z 3) "Player 3" "10.0.0.2"
                      "red" (num_of_Z 2) num100 2000 in
  map_get "10.0.0.2-2000" (players s) = Some p2 /\
  ("10.0.0.2-2000" = "10.0.0.2-2000" /\ p2 = p2).
Proof.
  intros e1 e2 s p2. split; [reflexivity|].
  apply (active_players_distinct s "10.0.0.2-2000" p2 "10.0.0.2-2000" p2).
  - exists [(e1, Join (VNum (num_of_Z 7))); (e2, Join (VNum (num_of_Z 3)));
            (e2, UpdateStats (VStr "10.0.0.2-2000") (VNum (num_of_Z 2))
                             VUndefined)].
    reflexivity.
  - reflexivity.
  - reflexivity.
  - left. reflexivity.
Defined.

(** X3.  In every reachable state every active player carries a code
    that is an integer in [0,99], a display number that is at least 4
    and below the counter, and a team key that [teams] resolves; and
    there are at most 100 active players. *)
Theorem active_players_well_formed s :
  reachable s ->
  (forall k p, map_get k (players s) = Some p ->
               is_code (VNum (Player.code p)) /\
               4 <= Player.number p < nextPlayerNumber s /\
               team_recognised (Player.team p)) /\
  (List.length (players s) <= 100)%nat.
Proof.
  intros Hs.
  destruct (roster_ok_reachable s Hs) as (_ & Hall & _ & Hcodes & _).
  rewrite Forall_forall in Hall. split.
  - intros k p Hg.
    destruct (Hall _ (map_get_In _ _ _ Hg)) as (_ & _ & Hc & Hn & Ht).
    auto.
  - assert (Hlen : List.length (players s)
                   = List.length (List.map code_number (map_values (players s)))).
    { unfold map_values. rewrite !length_map. reflexivity. }
    rewrite Hlen.
    replace 100%nat with (List.length (List.map Z.of_nat (seq 0 100)))
      by (rewrite length_map, length_seq; reflexivity).
    apply NoDup_incl_length; [exact Hcodes|].
    intros z Hz. apply in_map_iff in Hz as (p & <- & Hin).
    apply in_map_iff in Hin as (kp & <- & Hin).
    destruct (Hall _ Hin) as (_ & _ & (q & z & Hq & Hz & Hlo & Hhi) & _).
    unfold code_number. injection Hq as Hq. rewrite Hq.
    rewrite (num_floor_code _ _ Hz).
    apply in_map_iff. exists (Z.to_nat z). split; [lia|].
    apply in_seq. lia.
Qed.

Lemma active_players_well_formed_witness :
  let e1 := mkEnv 1000 "10.0.0.1" in
  let s := run [(e1, Join (VNum (num_of_Z 7)));
                (e1, ChangeTeam (VStr "10.0.0.1-1000") (VStr "red"))] init in
  (List.length (players s) <= 100)%nat.
Proof.
  intros e1 s.
  refine (proj2 (active_players_well_formed s _)).
  exists [(e1, Join (VNum (num_of_Z 7)));
          (e1, ChangeTeam (VStr "10.0.0.1-1000") (VStr "red"))].
  reflexivity.
Defined.

(** ** Refusals *)

(** X4.  A request that is not answered with 200 leaves the whole
    match state (players, teams, counter, flag holder and log) exactly
    as it was: every handler checks before it assigns. *)
Theorem refused_request_changes_nothing e r s :
  status (snd (handle e r s)) <> 200 -> fst (handle e r s) = s.
Proof.
  destruct r; simpl;
    [ unfold getPlayers | unfold getEvents | unfold join; destruct code
    | unfold update | unfold remove | unfold capture | unfold obtain
    | unfold attack | unfold heal | unfold changeTeam; destruct team
    | unfold leave | unfold restart ];
    handler_cases;
    try match goal with
      | |- context [increment_flagsCaptured ?t ?m] =>
          destruct (increment_flagsCaptured t m)
      end;
    cbn [fst snd status ok fail]; handler_cases; cbn [fst snd status ok fail];
    intros H; try reflexivity; exfalso; apply H; reflexivity.
Qed.

Lemma refused_request_changes_nothing_witness :
  let e1 := mkEnv 1000 "10.0.0.1" in
  let s := run [(e1, Join (VNum (num_of_Z 7)))] init in
  fst (handle e1 (Attack (VStr "10.0.0.1-1000") (VStr "10.0.0.1-1000")
                         VUndefined) s) = s /\
  fst (handle e1 (Join (VNum (num_of_Z 7))) s) = s.
Proof.
  intros e1 s. split.
  - apply (refused_request_changes_nothing e1 _ s).
    vm_compute. discriminate.
  - apply (refused_request_changes_nothing e1 _ s).
    vm_compute. discriminate.
Defined.

(** ** Capture, obtain and team change in reachable states *)

Lemma active_players_wf_team s k p :
  reachable s -> map_get k (players s) = Some p ->
  exists m, teams_lookup (Player.team p) = Some m.
Proof.
  intros Hs Hg.
  destruct (roster_ok_reachable s Hs) as (_ & Hall & _).
  rewrite Forall_forall in Hall.
  destruct (Hall _ (map_get_In _ _ _ Hg)) as (_ & _ & _ & _ & Ht).
  simpl in Ht. apply teams_lookup_recognised in Ht.
  destruct (teams_lookup (Player.team p)) as [m|]; [exists m; reflexivity|].
  congruence.
Qed.

(** X5.  In a reachable state the capture handler never answers
    "Player has invalid team": every active player's team key resolves.
    A capture is answered 404 exactly when the id names no active
    player, 200 exactly when the named player holds the flag, and
    otherwise 400 "Player does not currently hold the flag". *)
Theorem capture_outcomes e playerId s :
  reachable s ->
  let resp := snd (capture e playerId s) in
  resp <> fail 400 "Player has invalid team" /\
  (status resp = 404 <-> find_player playerId (players s) = None) /\
  (forall k p, find_player playerId (players s) = Some (k, p) ->
               (status resp = 200 <-> flagHolder s = Some k) /\
               (flagHolder s <> Some k ->
                resp = fail 400 "Player does not currently hold the flag")).
Proof.
  intros Hs resp. subst resp. unfold capture.
  destruct (find_player playerId (players s)) as [[k p]|] eqn:Ef.
  2:{ split; [discriminate|]. split; [tauto|]. discriminate. }
  pose proof Ef as Hf. apply find_player_Some in Hf as (_ & _ & Hg).
  destruct (active_players_wf_team s k p Hs Hg) as [m Hm]. rewrite Hm.
  pose proof (holds_iff (flagHolder s) k) as Hh.
  destruct (holds (flagHolder s) k) eqn:E; simpl.
  - destruct (increment_flagsCaptured (teams s) m) as [t c]. simpl.
    split; [discriminate|]. split; [split; discriminate|].
    intros k0 p0 [= <- <-]. split; [tauto|].
    intros H. exfalso. apply H. apply Hh. reflexivity.
  - split; [discriminate|]. split; [split; discriminate|].
    intros k0 p0 [= <- <-]. split.
    + split; [discriminate|]. intros H. apply Hh in H. discriminate.
    + reflexivity.
Qed.

Lemma capture_outcomes_witness :
  let e1 := mkEnv 1000 "10.0.0.1" in
  let p1 := "10.0.0.1-1000" in
  let s := run [(e1, Join (VNum (num_of_Z 7)));
                (e1, ChangeTeam (VStr p1) (VStr "valueOf"))] init in
  snd (capture e1 (VStr p1) s)
  = fail 400 "Player does not currently hold the flag".
Proof.
  intros e1 p1 s.
  assert (Hs : reachable s).
  { exists [(e1, Join (VNum (num_of_Z 7)));
            (e1, ChangeTeam (VStr p1) (VStr "valueOf"))]. reflexivity. }
  destruct (capture_outcomes e1 (VStr p1) s Hs) as (_ & _ & Hk).
  refine (proj2 (Hk p1 (Player.mk p1 4 (num_of_Z 7) "Player 7" "10.0.0.1"
                                  "valueOf" num0 num100 1000) eq_refl) _).
  simpl. discriminate.
Defined.

Lemma obtain_found e playerId s k p :
  find_player playerId (players s) = Some (k, p) ->
  obtain e playerId s
  = (logEvent e (MsgObtain (Player.name p) (Player.code p) (flagHolder s))
              (with_flagHolder (Some k) s),
     ok (BObtain k (flagHolder s) (Some k))).
Proof. intros Hf. unfold obtain. rewrite Hf. reflexivity. Qed.

(** X6.  Obtaining the flag performs no possession check: whoever held
    it, an active player who asks becomes the holder.  When two active
    players ask one after the other, the second request is answered 200,
    reports the first player as previous holder and leaves the second as
    holder, with [players], [teams] and the counter untouched. *)
Theorem obtain_steals e1 e2 idA idB s ka pa kb pb :
  find_player idA (players s) = Some (ka, pa) ->
  find_player idB (players s) = Some (kb, pb) ->
  let s1 := fst (obtain e1 idA s) in
  let out := obtain e2 idB s1 in
  flagHolder s1 = Some ka /\
  snd out = ok (BObtain kb (Some ka) (Some kb)) /\
  flagHolder (fst out) = Some kb /\
  holder_active (fst out) /\
  players (fst out) = players s /\
  teams (fst out) = teams s /\
  nextPlayerNumber (fst out) = nextPlayerNumber s.
Proof.
  intros Ha Hb s1 out. subst out s1.
  rewrite (obtain_found e1 idA s ka pa Ha). cbn [fst].
  match goal with
  | |- context [obtain e2 idB ?s1] =>
      rewrite (obtain_found e2 idB s1 kb pb Hb)
  end.
  cbn [fst snd].
  repeat split.
  unfold holder_active. cbn.
  apply find_player_Some in Hb as (_ & _ & Hg).
  apply map_has_true. exists pb. exact Hg.
Qed.

Lemma obtain_steals_witness :
  let e1 := mkEnv 1000 "10.0.0.1" in
  let e2 := mkEnv 2000 "10.0.0.2" in
  let s := run [(e1, Join (VNum (num_of_Z 7)));
                (e2, Join (VNum (num_of_Z 3)))] init in
  let s1 := fst (obtain e1 (VStr "10.0.0.1-1000") s) in
  snd (obtain e2 (VStr "10.0.0.2-2000") s1)
  = ok (BObtain "10.0.0.2-2000" (Some "10.0.0.1-1000")
                (Some "10.0.0.2-2000")).
Proof.
  intros e1 e2 s s1.
  refine (proj1 (proj2 (obtain_steals e1 e2 (VStr "10.0.0.1-1000")
                          (VStr "10.0.0.2-2000") s _ _ _ _ _ _)));
    reflexivity.
Defined.

(** X7.  Team changes of an active player whose [team] field is a JSON
    scalar (arrays and objects are not covered).  A string is accepted
    exactly when it names "blue", "red" or a property [teams] inherits
    from [Object.prototype]; a missing field, [null], a boolean and a
    number are refused; every refusal is a 400 "Invalid team".  An
    accepted change assigns the player's [team] and nothing else: the
    player's other fields, every other player, the flag holder (the
    player keeps the flag), the team counters and the display counter
    stay as they were; no rebalancing takes place. *)
Theorem changeTeam_outcomes e playerId team s k p :
  find_player playerId (players s) = Some (k, p) ->
  let out := changeTeam e playerId team s in
  (forall key, team = VStr key ->
               (status (snd out) = 200 <-> team_recognised key)) /\
  (team = VUndefined \/ team = VNull \/
   (exists b, team = VBool b) \/ (exists n, team = VNum n) ->
   snd out = fail 400 "Invalid team") /\
  (status (snd out) <> 200 -> snd out = fail 400 "Invalid team") /\
  (forall key, team = VStr key -> team_recognised key ->
   map_get k (players (fst out)) = Some (Player.with_team key p) /\
   (forall k', k' <> k ->
               map_get k' (players (fst out)) = map_get k' (players s)) /\
   flagHolder (fst out) = flagHolder s /\
   teams (fst out) = teams s /\
   nextPlayerNumber (fst out) = nextPlayerNumber s).
Proof.
  intros Hf out. subst out. unfold changeTeam. rewrite Hf.
  destruct team as [| |b|n|key].
  1-4: simpl;
    repeat match goal with
      | |- context [if ?b then _ else _] => destruct b
      end;
    simpl;
    (split; [intros key Hk; discriminate|]);
    (split; [reflexivity|]);
    (split; [reflexivity | intros key Hk; discriminate]).
  pose proof (teams_lookup_recognised key) as Hrec.
  assert (Hempty : key = "" -> teams_lookup key = None).
  { intros ->. reflexivity. }
  assert (Hscalar : ~ (VStr key = VUndefined \/ VStr key = VNull \/
                       (exists b, VStr key = VBool b) \/
                       (exists n, VStr key = VNum n))).
  { intros [H | [H | [[b H] | [n H]]]]; discriminate. }
  simpl. destruct (String.eqb_spec key "") as [He|He]; simpl.
  - rewrite (Hempty He) in Hrec.
    split.
    { intros key' [= <-]. split; [discriminate|].
      intros Hk. exfalso. apply Hrec in Hk. congruence. }
    split; [reflexivity|]. split; [reflexivity|].
    intros key' [= <-] Hk. exfalso. apply Hrec in Hk. congruence.
  - destruct (teams_lookup key) as [m|] eqn:Em; simpl.
    + split.
      { intros key' [= <-]. split; [|reflexivity].
        intros _. apply Hrec. discriminate. }
      split; [intros H; exfalso; apply Hscalar; exact H|].
      split; [intros H; exfalso; apply H; reflexivity|].
      intros key' [= <-] _.
      split; [apply map_get_set_same|].
      split; [|repeat split].
      intros k' Hk'. apply map_get_set_other. congruence.
    + split.
      { intros key' [= <-]. split; [discriminate|].
        intros Hk. exfalso. apply Hrec in Hk. congruence. }
      split; [reflexivity|]. split; [reflexivity|].
      intros key' [= <-] Hk. exfalso. apply Hrec in Hk. congruence.
Qed.

Lemma changeTeam_outcomes_witness :
  let e1 := mkEnv 1000 "10.0.0.1" in
  let p1 := "10.0.0.1-1000" in
  let s := run [(e1, Join (VNum (num_of_Z 7)));
                (e1, ObtainFlag (VStr p1))] init in
  status (snd (changeTeam e1 (VStr p1) (VStr "red") s)) = 200 /\
  flagHolder (fst (changeTeam e1 (VStr p1) (VStr "red") s)) = Some p1 /\
  snd (changeTeam e1 (VStr p1) (VStr "green") s) = fail 400 "Invalid team".
Proof.
  intros e1 p1 s.
  destruct (changeTeam_outcomes e1 (VStr p1) (VStr "red") s p1
              (Player.mk p1 4 (num_of_Z 7) "Player 7" "10.0.0.1" "blue"
                         num0 num100 1000) eq_refl) as (Hiff & _ & _ & Hok).
  destruct (changeTeam_outcomes e1 (VStr p1) (VStr "green") s p1
              (Player.mk p1 4 (num_of_Z 7) "Player 7" "10.0.0.1" "blue"
                         num0 num100 1000) eq_refl) as (_ & _ & Hbad & _).
  assert (Hred : team_recognised "red") by (right; left; reflexivity).
  split.
  - apply (Hiff "red" eq_refl). exact Hred.
  - split.
    + destruct (Hok "red" eq_refl Hred) as (_ & _ & Hh & _). exact Hh.
    + apply Hbad. vm_compute. discriminate.
Defined.

(** ** Updating statistics *)

Lemma map_set_idempotent {A} k (a : A) m :
  map_set k a (map_set k a m) = map_set k a m.
Proof.
  induction m as [|[k0 a0] m IH]; simpl.
  - rewrite String.eqb_refl. reflexivity.
  - destruct (String.eqb_spec k0 k) as [->|Hne]; simpl.
    + rewrite String.eqb_refl. reflexivity.
    + apply String.eqb_neq in Hne. rewrite Hne, IH. reflexivity.
Qed.

Lemma Math_max_nonneg n : n <> NaN -> js_le num0 (Math_max num0 n) = true.
Proof.
  intros Hn. destruct n as [q| | |]; try congruence; try reflexivity.
  unfold Math_max, num0, num_of_Z, js_lt, js_le.
  destruct (Qle_bool q (inject_Z 0)) eqn:E; simpl.
  - reflexivity.
  - qbool. apply Qlt_le_weak. exact E.
Qed.

Lemma update_found playerId kills health s k p :
  find_player playerId (players s) = Some (k, p) ->
  update playerId kills health s
  = (with_players (map_set k (updated kills health p) (players s)) s,
     ok (BPlayer (updated kills health p))).
Proof. intros Hf. unfold update. rewrite Hf. reflexivity. Qed.

Lemma updated_idempotent kills health p :
  updated kills health (updated kills health p) = updated kills health p.
Proof. destruct p, kills, health; reflexivity. Qed.

(** X8.  A stats update of an active player is answered 200 and assigns
    only that player's [kills] and [health]: a field that is not a
    number is left as it was, a numeric [kills] other than [NaN] is
    stored as a value that is at least 0, and a numeric [health] other
    than [NaN] as a value within [0,100].  Every other player, the flag
    holder, the teams, the counter and the event log are untouched (the
    handler writes no log line), and sending the same update again
    changes nothing further. *)
Theorem update_outcomes playerId kills health s k p :
  find_player playerId (players s) = Some (k, p) ->
  let out := update playerId kills health s in
  exists p',
    snd out = ok (BPlayer p') /\
    map_get k (players (fst out)) = Some p' /\
    same_identity p p' /\ Player.team p' = Player.team p /\
    (not_a_number kills -> Player.kills p' = Player.kills p) /\
    (forall n, kills = VNum n -> n <> NaN ->
               js_le num0 (Player.kills p') = true) /\
    (not_a_number health -> Player.health p' = Player.health p) /\
    (forall n, health = VNum n -> n <> NaN -> in_range (Player.health p')) /\
    (forall k', k' <> k ->
                map_get k' (players (fst out)) = map_get k' (players s)) /\
    flagHolder (fst out) = flagHolder s /\
    teams (fst out) = teams s /\
    nextPlayerNumber (fst out) = nextPlayerNumber s /\
    events (fst out) = events s /\
    fst (update playerId kills health (fst out)) = fst out.
Proof.
  intros Hf out. subst out.
  rewrite (update_found playerId kills health s k p Hf). cbn [fst snd].
  exists (updated kills health p).
  split; [reflexivity|]. split; [apply map_get_set_same|].
  split; [destruct kills, health; repeat split|].
  split; [destruct kills, health; reflexivity|].
  split.
  { intros Hk. destruct kills as [| | |n|];
      try (destruct health; reflexivity).
    exfalso. apply (Hk n). reflexivity. }
  split.
  { intros n -> Hn.
    destruct health; cbn; apply Math_max_nonneg; exact Hn. }
  split.
  { intros Hh. destruct health as [| | |n|];
      try (destruct kills; reflexivity).
    exfalso. apply (Hh n). reflexivity. }
  split.
  { intros n -> Hn. cbn. apply clamp_in_range. exact Hn. }
  split.
  { intros k' Hk'. apply map_get_set_other. congruence. }
  repeat (split; [reflexivity|]).
  apply find_player_Some in Hf as (-> & Hk & Hg).
  rewrite (update_found (VStr k) kills health _ k (updated kills health p)).
  - cbn [fst]. rewrite updated_idempotent. unfold with_players. cbn.
    rewrite map_set_idempotent. reflexivity.
  - apply find_player_VStr; [exact Hk|]. apply map_get_set_same.
Qed.

Lemma update_outcomes_witness :
  let e1 := mkEnv 1000 "10.0.0.1" in
  let p1 := "10.0.0.1-1000" in
  let s := run [(e1, Join (VNum (num_of_Z 7)))] init in
  let out := update (VStr p1) (VNum (num_of_Z (-3))) (VStr "full") s in
  option_map Player.health (map_get p1 (players (fst out))) = Some num100 /\
  events (fst out) = events s /\
  fst (update (VStr p1) (VNum (num_of_Z (-3))) (VStr "full") (fst out))
  = fst out.
Proof.
  intros e1 p1 s out.
  destruct (update_outcomes (VStr p1) (VNum (num_of_Z (-3))) (VStr "full") s
              p1 (Player.mk p1 4 (num_of_Z 7) "Player 7" "10.0.0.1" "blue"
                            num0 num100 1000) eq_refl)
    as (p' & _ & Hg & _ & _ & _ & _ & Hh & _ & _ & _ & _ & _ & Hev & Hidem).
  fold out in Hg, Hev, Hidem. rewrite Hg. simpl.
  split; [|split; [exact Hev | exact Hidem]].
  f_equal. apply Hh. intros n Hn. discriminate.
Defined.

(** ** Kill counters *)

Lemma kill_count_nonneg k :
  js_le num0 k = true -> js_le num0 (js_add (or_zero k) num1) = true.
Proof.
  unfold or_zero.
  destruct k as [q| | |]; simpl; try reflexivity; try discriminate.
  intros Hq. destruct (Qeq_bool q 0) eqn:E; simpl; [reflexivity|].
  qbool. change (inject_Z 0) with 0%Q in *. change (inject_Z 1) with 1%Q.
  lra.
Qed.

Lemma all_kills_step e r s :
  kills_argument r <> Some (VNum NaN) ->
  all_kills (fun k => js_le num0 k = true) s ->
  all_kills (fun k => js_le num0 k = true) (fst (handle e r s)).
Proof.
  unfold all_kills. intros Hr Hs.
  assert (Hold : forall k p, map_get k (players s) = Some p ->
                             js_le num0 (Player.kills p) = true).
  { intros k p Hg. apply map_get_In in Hg.
    rewrite Forall_forall in Hs. apply (Hs _ Hg). }
  destruct r; simpl;
    [ unfold getPlayers | unfold getEvents | unfold join; destruct code
    | unfold update | unfold remove | unfold capture | unfold obtain
    | unfold attack | unfold heal | unfold changeTeam; destruct team
    | unfold leave | unfold restart ];
    handler_cases;
    try match goal with
      | |- context [increment_flagsCaptured ?t ?m] =>
          destruct (increment_flagsCaptured t m)
      end;
    cbn [fst]; try exact Hs;
    handler_cases; cbn [fst]; try exact Hs;
    repeat match goal with
      | H : find_player _ _ = Some _ |- _ =>
          apply find_player_Some in H as (_ & _ & H)
      end;
    cbn [players with_players with_flagHolder with_teams with_events
         with_nextPlayerNumber logEvent];
    repeat first [ exact Hs | apply Forall_map_delete | apply Forall_map_set ];
    cbn [fst snd Player.kills Player.with_health Player.with_kills
         Player.with_team];
    try reflexivity; try (eapply Hold; eassumption);
    try (apply kill_count_nonneg; eapply Hold; eassumption);
    try constructor.
  destruct kills as [| | |n|];
    try (destruct health; cbn [Player.kills Player.with_health];
         eapply Hold; eassumption).
  assert (Hn : n <> NaN) by (intros ->; apply Hr; reflexivity).
  destruct health; cbn [Player.kills Player.with_health Player.with_kills];
    apply Math_max_nonneg; exact Hn.
Qed.

(** X9.  Along every sequence of requests in which no [kills] argument
    of a stats update is [NaN], the kill counter of every active player
    is a number that is at least 0: a join starts it at 0, an update
    clamps it with [Math.max(0, kills)], and a kill adds 1. *)
Theorem kills_never_negative rs k p :
  Forall (fun er => kills_argument (snd er) <> Some (VNum NaN)) rs ->
  map_get k (players (run rs init)) = Some p ->
  js_le num0 (Player.kills p) = true.
Proof.
  intros Hrs Hg.
  assert (H : forall s, all_kills (fun k => js_le num0 k = true) s ->
                        all_kills (fun k => js_le num0 k = true) (run rs s)).
  { clear Hg. induction Hrs as [|[e r] rs Hr Hrs IH]; intros s Hs; simpl.
    - exact Hs.
    - apply IH. apply all_kills_step; assumption. }
  specialize (H init (Forall_nil _)).
  unfold all_kills in H. rewrite Forall_forall in H.
  apply (H _ (map_get_In _ _ _ Hg)).
Qed.

Lemma kills_never_negative_witness :
  let e1 := mkEnv 1000 "10.0.0.1" in
  let p1 := "10.0.0.1-1000" in
  let rs := [(e1, Join (VNum (num_of_Z 7)));
             (e1, UpdateStats (VStr p1) (VNum (num_of_Z (-8))) VUndefined)] in
  option_map Player.kills (map_get p1 (players (run rs init))) = Some num0 /\
  js_le num0 num0 = true.
Proof.
  intros e1 p1 rs. split; [reflexivity|].
  apply (kills_never_negative rs p1
           (Player.mk p1 4 (num_of_Z 7) "Player 7" "10.0.0.1" "blue"
                      num0 num100 1000)).
  - repeat constructor; simpl; discriminate.
  - reflexivity.
Defined.

(** ** Damage and healing *)

(** The clamped sum [Math.max(0, Math.min(100, h + a))] for a health
    within [0,100] and a clamped amount. *)
Lemma heal_result h a :
  in_range h ->
  (a = PosInf \/ exists q, a = Finite q /\ (0 <= q)%Q) ->
  let f := Math_max num0 (Math_min num100 (js_add h a)) in
  js_le h f = true /\
  (js_le num100 (js_add h a) = true -> js_eq f num100 = true) /\
  (js_le a num0 = true -> js_eq f h = true).
Proof.
  intros Hh Ha f. subst f.
  apply in_range_finite in Hh as (x & -> & Hx0 & Hx1).
  destruct Ha as [-> | (y & -> & Hy)].
  { simpl. split; [qbool; exact Hx1|]. split; [reflexivity | discriminate]. }
  unfold Math_max, Math_min, js_add, num0, num100, num_of_Z, js_lt, js_le,
    js_eq.
  change (inject_Z 0) with 0%Q. change (inject_Z 100) with 100%Q.
  destruct (Qle_bool 100 (x + y)) eqn:E; simpl.
  - change (Qle_bool 100 0) with false. simpl.
    split; [qbool; exact Hx1|]. split; [reflexivity|].
    intros H. qbool. lra.
  - destruct (Qle_bool (x + y) 0) eqn:E0; simpl.
    + split; [qbool; lra|]. split; [discriminate|].
      intros H. qbool. lra.
    + split; [qbool; lra|]. split; [discriminate|].
      intros H. qbool. lra.
Qed.

(** Zero damage on a health above 0: no kill, and the health stays. *)
Lemma attack_no_damage h d :
  in_range h ->
  (d = PosInf \/ exists q, d = Finite q /\ (0 <= q)%Q) ->
  js_le d num0 = true -> js_lt num0 h = true ->
  js_le h d = false /\
  js_eq (Math_max num0 (js_sub h d)) h = true.
Proof.
  intros Hh Hd Hle Hpos.
  apply in_range_finite in Hh as (x & -> & Hx0 & Hx1).
  destruct Hd as [-> | (y & -> & Hy)]; [discriminate|].
  unfold Math_max, js_sub, num0, num_of_Z, js_lt, js_le, js_eq in *.
  change (inject_Z 0) with 0%Q in *.
  apply negb_true_iff in Hpos. qbool.
  split.
  - destruct (Qle_bool x y) eqn:E; [qbool; lra | reflexivity].
  - destruct (Qle_bool (x - y) 0) eqn:E; simpl; qbool; lra.
Qed.

(** X10.  A heal answered with 200 assigns only the target's health; the
    other players, the target's other fields, the flag holder, the teams
    and the counter are untouched.  The amount applied is 20 when
    [amount] is not a number, [amount] itself when it is above 0 and 0
    when it is at most 0.  For a health within [0,100] and an [amount]
    other than [NaN] the new health is again within [0,100] and never
    below the old one; it is 100 as soon as old health plus amount is at
    least 100, and it is the old health when the amount applied is 0. *)
Theorem heal_outcomes e healerId targetId amount s s' r :
  heal e healerId targetId amount s = (s', r) ->
  status r = 200 ->
  exists tid target target' amt,
    targetId = VStr tid /\
    map_get tid (players s) = Some target /\
    map_get tid (players s') = Some target' /\
    r = ok (BTarget target') /\
    same_identity target target' /\
    Player.team target' = Player.team target /\
    Player.kills target' = Player.kills target /\
    (forall k', k' <> tid ->
                map_get k' (players s') = map_get k' (players s)) /\
    flagHolder s' = flagHolder s /\ teams s' = teams s /\
    nextPlayerNumber s' = nextPlayerNumber s /\
    ((forall n, amount <> VNum n) -> amt = num_of_Z 20) /\
    (forall n, amount = VNum n -> js_lt num0 n = true -> amt = n) /\
    (forall n, amount = VNum n -> js_le n num0 = true -> amt = num0) /\
    (in_range (Player.health target) -> amount <> VNum NaN ->
     in_range (Player.health target') /\
     js_le (Player.health target) (Player.health target') = true /\
     (js_le num100 (js_add (Player.health target) amt) = true ->
      js_eq (Player.health target') num100 = true) /\
     (js_le amt num0 = true ->
      js_eq (Player.health target') (Player.health target) = true)).
Proof.
  unfold heal. intros Hrun Hst.
  destruct (find_player targetId (players s)) as [[tid target]|] eqn:Et;
    [|injection Hrun as <- <-; discriminate].
  destruct (truthy healerId && negb (has_key healerId (players s)));
    [injection Hrun as <- <-; discriminate|].
  apply find_player_Some in Et as (-> & _ & Hg).
  injection Hrun as <- <-.
  destruct (amount_or_cases 20 amount) as (Hdflt & Hpos & Hneg).
  exists tid, target. eexists. exists (amount_or 20 amount).
  split; [reflexivity|]. split; [exact Hg|].
  split; [apply map_get_set_same|].
  split; [reflexivity|]. split; [repeat split|].
  split; [reflexivity|]. split; [reflexivity|].
  split; [intros k' Hk'; apply map_get_set_other; congruence|].
  split; [reflexivity|]. split; [reflexivity|]. split; [reflexivity|].
  split; [exact Hdflt|]. split; [exact Hpos|]. split; [exact Hneg|].
  intros Hh Ha. cbn [Player.health Player.with_health].
  assert (Hamt : amount_or 20 amount = PosInf \/
                 exists q, amount_or 20 amount = Finite q /\ (0 <= q)%Q).
  { apply amount_or_nonneg; [lia | exact Ha]. }
  split; [apply heal_in_range; assumption|].
  apply heal_result; assumption.
Qed.

Lemma heal_outcomes_witness :
  let e1 := mkEnv 1000 "10.0.0.1" in
  let e2 := mkEnv 2000 "10.0.0.2" in
  let p1 := "10.0.0.1-1000" in
  let p2 := "10.0.0.2-2000" in
  let s := run [(e1, Join (VNum (num_of_Z 7))); (e2, Join (VNum (num_of_Z 3)));
                (e2, Attack (VStr p2) (VStr p1) (VNum (num_of_Z 50)))] init in
  let out := heal e1 VNull (VStr p1) (VNum (num_of_Z 70)) s in
  exists target',
    map_get p1 (players (fst out)) = Some target' /\
    js_eq (Player.health target') num100 = true.
Proof.
  intros e1 e2 p1 p2 s out.
  destruct (heal_outcomes e1 VNull (VStr p1) (VNum (num_of_Z 70)) s
              (fst out) (snd out) eq_refl eq_refl)
    as (tid & target & target' & amt & Ht & Hg & Hg' & _ & _ & _ & _ & _ & _
        & _ & _ & _ & Hpos & _ & Hnum).
  injection Ht as <-. injection Hg as <-.
  assert (Hamt : amt = num_of_Z 70) by (apply Hpos; reflexivity).
  subst amt.
  exists target'. split; [exact Hg'|].
  destruct Hnum as (_ & _ & Hfull & _).
  - split; reflexivity.
  - discriminate.
  - apply Hfull. reflexivity.
Defined.

(** X11.  An attack answered with 200 on a target whose health is
    within [0,100], with a [damage] that is not [NaN].  The damage
    applied is 10 when [damage] is not a number, [damage] itself when it
    is above 0 and 0 when it is at most 0.  The attack kills exactly
    when the damage applied is at least the target's health; when it
    does not kill, the target's new health is above 0 and not above the
    old health; in both cases it stays within [0,100].  When the damage
    applied is 0 and the target's health is above 0 there is no kill and
    the health stays as it is. *)
Theorem attack_outcomes e attackerId targetId damage s s' r :
  attack e attackerId targetId damage s = (s', r) ->
  status r = 200 ->
  exists tid target target' attacker' killed dmg,
    targetId = VStr tid /\
    map_get tid (players s) = Some target /\
    map_get tid (players s') = Some target' /\
    content r = BAttack attacker' target' killed (flagHolder s') /\
    same_identity target target' /\
    Player.team target' = Player.team target /\
    Player.kills target' = Player.kills target /\
    teams s' = teams s /\ nextPlayerNumber s' = nextPlayerNumber s /\
    ((forall n, damage <> VNum n) -> dmg = num_of_Z 10) /\
    (forall n, damage = VNum n -> js_lt num0 n = true -> dmg = n) /\
    (forall n, damage = VNum n -> js_le n num0 = true -> dmg = num0) /\
    (in_range (Player.health target) -> damage <> VNum NaN ->
     in_range (Player.health target') /\
     (killed = true <-> js_le (Player.health target) dmg = true) /\
     (killed = false ->
      js_le (Player.health target') (Player.health target) = true /\
      js_lt num0 (Player.health target') = true) /\
     (js_le dmg num0 = true -> js_lt num0 (Player.health target) = true ->
      killed = false /\
      js_eq (Player.health target') (Player.health target) = true)).
Proof.
  unfold attack. intros Hrun Hst.
  destruct (find_player attackerId (players s)) as [[aid attacker]|] eqn:Ea;
    [|injection Hrun as <- <-; discriminate].
  destruct (find_player targetId (players s)) as [[tid target]|] eqn:Et;
    [|injection Hrun as <- <-; discriminate].
  destruct (String.eqb_spec aid tid) as [Heq|Hne];
    [injection Hrun as <- <-; discriminate|].
  apply find_player_Some in Ea as (_ & _ & Hga).
  apply find_player_Some in Et as (-> & _ & Hgt).
  cbn [Player.health Player.with_health] in Hrun.
  destruct (amount_or_cases 10 damage) as (Hdflt & Hpos & Hneg).
  set (dmg := amount_or 10 damage) in *.
  set (floored := Math_max num0 (js_sub (Player.health target) dmg)) in *.
  assert (Hnum : in_range (Player.health target) -> damage <> VNum NaN ->
                 in_range floored /\
                 (js_eq floored num0 = true
                  <-> js_le (Player.health target) dmg = true) /\
                 (js_eq floored num0 = false ->
                  js_le floored (Player.health target) = true /\
                  js_lt num0 floored = true /\
                  js_eq floored (js_sub (Player.health target) dmg) = true) /\
                 (js_le dmg num0 = true ->
                  js_lt num0 (Player.health target) = true ->
                  js_le (Player.health target) dmg = false /\
                  js_eq floored (Player.health target) = true)).
  { intros Hh Hd.
    assert (Hdmg : dmg = PosInf \/ exists q, dmg = Finite q /\ (0 <= q)%Q).
    { apply amount_or_nonneg; [lia | exact Hd]. }
    split; [apply attack_in_range; assumption|].
    split; [apply attack_result; assumption|].
    split; [apply attack_result; assumption|].
    apply attack_no_damage; assumption. }
  destruct (js_eq floored num0) eqn:Ekill; injection Hrun as <- <-.
  - exists tid, target. eexists. eexists. exists true, dmg.
    split; [reflexivity|]. split; [exact Hgt|].
    split; [cbn [players logEvent with_events with_flagHolder with_players];
            rewrite map_get_set_other by exact Hne;
            apply map_get_set_same |].
    split; [reflexivity|]. split; [repeat split|].
    split; [reflexivity|]. split; [reflexivity|].
    split; [reflexivity|]. split; [reflexivity|].
    split; [exact Hdflt|]. split; [exact Hpos|]. split; [exact Hneg|].
    intros Hh Hd. destruct (Hnum Hh Hd) as (_ & Hiff & _ & Hnone).
    cbn [Player.health Player.with_health].
    split; [exact in_range_100|].
    split; [split; [intros _; apply Hiff; reflexivity | reflexivity] |].
    split; [discriminate|].
    intros Hle Hp. destruct (Hnone Hle Hp) as [Hno _].
    rewrite (proj1 Hiff eq_refl) in Hno. discriminate.
  - exists tid, target. eexists. eexists. exists false, dmg.
    split; [reflexivity|]. split; [exact Hgt|].
    split; [cbn [players logEvent with_events with_flagHolder with_players];
            apply map_get_set_same |].
    split; [reflexivity|]. split; [repeat split|].
    split; [reflexivity|]. split; [reflexivity|].
    split; [reflexivity|]. split; [reflexivity|].
    split; [exact Hdflt|]. split; [exact Hpos|]. split; [exact Hneg|].
    intros Hh Hd. destruct (Hnum Hh Hd) as (Hr & Hiff & Hlive & Hnone).
    cbn [Player.health Player.with_health]. fold dmg floored.
    destruct (Hlive eq_refl) as (Hle & Hp0 & _).
    split; [exact Hr|].
    split; [split; [discriminate | intros H; apply Hiff in H; discriminate] |].
    split; [intros _; auto|].
    intros Hz Hp. split; [reflexivity|]. apply (Hnone Hz Hp).
Qed.

Lemma attack_outcomes_witness :
  let e1 := mkEnv 1000 "10.0.0.1" in
  let e2 := mkEnv 2000 "10.0.0.2" in
  let p1 := "10.0.0.1-1000" in
  let p2 := "10.0.0.2-2000" in
  let s := run [(e1, Join (VNum (num_of_Z 7)));
                (e2, Join (VNum (num_of_Z 3)))] init in
  let out := attack e2 (VStr p2) (VStr p1) (VNum (num_of_Z (-40))) s in
  exists target',
    map_get p1 (players (fst out)) = Some target' /\
    js_eq (Player.health target') num100 = true.
Proof.
  intros e1 e2 p1 p2 s out.
  destruct (attack_outcomes e2 (VStr p2) (VStr p1) (VNum (num_of_Z (-40))) s
              (fst out) (snd out) eq_refl eq_refl)
    as (tid & target & target' & attacker' & killed & dmg & Ht & Hg & Hg' & _
        & _ & _ & _ & _ & _ & _ & _ & Hneg & Hnum).
  injection Ht as <-. injection Hg as <-.
  assert (Hdmg : dmg = num0) by (apply (Hneg (num_of_Z (-40))); reflexivity).
  subst dmg.
  exists target'. split; [exact Hg'|].
  destruct Hnum as (_ & _ & _ & Hnone).
  - split; reflexivity.
  - discriminate.
  - apply Hnone; reflexivity.
Defined.

(** ** Removing players *)

Lemma map_get_delete_same {A} k (m : jsmap A) :
  NoDup (map_keys m) -> map_get k (map_delete k m) = None.
Proof.
  induction m as [|[k0 a0] m IH]; simpl; [reflexivity|].
  intros Hnd. inversion Hnd as [|x l Hnotin Hnd']; subst.
  destruct (String.eqb_spec k0 k) as [->|Hne].
  - apply map_get_None_keys. exact Hnotin.
  - simpl. apply String.eqb_neq in Hne. rewrite Hne. apply IH. exact Hnd'.
Qed.

Lemma map_delete_length {A} k (a : A) m :
  map_get k m = Some a ->
  S (List.length (map_delete k m)) = List.length m.
Proof.
  intros Hg. destruct (map_delete_split k a m Hg) as (m1 & m2 & -> & -> & _).
  rewrite !length_app. simpl. lia.
Qed.

Lemma map_delete_appended {A} k (a : A) m :
  map_get k m = None -> map_delete k (m ++ [(k, a)])%list = m.
Proof.
  induction m as [|[k0 a0] m IH]; simpl.
  - rewrite String.eqb_refl. reflexivity.
  - destruct (k0 =? k)%string; [discriminate|].
    intros H. rewrite (IH H). reflexivity.
Qed.

Lemma map_delete_absent {A} k (m : jsmap A) :
  map_get k m = None -> map_delete k m = m.
Proof.
  induction m as [|[k0 a0] m IH]; simpl; [reflexivity|].
  destruct (k0 =? k)%string; [discriminate|].
  intros H. rewrite (IH H). reflexivity.
Qed.

Lemma players_key_shape s k p :
  reachable s -> map_get k (players s) = Some p ->
  exists t, k = make_id (Player.ip p) t.
Proof.
  intros Hs Hg.
  destruct (roster_ok_reachable s Hs) as (_ & Hall & _).
  rewrite Forall_forall in Hall.
  destruct (Hall _ (map_get_In _ _ _ Hg)) as (_ & Hid & _).
  exact Hid.
Qed.

Lemma reachable_key_nonempty s : reachable s -> map_get "" (players s) = None.
Proof.
  intros Hs. destruct (map_get "" (players s)) as [p|] eqn:Hg; [|reflexivity].
  destruct (players_key_shape s "" p Hs Hg) as [t Ht].
  exfalso. symmetry in Ht. apply (make_id_nonempty _ _ Ht).
Qed.

(** X12.  Deleting an active player through DELETE /api/player/:id in a
    reachable state is answered 200 and removes exactly that player: the
    id is no longer found, every other id resolves as before and the map
    is one entry shorter.  The flag holder is cleared when it was that
    player and kept otherwise, so a holder that was active stays active;
    teams and counter are untouched; and deleting the same id again is
    answered 404. *)
Theorem remove_outcomes e e' id s p :
  reachable s -> map_get id (players s) = Some p ->
  let out := remove e id s in
  status (snd out) = 200 /\
  map_get id (players (fst out)) = None /\
  (forall k, k <> id ->
             map_get k (players (fst out)) = map_get k (players s)) /\
  S (List.length (players (fst out))) = List.length (players s) /\
  (flagHolder s = Some id -> flagHolder (fst out) = None) /\
  (flagHolder s <> Some id -> flagHolder (fst out) = flagHolder s) /\
  (holder_active s -> holder_active (fst out)) /\
  teams (fst out) = teams s /\
  nextPlayerNumber (fst out) = nextPlayerNumber s /\
  snd (remove e' id (fst out)) = fail 404 "Player not found".
Proof.
  intros Hs Hg out. subst out.
  destruct (roster_ok_reachable s Hs) as (Hkeys & _).
  assert (Hgone : map_get id (map_delete id (players s)) = None).
  { apply map_get_delete_same. exact Hkeys. }
  assert (Hstep : holder_active s ->
                  holder_active (fst (handle e (Remove id) s))).
  { apply holder_active_step. intros [x Hx]. discriminate. }
  simpl in Hstep.
  unfold remove in *. rewrite Hg in *.
  pose proof (holds_iff (flagHolder s) id) as Hh.
  destruct (holds (flagHolder s) id) eqn:E; cbn [fst snd] in *;
    cbn [players flagHolder teams nextPlayerNumber logEvent with_events
         with_players with_flagHolder] in *;
    rewrite Hgone.
  - repeat split; try reflexivity; try assumption.
    + intros k Hk. apply map_get_delete_other. congruence.
    + apply (map_delete_length id p). exact Hg.
    + intros H. exfalso. apply H. apply Hh. reflexivity.
  - repeat split; try reflexivity; try assumption.
    + intros k Hk. apply map_get_delete_other. congruence.
    + apply (map_delete_length id p). exact Hg.
    + intros H. apply Hh in H. discriminate.
Qed.

Lemma remove_outcomes_witness :
  let e1 := mkEnv 1000 "10.0.0.1" in
  let p1 := "10.0.0.1-1000" in
  let s := run [(e1, Join (VNum (num_of_Z 7)));
                (e1, ObtainFlag (VStr p1))] init in
  flagHolder s = Some p1 /\
  flagHolder (fst (remove e1 p1 s)) = None /\
  snd (remove e1 p1 (fst (remove e1 p1 s))) = fail 404 "Player not found".
Proof.
  intros e1 p1 s.
  destruct (remove_outcomes e1 e1 p1 s
              (Player.mk p1 4 (num_of_Z 7) "Player 7" "10.0.0.1" "blue"
                         num0 num100 1000))
    as (_ & _ & _ & _ & Hclear & _ & _ & _ & _ & Hagain).
  - exists [(e1, Join (VNum (num_of_Z 7))); (e1, ObtainFlag (VStr p1))].
    reflexivity.
  - reflexivity.
  - split; [reflexivity|]. split; [apply Hclear; reflexivity | exact Hagain].
Defined.

(** X13.  Joining and then deleting the new player gives back the map
    of players as it was before the join, with teams and, when the flag
    holder was active, the flag holder unchanged; what remains of the
    pair is the display counter, which has moved by one. *)
Theorem join_then_remove e e' code s s1 id p :
  reachable s ->
  join e code s = (s1, ok (BJoin id p)) ->
  let s2 := fst (remove e' id s1) in
  status (snd (remove e' id s1)) = 200 /\
  players s2 = players s /\
  teams s2 = teams s /\
  nextPlayerNumber s2 = nextPlayerNumber s + 1 /\
  (holder_active s -> flagHolder s2 = flagHolder s).
Proof.
  intros Hs Hjoin s2. subst s2.
  pose proof (join_cases e code s) as Hcases. rewrite Hjoin in Hcases.
  inversion Hcases as
    [r0 Hbad Hst | r0 Hok Huse Hst | r0 Hok Hfree Huse Hst
    | c p0 s0 Hc Hok Hfree Hipfree Hp Hpl Hnext Hteams Hholder Hev];
    try discriminate.
  subst s0 code.
  assert (Hidp : id = Player.id p) by congruence.
  assert (Hpp : p0 = p) by congruence. subst p0. subst id.
  destruct (roster_add e s c p (roster_ok_reachable s Hs) Hok Hfree Hipfree Hp)
    as [Hfresh _].
  rewrite (map_set_fresh _ _ _ Hfresh) in Hpl.
  assert (Hg1 : map_get (Player.id p) (players s1) = Some p).
  { rewrite Hpl.
    rewrite <- (map_set_fresh _ _ _ Hfresh). apply map_get_set_same. }
  unfold remove. rewrite Hg1.
  assert (Hdel : map_delete (Player.id p) (players s1) = players s).
  { rewrite Hpl. apply map_delete_appended. exact Hfresh. }
  destruct (holds (flagHolder s1) (Player.id p)) eqn:E; cbn [fst snd];
    cbn [players flagHolder teams nextPlayerNumber logEvent with_events
         with_players with_flagHolder];
    rewrite Hdel.
  - split; [reflexivity|]. split; [reflexivity|]. split; [exact Hteams|].
    split; [exact Hnext|].
    intros Hact. apply holds_iff in E. rewrite Hholder in E.
    unfold holder_active in Hact. rewrite E in Hact.
    apply map_has_true in Hact as [q Hq]. congruence.
  - split; [reflexivity|]. split; [reflexivity|]. split; [exact Hteams|].
    split; [exact Hnext|]. intros _. exact Hholder.
Qed.

Lemma join_then_remove_witness :
  let e1 := mkEnv 1000 "10.0.0.1" in
  let e2 := mkEnv 2000 "10.0.0.2" in
  let s := run [(e1, Join (VNum (num_of_Z 7)))] init in
  let s1 := fst (join e2 (VNum (num_of_Z 3)) s) in
  players (fst (remove e2 "10.0.0.2-2000" s1)) = players s /\
  nextPlayerNumber (fst (remove e2 "10.0.0.2-2000" s1)) = 6.
Proof.
  intros e1 e2 s s1.
  destruct (join_then_remove e2 e2 (VNum (num_of_Z 3)) s s1 "10.0.0.2-2000"
              (Player.mk "10.0.0.2-2000" 5 (num_of_Z 3) "Player 3" "10.0.0.2"
                         "red" num0 num100 2000))
    as (_ & Hp & _ & Hn & _).
  - exists [(e1, Join (VNum (num_of_Z 7)))]. reflexivity.
  - reflexivity.
  - split; [exact Hp | exact Hn].
Defined.

(** X14.  In a reachable state the legacy endpoint POST
    /api/player/leave, given a string id, is answered with the same
    status as DELETE /api/player/:id and leaves the same map of players;
    unlike DELETE it writes no log line and never touches the flag
    holder. *)
Theorem leave_deletes_like_remove e k s :
  reachable s ->
  status (snd (leave (VStr k) s)) = status (snd (remove e k s)) /\
  players (fst (leave (VStr k) s)) = players (fst (remove e k s)) /\
  events (fst (leave (VStr k) s)) = events s /\
  flagHolder (fst (leave (VStr k) s)) = flagHolder s /\
  teams (fst (leave (VStr k) s)) = teams s.
Proof.
  intros Hs. unfold leave, remove.
  destruct (map_get k (players s)) as [p|] eqn:Hg.
  - assert (Hk : k <> "").
    { intros ->. rewrite (reachable_key_nonempty s Hs) in Hg. discriminate. }
    rewrite (find_player_VStr k _ p Hk Hg).
    destruct (holds (flagHolder s) k); repeat split.
  - assert (Hf : find_player (VStr k) (players s) = None).
    { destruct (find_player (VStr k) (players s)) as [[k' p']|] eqn:Ef;
        [|reflexivity].
      apply find_player_Some in Ef as ([= <-] & _ & Hg'). congruence. }
    rewrite Hf. repeat split.
Qed.

Lemma leave_deletes_like_remove_witness :
  let e1 := mkEnv 1000 "10.0.0.1" in
  let p1 := "10.0.0.1-1000" in
  let s := run [(e1, Join (VNum (num_of_Z 7)))] init in
  players (fst (leave (VStr p1) s)) = [] /\
  players (fst (remove e1 p1 s)) = [].
Proof.
  intros e1 p1 s.
  destruct (leave_deletes_like_remove e1 p1 s) as (_ & Hp & _).
  - exists [(e1, Join (VNum (num_of_Z 7)))]. reflexivity.
  - split; [rewrite Hp|]; reflexivity.
Defined.

(** ** Restart and rejoining *)

Lemma handle_same_labels e r s :
  same_labels (teams s) (teams (fst (handle e r s))).
Proof.
  destruct r; simpl;
    [ unfold getPlayers | unfold getEvents | unfold join; destruct code
    | unfold update | unfold remove | unfold capture | unfold obtain
    | unfold attack | unfold heal | unfold changeTeam; destruct team
    | unfold leave | unfold restart ];
    handler_cases;
    try match goal with
      | |- context [increment_flagsCaptured ?t ?m] =>
          pose proof (increment_same_labels t m);
          destruct (increment_flagsCaptured t m)
      end;
    cbn [fst snd]; handler_cases; cbn [fst snd];
    first [apply same_labels_refl | assumption | repeat split].
Qed.

Lemma same_labels_trans t1 t2 t3 :
  same_labels t1 t2 -> same_labels t2 t3 -> same_labels t1 t3.
Proof.
  intros (A1 & A2 & A3 & A4) (B1 & B2 & B3 & B4).
  repeat split; congruence.
Qed.

Lemma labels_reachable s : reachable s -> same_labels (teams init) (teams s).
Proof.
  intros [rs <-].
  apply (run_invariant (fun s => same_labels (teams init) (teams s))).
  - intros e r s H. eapply same_labels_trans; [exact H|].
    apply handle_same_labels.
  - apply same_labels_refl.
Qed.

(** X15.  From every reachable state [Restart] leads to the state the
    server starts in, except that the log holds the restart line: the
    team names and colours it keeps are the initial ones.  A second
    restart therefore changes nothing but the time of that line. *)
Theorem restart_returns_to_start e e' s :
  reachable s ->
  fst (handle e Restart s) = with_events [mkEvent (now e) MsgRestart] init /\
  fst (handle e' Restart (fst (handle e Restart s)))
  = with_events [mkEvent (now e') MsgRestart] init.
Proof.
  intros Hs.
  assert (H : forall e0 s0, same_labels (teams init) (teams s0) ->
                fst (handle e0 Restart s0)
                = with_events [mkEvent (now e0) MsgRestart] init).
  { intros e0 s0 (Hn1 & Hc1 & Hn2 & Hc2). simpl.
    unfold restart, logEvent, with_events, with_nextPlayerNumber,
      with_flagHolder, with_teams, with_players, init. simpl.
    f_equal. unfold Team.with_flagsCaptured.
    destruct (teams s0) as [[bn bf bc] [rn rf rc]]. simpl in *.
    subst. reflexivity. }
  split.
  - apply H. apply labels_reachable. exact Hs.
  - rewrite (H e s (labels_reachable s Hs)). apply H. apply same_labels_refl.
Qed.

Lemma restart_returns_to_start_witness :
  let e1 := mkEnv 1000 "10.0.0.1" in
  let e2 := mkEnv 2000 "10.0.0.2" in
  let s := run [(e1, Join (VNum (num_of_Z 7)));
                (e1, ObtainFlag (VStr "10.0.0.1-1000"));
                (e1, CaptureFlag (VStr "10.0.0.1-1000"))] init in
  Team.flagsCaptured (blue (teams s)) = 1 /\
  fst (handle e2 Restart s) = with_events [mkEvent 2000 MsgRestart] init.
Proof.
  intros e1 e2 s. split; [reflexivity|].
  refine (proj1 (restart_returns_to_start e2 e2 s _)).
  exists [(e1, Join (VNum (num_of_Z 7)));
          (e1, ObtainFlag (VStr "10.0.0.1-1000"));
          (e1, CaptureFlag (VStr "10.0.0.1-1000"))].
  reflexivity.
Defined.

Lemma deleted_projection_gone {B} (f : Player.t -> B) k p m q :
  NoDup (List.map f (map_values m)) ->
  map_get k m = Some p ->
  In q (map_values (map_delete k m)) -> In q (map_values m) /\ f q <> f p.
Proof.
  intros Hnd Hg Hin.
  destruct (map_delete_split k p m Hg) as (m1 & m2 & -> & Hd & _).
  rewrite Hd in Hin. unfold map_values in *.
  rewrite map_app in *. simpl in *. rewrite map_app in Hnd. simpl in Hnd.
  split.
  - apply in_app_iff in Hin. apply in_app_iff. simpl. tauto.
  - apply NoDup_remove_2 in Hnd. intros Heq. apply Hnd.
    rewrite <- Heq. rewrite <- map_app. apply in_map. exact Hin.
Qed.

(** X16.  "Leave first to rejoin": once an active player has been
    deleted (through DELETE or through the leave endpoint, in a
    reachable state), a join with that player's code from that player's
    address is accepted. *)
Theorem rejoin_after_remove e e' k p s :
  reachable s -> map_get k (players s) = Some p ->
  clientIP e' = Player.ip p ->
  status (snd (join e' (VNum (Player.code p)) (fst (remove e k s)))) = 200 /\
  status (snd (join e' (VNum (Player.code p)) (fst (leave (VStr k) s)))) = 200.
Proof.
  intros Hs Hg Hip.
  destruct (roster_ok_reachable s Hs) as (_ & Hall & Hips & Hcodes & _).
  rewrite Forall_forall in Hall.
  destruct (Hall _ (map_get_In _ _ _ Hg)) as (_ & _ & Hc & _). simpl in Hc.
  assert (Hjoin : forall s', players s' = map_delete k (players s) ->
                    status (snd (join e' (VNum (Player.code p)) s')) = 200).
  { intros s' Hpl.
    destruct (join_cases e' (VNum (Player.code p)) s')
      as [r Hbad | r _ Huse | r _ _ Huse | ]; simpl.
    - contradiction.
    - exfalso. destruct Huse as (q & n & Hin & [= <-] & Heq).
      rewrite Hpl in Hin.
      destruct (deleted_projection_gone code_number k p _ q Hcodes Hg Hin)
        as [Hq Hne].
      apply Hne. unfold code_number. apply same_code_number; try assumption.
      apply in_map_iff in Hq as (kq & <- & Hq). apply (Hall _ Hq).
    - exfalso. destruct Huse as (q & Hin & Heq).
      rewrite Hpl in Hin.
      destruct (deleted_projection_gone Player.ip k p _ q Hips Hg Hin)
        as [_ Hne].
      apply Hne. congruence.
    - reflexivity. }
  split.
  - apply Hjoin. unfold remove. rewrite Hg.
    destruct (holds (flagHolder s) k); reflexivity.
  - apply Hjoin. unfold leave.
    assert (Hk : k <> "").
    { intros ->. rewrite (reachable_key_nonempty s Hs) in Hg. discriminate. }
    rewrite (find_player_VStr k _ p Hk Hg). reflexivity.
Qed.

Lemma rejoin_after_remove_witness :
  let e1 := mkEnv 1000 "10.0.0.1" in
  let e2 := mkEnv 5000 "10.0.0.1" in
  let p1 := "10.0.0.1-1000" in
  let s := run [(e1, Join (VNum (num_of_Z 7)))] init in
  status (snd (join e2 (VNum (num_of_Z 7)) s)) = 409 /\
  status (snd (join e2 (VNum (num_of_Z 7)) (fst (remove e1 p1 s)))) = 200.
Proof.
  intros e1 e2 p1 s. split; [reflexivity|].
  refine (proj1 (rejoin_after_remove e1 e2 p1
                   (Player.mk p1 4 (num_of_Z 7) "Player 7" "10.0.0.1" "blue"
                              num0 num100 1000) s _ _ _)).
  - exists [(e1, Join (VNum (num_of_Z 7)))]. reflexivity.
  - reflexivity.
  - reflexivity.
Defined.

(** ** Listing players *)

Lemma In_map_get {A} k (a : A) m :
  NoDup (map_keys m) -> In (k, a) m -> map_get k m = Some a.
Proof.
  induction m as [|[k0 a0] m IH]; simpl; [contradiction|].
  intros Hnd Hin. inversion Hnd as [|x l Hnotin Hnd']; subst.
  destruct Hin as [[= -> ->] | Hin].
  - rewrite String.eqb_refl. reflexivity.
  - destruct (String.eqb_spec k0 k) as [->|Hne].
    + exfalso. apply Hnotin. unfold map_keys.
      apply in_map_iff. exists (k, a). auto.
    + apply IH; assumption.
Qed.

(** X17.  GET /api/players changes nothing and lists the active players
    in the order they joined, with the teams and the flag holder.  In a
    reachable state [myPlayerId] is the id of the one active player who
    joined from the caller's address, and [null] exactly when no active
    player has that address. *)
Theorem getPlayers_identifies_caller e s :
  reachable s ->
  exists mine,
    getPlayers e s
    = (s, ok (BPlayers (map_values (players s)) (teams s) (flagHolder s)
                       mine)) /\
    (forall k, mine = Some k <->
               exists p, map_get k (players s) = Some p /\
                         Player.ip p = clientIP e) /\
    (mine = None <-> ~ ip_in_use (clientIP e) s).
Proof.
  intros Hs.
  destruct (roster_ok_reachable s Hs) as (Hkeys & Hall & Hips & _).
  rewrite Forall_forall in Hall.
  unfold getPlayers. eexists. split; [reflexivity|].
  destruct (find (fun p => (Player.ip p =? clientIP e)%string)
                 (map_values (players s))) as [q|] eqn:Ef; simpl.
  - apply find_some in Ef as [Hin Hip]. apply String.eqb_eq in Hip.
    pose proof Hin as Hin'.
    apply in_map_iff in Hin' as ([kq q'] & Hq & Hkq). simpl in Hq. subst q'.
    destruct (Hall _ Hkq) as (Hid & _). simpl in Hid.
    pose proof (In_map_get kq q _ Hkeys Hkq) as Hg.
    split.
    + intros k. split.
      * intros [= <-]. exists q. rewrite <- Hid. auto.
      * intros (p & Hgp & Hp).
        destruct (values_projection_injective Player.ip (players s)
                    k p kq q Hips Hgp Hg) as [-> ->]; [congruence|].
        rewrite Hid. reflexivity.
    + split; [discriminate|]. intros H. exfalso. apply H.
      exists q. auto.
  - split.
    + intros k. split; [discriminate|].
      intros (p & Hgp & Hp). exfalso.
      pose proof (find_none _ _ Ef p) as Hn.
      assert (Hin : In p (map_values (players s))).
      { unfold map_values. apply in_map_iff. exists (k, p).
        split; [reflexivity | apply map_get_In; exact Hgp]. }
      specialize (Hn Hin). simpl in Hn.
      apply String.eqb_neq in Hn. contradiction.
    + split; [|reflexivity]. intros _ (p & Hin & Hp).
      pose proof (find_none _ _ Ef p Hin) as Hn. simpl in Hn.
      apply String.eqb_neq in Hn. contradiction.
Qed.

Lemma getPlayers_identifies_caller_witness :
  let e1 := mkEnv 1000 "10.0.0.1" in
  let e2 := mkEnv 2000 "10.0.0.2" in
  let s := run [(e1, Join (VNum (num_of_Z 7)));
                (e2, Join (VNum (num_of_Z 3)))] init in
  exists mine,
    getPlayers (mkEnv 9000 "10.0.0.2") s
    = (s, ok (BPlayers (map_values (players s)) (teams s) (flagHolder s)
                       mine)) /\
    mine = Some "10.0.0.2-2000".
Proof.
  intros e1 e2 s.
  destruct (getPlayers_identifies_caller (mkEnv 9000 "10.0.0.2") s)
    as (mine & Hout & Hiff & _).
  - exists [(e1, Join (VNum (num_of_Z 7))); (e2, Join (VNum (num_of_Z 3)))].
    reflexivity.
  - exists mine. split; [exact Hout|].
    apply Hiff.
    exists (Player.mk "10.0.0.2-2000" 5 (num_of_Z 3) "Player 3" "10.0.0.2"
                      "red" num0 num100 2000).
    split; reflexivity.
Defined.

(** ** The event log, continued *)

Lemma logEvent_room e m s :
  Z.of_nat (List.length (events s)) < 2000 ->
  events (logEvent e m s) = (events s ++ [mkEvent (now e) m])%list.
Proof.
  intros Hlt. rewrite logEvent_events. cbv zeta.
  rewrite length_app. simpl.
  destruct (Z.ltb_spec 2000 (Z.of_nat (List.length (events s) + 1)));
    [lia | reflexivity].
Qed.

Lemma appended_refl e l : appended e l l 0.
Proof. exists []. rewrite app_nil_r. repeat split. constructor. Qed.

Lemma appended_log e m s0 s n :
  appended e (events s0) (events s) n ->
  Z.of_nat (List.length (events s0)) + Z.of_nat n < 2000 ->
  appended e (events s0) (events (logEvent e m s)) (S n).
Proof.
  intros (new & Hev & Hlen & Hts) Hroom.
  exists (new ++ [mkEvent (now e) m])%list.
  rewrite logEvent_room.
  - rewrite Hev, app_assoc. split; [reflexivity|].
    split; [rewrite length_app; simpl; lia|].
    apply Forall_app. split; [exact Hts|]. repeat constructor.
  - rewrite Hev, length_app. lia.
Qed.

(** X18.  The log only grows at its end.  While at least three places
    are free, a request other than [Restart] keeps every entry of the
    log in place and appends at most three entries, each stamped with
    the clock of that request; a request that is not answered with 200
    appends none. *)
Theorem log_grows_at_the_end e r s :
  r <> Restart ->
  Z.of_nat (List.length (events s)) + 3 <= 2000 ->
  exists n, (n <= 3)%nat /\
            appended e (events s) (events (fst (handle e r s))) n /\
            (status (snd (handle e r s)) <> 200 -> n = 0%nat).
Proof.
  intros Hr Hroom.
  destruct r; simpl;
    [ unfold getPlayers | unfold getEvents | unfold join; destruct code
    | unfold update | unfold remove | unfold capture | unfold obtain
    | unfold attack | unfold heal | unfold changeTeam; destruct team
    | unfold leave | congruence ];
    handler_cases;
    try match goal with
      | |- context [increment_flagsCaptured ?t ?m] =>
          destruct (increment_flagsCaptured t m)
      end;
    cbn [fst snd]; handler_cases; cbn [fst snd];
    first
      [ solve [exists 0%nat; split; [lia|]; split;
               [apply appended_refl | reflexivity]]
      | solve [exists 1%nat; split; [lia|]; split;
               [apply (appended_log e _ s); [apply appended_refl | lia]
               | intros H; exfalso; apply H; reflexivity]]
      | solve [exists 3%nat; split; [lia|]; split;
               [apply (appended_log e _ s);
                [apply (appended_log e _ s);
                 [apply (appended_log e _ s); [apply appended_refl | lia]
                 | lia]
                | lia]
               | intros H; exfalso; apply H; reflexivity]] ].
Qed.

Lemma log_grows_at_the_end_witness :
  let e1 := mkEnv 1000 "10.0.0.1" in
  let e2 := mkEnv 2000 "10.0.0.2" in
  let s := run [(e1, Join (VNum (num_of_Z 7)));
                (e2, Join (VNum (num_of_Z 3)))] init in
  let r := Attack (VStr "10.0.0.2-2000") (VStr "10.0.0.1-1000")
                  (VNum (num_of_Z 100)) in
  exists n, (n <= 3)%nat /\
            appended e2 (events s) (events (fst (handle e2 r s))) n.
Proof.
  intros e1 e2 s r.
  destruct (log_grows_at_the_end e2 r s) as (n & Hn & Happ & _).
  - discriminate.
  - vm_compute. discriminate.
  - exists n. split; assumption.
Defined.

(** ** The flag holder, continued *)

(** X19.  As long as the legacy leave endpoint is not used, the flag
    holder is [null] or the id of an active player after every request:
    [flagHolder] always resolves in [players], to the player carrying
    that id. *)
Theorem holder_resolves_without_leave rs k :
  Forall (fun er => ~ is_leave (snd er)) rs ->
  flagHolder (run rs init) = Some k ->
  exists p, map_get k (players (run rs init)) = Some p /\ Player.id p = k.
Proof.
  intros Hrs Hh.
  pose proof (holder_active_run rs Hrs) as Hact.
  unfold holder_active in Hact. rewrite Hh in Hact.
  apply map_has_true in Hact as [p Hp].
  exists p. split; [exact Hp|].
  assert (Hs : reachable (run rs init)) by (exists rs; reflexivity).
  destruct (roster_ok_reachable _ Hs) as (_ & Hall & _).
  rewrite Forall_forall in Hall.
  destruct (Hall _ (map_get_In _ _ _ Hp)) as (Hid & _).
  symmetry. exact Hid.
Qed.

Lemma holder_resolves_without_leave_witness :
  let e1 := mkEnv 1000 "10.0.0.1" in
  let e2 := mkEnv 2000 "10.0.0.2" in
  let rs := [(e1, Join (VNum (num_of_Z 7))); (e2, Join (VNum (num_of_Z 3)));
             (e1, ObtainFlag (VStr "10.0.0.1-1000"));
             (e2, Remove "10.0.0.2-2000")] in
  exists p, map_get "10.0.0.1-1000" (players (run rs init)) = Some p /\
            Player.id p = "10.0.0.1-1000".
Proof.
  intros e1 e2 rs.
  apply (holder_resolves_without_leave rs "10.0.0.1-1000").
  - repeat constructor; simpl; intros [x Hx]; discriminate.
  - reflexivity.
Defined.

(** ** What a request never changes *)

(** X20.  While a player stays active, no request changes its id,
    display number, code, name, address or join time: if an id resolves
    before and after a request served in a reachable state, the two
    players agree on these six fields. *)
Theorem identity_is_frozen e r s k p p' :
  reachable s ->
  map_get k (players s) = Some p ->
  map_get k (players (fst (handle e r s))) = Some p' ->
  same_identity p p'.
Proof.
  intros Hs Hg Hg'.
  pose proof (roster_ok_reachable s Hs) as Hros.
  destruct (handle_players_change e r s)
    as [Hp Hn | k0 p0 p0' Hg0 Hid Hteam Hp Hn
       | k1 p1 p1' k2 p2 p2' Hne Hg1 Hid1 Ht1 Hg2 Hid2 Ht2 Hp Hn
       | c q Hc Hcode Hip Hq Hp Hn | k0 p0 Hg0 Hp Hn | Hp Hn];
    rewrite Hp in Hg'.
  - assert (p' = p) by congruence. subst. apply same_identity_refl.
  - destruct (String.eqb_spec k0 k) as [->|Hk].
    + rewrite map_get_set_same in Hg'.
      assert (p0 = p) by congruence. assert (p0' = p') by congruence.
      subst. exact Hid.
    + rewrite map_get_set_other in Hg' by exact Hk.
      assert (p' = p) by congruence. subst. apply same_identity_refl.
  - destruct (String.eqb_spec k1 k) as [->|Hk1].
    + rewrite map_get_set_same in Hg'.
      assert (p1 = p) by congruence. assert (p1' = p') by congruence.
      subst. exact Hid1.
    + rewrite map_get_set_other in Hg' by exact Hk1.
      destruct (String.eqb_spec k2 k) as [->|Hk2].
      * rewrite map_get_set_same in Hg'.
        assert (p2 = p) by congruence. assert (p2' = p') by congruence.
        subst. exact Hid2.
      * rewrite map_get_set_other in Hg' by exact Hk2.
        assert (p' = p) by congruence. subst. apply same_identity_refl.
  - destruct (roster_add e s c q Hros Hc Hcode Hip Hq) as [Hfresh _].
    rewrite map_get_set_other in Hg' by congruence.
    assert (p' = p) by congruence. subst. apply same_identity_refl.
  - destruct (String.eqb_spec k0 k) as [->|Hk].
    + destruct Hros as (Hkeys & _).
      rewrite (map_get_delete_same k _ Hkeys) in Hg'. discriminate.
    + rewrite map_get_delete_other in Hg' by exact Hk.
      assert (p' = p) by congruence. subst. apply same_identity_refl.
  - discriminate.
Qed.

Lemma identity_is_frozen_witness :
  let e1 := mkEnv 1000 "10.0.0.1" in
  let p1 := "10.0.0.1-1000" in
  let s := run [(e1, Join (VNum (num_of_Z 7)))] init in
  let r := UpdateStats (VStr p1) (VNum (num_of_Z 5)) (VNum (num_of_Z 40)) in
  same_identity
    (Player.mk p1 4 (num_of_Z 7) "Player 7" "10.0.0.1" "blue" num0 num100 1000)
    (Player.mk p1 4 (num_of_Z 7) "Player 7" "10.0.0.1" "blue"
               (num_of_Z 5) (num_of_Z 40) 1000).
Proof.
  intros e1 p1 s r.
  apply (identity_is_frozen e1 r s p1).
  - exists [(e1, Join (VNum (num_of_Z 7)))]. reflexivity.
  - reflexivity.
  - reflexivity.
Defined.

(** ** The client address *)

Lemma first_field_no_comma s : has_char "," (first_field s) = false.
Proof.
  induction s as [|c s IH]; simpl; [reflexivity|].
  destruct (Ascii.eqb c ",") eqn:E; simpl; [reflexivity|].
  rewrite E, IH. reflexivity.
Qed.

Lemma trim_start_keeps_absent c s :
  has_char c s = false -> has_char c (trim_start s) = false.
Proof.
  induction s as [|x s IH]; simpl; [reflexivity|].
  intros H. apply orb_false_elim in H as [Hx Hs].
  destruct (is_space x); [apply IH; exact Hs|].
  simpl. rewrite Hx, Hs. reflexivity.
Qed.

Lemma trim_end_keeps_absent c s :
  has_char c s = false -> has_char c (trim_end s) = false.
Proof.
  induction s as [|x s IH]; simpl; [reflexivity|].
  intros H. apply orb_false_elim in H as [Hx Hs]. specialize (IH Hs).
  destruct (trim_end s) as [|y t]; simpl in *.
  - destruct (is_space x); simpl; [reflexivity|].
    rewrite Hx. reflexivity.
  - rewrite Hx. exact IH.
Qed.

Lemma trim_start_first s : starts_with_space (trim_start s) = false.
Proof.
  induction s as [|c s IH]; simpl; [reflexivity|].
  destruct (is_space c) eqn:E; [exact IH | simpl; exact E].
Qed.

Lemma trim_end_first s :
  starts_with_space s = false -> starts_with_space (trim_end s) = false.
Proof.
  destruct s as [|c s]; simpl; [reflexivity|].
  intros Hc. destruct (trim_end s); [rewrite Hc|]; simpl; auto.
Qed.

Lemma trim_end_last s : ends_with_space (trim_end s) = false.
Proof.
  induction s as [|c s IH]; simpl; [reflexivity|].
  destruct (trim_end s) as [|y t].
  - destruct (is_space c) eqn:E; simpl; [reflexivity | exact E].
  - exact IH.
Qed.

Lemma or_else_nonempty a b : b <> "" -> or_else a b <> "".
Proof.
  intros Hb. destruct a as [s|]; simpl; [|exact Hb].
  destruct (String.eqb_spec s ""); assumption.
Qed.

(** X21.  The address [getClientIP] resolves is never the empty string.
    When the [x-forwarded-for] header has a first comma-separated field
    that is not blank, the address is that field with the white space
    at both ends removed: it contains no comma and neither starts nor
    ends with white space.  Otherwise it is the socket's remote address,
    or "unknown" when that is missing or empty. *)
Theorem getClientIP_resolves o :
  getClientIP o <> "" /\
  (forall h, forwardedFor o = Some h -> trim (first_field h) <> "" ->
             getClientIP o = trim (first_field h) /\
             has_char "," (getClientIP o) = false /\
             starts_with_space (getClientIP o) = false /\
             ends_with_space (getClientIP o) = false) /\
  ((forall h, forwardedFor o = Some h -> trim (first_field h) = "") ->
   (forall a, remoteAddress o = Some a -> a <> "" -> getClientIP o = a) /\
   (remoteAddress o = None \/ remoteAddress o = Some "" ->
    getClientIP o = "unknown")).
Proof.
  unfold getClientIP. split.
  { apply or_else_nonempty. apply or_else_nonempty. discriminate. }
  split.
  - intros h Hh Hne. rewrite Hh. simpl.
    destruct (String.eqb_spec (trim (first_field h)) "") as [He|_];
      [contradiction|].
    split; [reflexivity|]. unfold trim.
    split; [apply trim_end_keeps_absent, trim_start_keeps_absent,
            first_field_no_comma|].
    split; [apply trim_end_first, trim_start_first | apply trim_end_last].
  - intros Hblank.
    assert (Hfwd : or_else (option_map (fun h => trim (first_field h))
                                       (forwardedFor o))
                           (or_else (remoteAddress o) "unknown")
                   = or_else (remoteAddress o) "unknown").
    { destruct (forwardedFor o) as [h|]; simpl; [|reflexivity].
      rewrite (Hblank h eq_refl). reflexivity. }
    rewrite Hfwd. split.
    + intros a -> Ha. simpl.
      destruct (String.eqb_spec a ""); [contradiction | reflexivity].
    + intros [-> | ->]; reflexivity.
Qed.

Lemma getClientIP_resolves_witness :
  let o := mkOrigin (Some "  203.0.113.7 , 10.0.0.1") (Some "10.0.0.9") in
  getClientIP o = "203.0.113.7" /\
  has_char "," (getClientIP o) = false /\
  getClientIP (mkOrigin (Some " ,10.0.0.1") None) = "unknown".
Proof.
  intros o.
  destruct (getClientIP_resolves o) as (_ & Hfwd & _).
  destruct (Hfwd "  203.0.113.7 , 10.0.0.1" eq_refl) as (Heq & Hcomma & _).
  - vm_compute. discriminate.
  - split; [rewrite Heq; reflexivity|]. split; [exact Hcomma|].
    destruct (getClientIP_resolves (mkOrigin (Some " ,10.0.0.1") None))
      as (_ & _ & Hrest).
    apply Hrest.
    + intros h [= <-]. reflexivity.
    + left. reflexivity.
Defined.

(** ** The local addresses *)

Lemma push_addresses_filter results infos :
  push_addresses results infos
  = (results ++ List.map address (filter is_lan_ipv4 infos))%list.
Proof.
  unfold push_addresses. revert results.
  induction infos as [|n infos IH]; intros results; simpl.
  - rewrite app_nil_r. reflexivity.
  - rewrite IH. unfold is_lan_ipv4.
    destruct ((family n =? "IPv4")%string && negb (internal n)); simpl.
    + rewrite <- app_assoc. reflexivity.
    + reflexivity.
Qed.

Lemma getLocalIPs_from results nets :
  fold_left (fun acc (entry : string * list net_info) =>
               push_addresses acc (snd entry)) nets results
  = (results
     ++ flat_map (fun entry : string * list net_info =>
                   List.map address (filter is_lan_ipv4 (snd entry)))
                 nets)%list.
Proof.
  revert results. induction nets as [|entry nets IH]; intros results; simpl.
  - rewrite app_nil_r. reflexivity.
  - rewrite IH, push_addresses_filter, <- app_assoc. reflexivity.
Qed.

(** X22.  [getLocalIPs] returns, in enumeration order, the addresses of
    exactly those interface entries whose family is "IPv4" and that are
    not internal: an address is in the result if and only if such an
    entry carries it, and the result is empty if and only if there is no
    such entry. *)
Theorem getLocalIPs_selects nets :
  getLocalIPs nets
  = flat_map (fun entry : string * list net_info =>
                   List.map address (filter is_lan_ipv4 (snd entry)))
             nets /\
  (forall a, In a (getLocalIPs nets) <->
             exists name infos net,
               In (name, infos) nets /\ In net infos /\
               family net = "IPv4" /\ internal net = false /\
               address net = a) /\
  (getLocalIPs nets = [] <->
   forall name infos net,
     In (name, infos) nets -> In net infos -> is_lan_ipv4 net = false).
Proof.
  assert (Heq : getLocalIPs nets
                = flat_map (fun entry : string * list net_info =>
                              List.map address (filter is_lan_ipv4 (snd entry)))
                           nets).
  { unfold getLocalIPs. rewrite getLocalIPs_from. reflexivity. }
  assert (Hmem : forall a, In a (getLocalIPs nets) <->
             exists name infos net,
               In (name, infos) nets /\ In net infos /\
               family net = "IPv4" /\ internal net = false /\
               address net = a).
  { intros a. rewrite Heq, in_flat_map. split.
    - intros ([name infos] & Hin & Ha). simpl in Ha.
      apply in_map_iff in Ha as (net & Haddr & Hnet).
      apply filter_In in Hnet as [Hnet Hok].
      unfold is_lan_ipv4 in Hok. apply andb_true_iff in Hok as [Hf Hi].
      apply String.eqb_eq in Hf. apply negb_true_iff in Hi.
      exists name, infos, net. auto.
    - intros (name & infos & net & Hin & Hnet & Hf & Hi & Haddr).
      exists (name, infos). split; [exact Hin|]. simpl.
      apply in_map_iff. exists net. split; [exact Haddr|].
      apply filter_In. split; [exact Hnet|].
      unfold is_lan_ipv4. rewrite Hf, Hi. reflexivity. }
  split; [exact Heq|]. split; [exact Hmem|]. split.
  - intros Hnil name infos net Hin Hnet.
    destruct (is_lan_ipv4 net) eqn:E; [|reflexivity]. exfalso.
    assert (Ha : In (address net) (getLocalIPs nets)).
    { apply Hmem. exists name, infos, net.
      unfold is_lan_ipv4 in E. apply andb_true_iff in E as [Hf Hi].
      apply String.eqb_eq in Hf. apply negb_true_iff in Hi. auto. }
    rewrite Hnil in Ha. contradiction.
  - intros Hnone. destruct (getLocalIPs nets) as [|a l] eqn:E; [reflexivity|].
    exfalso.
    assert (Ha : In a (a :: l)) by (left; reflexivity).
    apply Hmem in Ha as (name & infos & net & Hin & Hnet & Hf & Hi & _).
    specialize (Hnone name infos net Hin Hnet).
    unfold is_lan_ipv4 in Hnone. rewrite Hf, Hi in Hnone. discriminate.
Qed.

Lemma getLocalIPs_selects_witness :
  let nets := [("lo", [mkNet "127.0.0.1" "IPv4" true;
                       mkNet "::1" "IPv6" true]);
               ("eth0", [mkNet "192.168.1.20" "IPv4" false;
                         mkNet "fe80::1" "IPv6" false])] in
  getLocalIPs nets = ["192.168.1.20"] /\
  getLocalIPs [("lo", [mkNet "127.0.0.1" "IPv4" true])] = [].
Proof.
  intros nets. split; [reflexivity|].
  apply (proj2 (proj2 (getLocalIPs_selects _))).
  intros name infos net [[= <- <-] | []] [<- | []]. reflexivity.
Defined.

(** ** Joining, continued *)

(** X23.  A join is accepted exactly when [code] is an integer in
    [0,99] that no active player has and the caller's address has no
    active player.  The accepted player is stored under the id built
    from the address and the clock, which is also the id in the
    response, and carries the code, the address, the clock reading as
    join time and the name "Player " followed by the code. *)
Theorem join_accepts_iff e code s :
  (status (snd (join e code s)) = 200 <->
   is_code code /\ ~ code_in_use code s /\ ~ ip_in_use (clientIP e) s) /\
  (forall id p,
      snd (join e code s) = ok (BJoin id p) ->
      id = make_id (clientIP e) (now e) /\
      Player.id p = id /\
      VNum (Player.code p) = code /\
      Player.ip p = clientIP e /\
      Player.joinedAt p = now e /\
      Player.name p = "Player " ++ show_Z (code_number p) /\
      map_get id (players (fst (join e code s))) = Some p).
Proof.
  destruct (join_cases e code s)
    as [r Hbad Hst | r Hok Huse Hst | r Hok Hfree Huse Hst
       | c p s0 Hc Hok Hfree Hipfree Hp Hpl Hnext Hteams Hholder Hev];
    cbn [fst snd].
  - split; [split; [rewrite Hst; discriminate | tauto]|].
    intros id p ->. discriminate.
  - split; [split; [rewrite Hst; discriminate | tauto]|].
    intros id p ->. discriminate.
  - split; [split; [rewrite Hst; discriminate | tauto]|].
    intros id p ->. discriminate.
  - split; [split; [auto | reflexivity]|].
    intros id p0 [= <- <-].
    rewrite Hpl. subst p. cbn.
    repeat split; try (symmetry; exact Hc).
    apply map_get_set_same.
Qed.

Lemma join_accepts_iff_witness :
  let e1 := mkEnv 1000 "10.0.0.1" in
  let e2 := mkEnv 2000 "10.0.0.2" in
  let s := run [(e1, Join (VNum (num_of_Z 7)))] init in
  status (snd (join e2 (VNum (num_of_Z 3)) s)) = 200 /\
  ~ is_code (VNum (Finite (7 # 2))).
Proof.
  intros e1 e2 s.
  assert (Hcode : is_code (VNum (num_of_Z 3))).
  { exists (inject_Z 3), 3. repeat split; try reflexivity; lia. }
  split.
  - apply (proj1 (join_accepts_iff e2 (VNum (num_of_Z 3)) s)).
    split; [exact Hcode|]. split.
    + intros (p & n & [Hin | []] & [= <-] & Heq). subst p. discriminate.
    + intros (p & [Hin | []] & Hip). subst p. discriminate.
  - intros H.
    pose proof (proj1 (join_accepts_iff e2 (VNum (Finite (7 # 2))) init)) as Hd.
    assert (Hst : status (snd (join e2 (VNum (Finite (7 # 2))) init)) = 200).
    { apply (proj2 Hd). split; [exact H|]. split.
      - intros (p & n & [] & _).
      - intros (p & [] & _). }
    vm_compute in Hst. discriminate.
Defined.
